(** * beacon.api device registry: a shallow embedding and its properties

    The registry of [beacon/device] keeps devices, pending registrations,
    tokens and feedback in a Redis store.  This development embeds the store
    commands the registry issues, the registry operations themselves, the
    token route of [beacon/routes] and the device control processor, and
    proves the properties the specification states about them. *)

From Stdlib Require Import ZArith NArith String Ascii List Lia Bool.
From stdpp Require Import gmap strings list fin_maps.

Set Default Proof Using "Type".

(** ** Errors and results *)

(** The error values the registry produces or passes through.  The source
    builds them with [fmt.Errorf] from constants of [defs]; callers and tests
    tell them apart by their text, here by constructor. *)
Inductive error : Type :=
| ErrNotFound
| ErrInvalidRegistrationRequest
| ErrBadRedisResponse
| ErrBadInterchangeAuthentication
| ErrInvalidDevice
| ErrInvalidRequest
| ErrInvalidEntry (field value : string)
| ErrStore (msg : string)
| ErrRedigoNil
| ErrRedigoType
| ErrSyntax (input : string)
| ErrRange (input : string)
| ErrMarshal (msg : string)
| ErrIO (msg : string)
| ErrGenerate (msg : string).

Inductive result (A : Type) : Type :=
| Ok (a : A)
| Err (e : error).
Arguments Ok {A} a.
Arguments Err {A} e.

Definition is_ok {A} (r : result A) : bool :=
  match r with Ok _ => true | Err _ => false end.

(** ** The Redis store *)

(** A key holds a hash, a list or a plain string. *)
Inductive rval : Type :=
| VHash (h : gmap string string)
| VList (l : list string)
| VString (s : string).

(** Replies as redigo hands them to the caller.  The elements of an array
    reply are bulk strings or nil. *)
Inductive reply : Type :=
| RNil
| RInt (n : Z)
| RBulk (s : string)
| RStatus (s : string)
| RArray (l : list (option string)).

(** The commands the registry sends.  [KEYS p] stands for [KEYS p*], the only
    pattern shape the registry uses (a key prefix followed by a star).
    [HMSET] carries its field/value arguments flat, as the source passes
    them. *)
Inductive command : Type :=
| EXISTS (key : string)
| KEYS (pfx : string)
| HGET (key field : string)
| HMGET (key : string) (fields : list string)
| HMSET (key : string) (args : list string)
| HSET (key field value : string)
| LPUSH (key value : string)
| LLEN (key : string)
| LTRIM (key : string) (start stop : Z)
| DEL (key : string).

(** The store: the key space and a schedule of connection faults.  Each
    command consumes one entry of the schedule; [Some msg] makes [Do] return
    the error [msg] without running the command (a failed round trip), [None]
    or an exhausted schedule lets the command run. *)
Record Store : Type := mkStore {
  kv : gmap string rval;
  faults : list (option string)
}.

Definition wrongtype : string :=
  "WRONGTYPE Operation against a key holding the wrong kind of value".

Definition wrongargs : string := "ERR wrong number of arguments".

Definition bulk_of (o : option string) : reply :=
  match o with Some v => RBulk v | None => RNil end.

Fixpoint pair_up (args : list string) : option (list (string * string)) :=
  match args with
  | [] => Some []
  | f :: v :: rest => option_map (cons (f, v)) (pair_up rest)
  | _ => None
  end.

Definition hash_set_all (h : gmap string string) (ps : list (string * string))
  : gmap string string :=
  fold_left (fun acc p => <[fst p := snd p]> acc) ps h.

(** [LTRIM key start stop] keeps the elements at indices [start..stop],
    both inclusive; a negative index counts from the end of the list. *)
Definition ltrim_range (l : list string) (start stop : Z) : list string :=
  let len := Z.of_nat (length l) in
  let start' := if (start <? 0)%Z then Z.max 0 (len + start) else start in
  let stop' := if (stop <? 0)%Z then (len + stop)%Z else stop in
  let stop'' := Z.min stop' (len - 1) in
  if (stop'' <? start')%Z || (len <=? start')%Z then []
  else take (Z.to_nat (stop'' - start' + 1)) (drop (Z.to_nat start') l).

Definition keys_with_prefix (pfx : string) (m : gmap string rval) : list string :=
  filter (fun k => String.prefix pfx k = true) (map fst (map_to_list m)).

(** One command against the key space: the reply, or the error reply of the
    server, and the key space afterwards. *)
Definition exec (c : command) (m : gmap string rval)
  : result reply * gmap string rval :=
  match c with
  | EXISTS k =>
      (Ok (RInt (match m !! k with Some _ => 1 | None => 0 end)), m)
  | KEYS pfx =>
      (Ok (RArray (map Some (keys_with_prefix pfx m))), m)
  | HGET k f =>
      match m !! k with
      | None => (Ok RNil, m)
      | Some (VHash h) => (Ok (bulk_of (h !! f)), m)
      | Some _ => (Err (ErrStore wrongtype), m)
      end
  | HMGET k fs =>
      match m !! k with
      | None => (Ok (RArray (map (fun _ => None) fs)), m)
      | Some (VHash h) => (Ok (RArray (map (fun f => h !! f) fs)), m)
      | Some _ => (Err (ErrStore wrongtype), m)
      end
  | HMSET k args =>
      match pair_up args with
      | None | Some [] => (Err (ErrStore wrongargs), m)
      | Some ps =>
          match m !! k with
          | None => (Ok (RStatus "OK"), <[k := VHash (hash_set_all ∅ ps)]> m)
          | Some (VHash h) => (Ok (RStatus "OK"), <[k := VHash (hash_set_all h ps)]> m)
          | Some _ => (Err (ErrStore wrongtype), m)
          end
      end
  | HSET k f v =>
      match m !! k with
      | None => (Ok (RInt 1), <[k := VHash {[f := v]}]> m)
      | Some (VHash h) =>
          (Ok (RInt (match h !! f with Some _ => 0 | None => 1 end)),
           <[k := VHash (<[f := v]> h)]> m)
      | Some _ => (Err (ErrStore wrongtype), m)
      end
  | LPUSH k v =>
      match m !! k with
      | None => (Ok (RInt 1), <[k := VList [v]]> m)
      | Some (VList l) => (Ok (RInt (Z.of_nat (S (length l)))), <[k := VList (v :: l)]> m)
      | Some _ => (Err (ErrStore wrongtype), m)
      end
  | LLEN k =>
      match m !! k with
      | None => (Ok (RInt 0), m)
      | Some (VList l) => (Ok (RInt (Z.of_nat (length l))), m)
      | Some _ => (Err (ErrStore wrongtype), m)
      end
  | LTRIM k start stop =>
      match m !! k with
      | None => (Ok (RStatus "OK"), m)
      | Some (VList l) =>
          match ltrim_range l start stop with
          | [] => (Ok (RStatus "OK"), delete k m)
          | l' => (Ok (RStatus "OK"), <[k := VList l']> m)
          end
      | Some _ => (Err (ErrStore wrongtype), m)
      end
  | DEL k =>
      (Ok (RInt (match m !! k with Some _ => 1 | None => 0 end)), delete k m)
  end.

(** ** The state monad of registry operations *)

Definition St (A : Type) : Type := Store -> A * Store.
Definition M (A : Type) : Type := St (result A).

Definition ret {A} (a : A) : M A := fun s => (Ok a, s).
Definition throw {A} (e : error) : M A := fun s => (Err e, s).
Definition lift {A} (r : result A) : M A := fun s => (r, s).

Definition bind {A B} (c : M A) (k : A -> M B) : M B :=
  fun s =>
    match c s with
    | (Ok a, s') => k a s'
    | (Err e, s') => (Err e, s')
    end.

Notation "x <- c ;; k" := (bind c (fun x => k))
  (at level 100, c at next level, right associativity).

(** [registry.Do]: one command on a connection of the pool. *)
Definition Do (c : command) : M reply :=
  fun s =>
    match faults s with
    | Some msg :: fs => (Err (ErrStore msg), mkStore (kv s) fs)
    | None :: fs => let '(r, m) := exec c (kv s) in (r, mkStore m fs)
    | [] => let '(r, m) := exec c (kv s) in (r, mkStore m [])
    end.

(** A store with the given key space and no faults scheduled. *)
Definition healthy (m : gmap string rval) : Store := mkStore m [].

(** ** Constants of [beacon/defs] *)

Module defs.

(** The security constants of [defs]. *)
Definition SecurityUserDeviceTokenSize : Z := 20.
Definition SecurityUserDeviceNameMinLength : Z := 5.
Definition SecurityMinimumDeviceSharedSecretSize : Z := 20.
Definition SecurityDeviceTokenPermissionViewer : N := 1.
Definition SecurityDeviceTokenPermissionController : N := 2.
Definition SecurityDeviceTokenPermissionAdmin : N := 4.
Definition SecurityDeviceTokenPermissionAll : N :=
  N.lor SecurityDeviceTokenPermissionAdmin
    (N.lor SecurityDeviceTokenPermissionController SecurityDeviceTokenPermissionViewer).

(** Modelled from the spec: the key and field names of the store layout,
    whose declaring file of [defs] is not among the sources.  The
    persistence layout of the specification gives them, and the registry
    tests spell the three device fields out. *)
Definition RedisDeviceRegistryKey : string := "device-registry".
Definition RedisDeviceIndexKey : string := "device-index".
Definition RedisDeviceFeedbackKey : string := "device-feedback".
Definition RedisRegistrationRequestListKey : string := "registration-request".
Definition RedisDeviceTokenRegistrationKey : string := "device-token".
Definition RedisDeviceTokenListKey : string := "device-token-list".
Definition RedisDeviceIDField : string := "device:uuid".
Definition RedisDeviceNameField : string := "device:name".
Definition RedisDeviceSecretField : string := "device:secret".
Definition RedisRegistrationNameField : string := "registration:name".
Definition RedisRegistrationSecretField : string := "registration:secret".
Definition RedisDeviceTokenIDField : string := "token:id".
Definition RedisDeviceTokenNameField : string := "token:name".
Definition RedisDeviceTokenDeviceIDField : string := "token:device".
Definition RedisDeviceTokenPermissionField : string := "token:permission".

End defs.

(** ** Library functions the registry calls *)

(** [len] of a Go string: its number of bytes. *)
Definition len (s : string) : Z := Z.of_nat (String.length s).

(** [strconv]'s parsers and the [%b] verb of [fmt]. *)
Module strconv.

Definition lower (c : N) : N := N.lor c 32.

(** The value of a digit character, if it is one. *)
Definition digit_val (c : ascii) : option N :=
  let n := N_of_ascii c in
  if (48 <=? n)%N && (n <=? 57)%N then Some (n - 48)%N
  else if (97 <=? lower n)%N && (lower n <=? 122)%N then Some (lower n - 97 + 10)%N
  else None.

Definition maxUint64 : N := 2 ^ 64 - 1.

(** The digit loop of [ParseUint], for an explicit base in 2..36. *)
Fixpoint parse_loop (base maxVal : N) (s0 : string) (n : N) (s : string)
  : result N :=
  match s with
  | EmptyString => Ok n
  | String c rest =>
      match digit_val c with
      | None => Err (ErrSyntax s0)
      | Some d =>
          if (base <=? d)%N then Err (ErrSyntax s0)
          else if (maxUint64 / base + 1 <=? n)%N then Err (ErrRange s0)
          else
            let n1 := (n * base + d)%N in
            if (maxUint64 <? n1)%N || (maxVal <? n1)%N then Err (ErrRange s0)
            else parse_loop base maxVal s0 n1 rest
      end
  end.

Definition ParseUint (s : string) (base : N) (bitSize : N) : result N :=
  match s with
  | EmptyString => Err (ErrSyntax s)
  | _ => parse_loop base (2 ^ bitSize - 1) s 0 s
  end.

(** The binary digits of a positive number, most significant first, in
    front of [acc]. *)
Fixpoint pos_bits (p : positive) (acc : string) : string :=
  match p with
  | xH => String "1" acc
  | xO p' => pos_bits p' (String "0" acc)
  | xI p' => pos_bits p' (String "1" acc)
  end.

(** [fmt.Sprintf("%b", n)] for an unsigned [n]. *)
Definition FormatBinary (n : N) : string :=
  match n with
  | N0 => "0"
  | Npos p => pos_bits p EmptyString
  end.

Definition ParseBool (s : string) : result bool :=
  if existsb (String.eqb s) ["1"; "t"; "T"; "TRUE"; "true"; "True"]%string then Ok true
  else if existsb (String.eqb s) ["0"; "f"; "F"; "FALSE"; "false"; "False"]%string
       then Ok false
       else Err (ErrSyntax s).

(** [strconv.ParseInt s 10 0] on a 64-bit platform. *)
Definition ParseInt (s : string) : result Z :=
  match s with
  | EmptyString => Err (ErrSyntax s)
  | String c rest =>
      let neg := Ascii.eqb c "-" in
      let digits := if Ascii.eqb c "+" || neg then rest else s in
      match ParseUint digits 10 64 with
      | Err (ErrRange _) => Err (ErrRange s)
      | Err _ => Err (ErrSyntax s)
      | Ok un =>
          if negb neg && (2 ^ 63 <=? un)%N then Err (ErrRange s)
          else if neg && (2 ^ 63 <? un)%N then Err (ErrRange s)
          else Ok (if neg then - Z.of_N un else Z.of_N un)%Z
      end
  end.

End strconv.

(** redigo's reply conversions. *)
Module redis.

Definition String (r : reply) : result string :=
  match r with
  | RBulk s => Ok s
  | RStatus s => Ok s
  | RNil => Err ErrRedigoNil
  | _ => Err ErrRedigoType
  end.

(** A nil element of the array is left as the empty string. *)
Definition Strings (r : reply) : result (list string) :=
  match r with
  | RArray l => Ok (map (fun o => match o with Some s => s | None => EmptyString end) l)
  | RNil => Err ErrRedigoNil
  | _ => Err ErrRedigoType
  end.

Definition Int (r : reply) : result Z :=
  match r with
  | RInt n => Ok n
  | RBulk s => strconv.ParseInt s
  | RNil => Err ErrRedigoNil
  | _ => Err ErrRedigoType
  end.

Definition Bool (r : reply) : result bool :=
  match r with
  | RInt n => Ok (negb (n =? 0)%Z)
  | RBulk s => strconv.ParseBool s
  | RNil => Err ErrRedigoNil
  | _ => Err ErrRedigoType
  end.

End redis.


(** ** Data of [beacon/device] and [beacon/interchange] *)

Record RegistrationDetails : Type := mkRegistrationDetails {
  DeviceID : string;
  Name : string;
  SharedSecret : string
}.

Record RegistrationRequest : Type := mkRegistrationRequest {
  req_Name : string;
  req_SharedSecret : string
}.

(** Permissions are Go [uint] bit masks; only bitwise and and comparison are
    applied to them, so they are natural numbers here. *)
Record TokenDetails : Type := mkTokenDetails {
  TokenID : string;
  tok_DeviceID : string;
  Token : string;
  tok_Name : string;
  Permission : N
}.

Record DeviceMessageAuthentication : Type := mkAuthentication {
  auth_DeviceID : string;
  MessageDigest : string
}.

(** An outbound device message. *)
Record DeviceMessage : Type := mkDeviceMessage {
  dm_Authentication : option DeviceMessageAuthentication;
  dm_Payload : string
}.

(** A feedback message: its optional authentication block and its payload,
    which the registry never inspects. *)
Record FeedbackMessage : Type := mkFeedbackMessage {
  GetAuthentication : option DeviceMessageAuthentication;
  fb_Payload : string
}.

(** [list[i]] where the store model guarantees the index is in range: an
    [HMGET] reply has one element for each field asked. *)
Definition at_ (l : list string) (i : nat) : string := nth i l EmptyString.

(** ** The registry over a connection pool (the current [RedisRegistry]) *)

Module Registry.

Import defs.

Definition sprintf_key (pfx id : string) : string := pfx +:+ ":" +:+ id.

Definition genAllocationKey (id : string) : string :=
  sprintf_key RedisRegistrationRequestListKey id.
Definition genTokenRegistrationKey (token : string) : string :=
  sprintf_key RedisDeviceTokenRegistrationKey token.
Definition genRegistryKey (id : string) : string :=
  sprintf_key RedisDeviceRegistryKey id.
Definition genFeedbackKey (id : string) : string :=
  sprintf_key RedisDeviceFeedbackKey id.
Definition genTokenListKey (id : string) : string :=
  sprintf_key RedisDeviceTokenListKey id.

Definition exists_ (key : string) : M bool :=
  response <- Do (EXISTS key) ;;
  lift (redis.Bool response).

(** The loop of [hmgetstr] over the reply: the first empty entry is an
    error that names its field. *)
Fixpoint check_entries (fields entries : list string) : result unit :=
  match entries with
  | [] => Ok tt
  | s :: rest =>
      if (len s =? 0)%Z then Err (ErrInvalidEntry (at_ fields 0) s)
      else check_entries (tl fields) rest
  end.

Definition hmgetstr (key : string) (fields : list string) : M (list string) :=
  response <- Do (HMGET key fields) ;;
  entries <- lift (redis.Strings response) ;;
  _ <- lift (check_entries fields entries) ;;
  ret entries.

Definition hmset (key : string) (pairs : list string) : M unit :=
  _ <- Do (HMSET key pairs) ;;
  ret tt.

Definition hgetstr (key field : string) : M string :=
  response <- Do (HGET key field) ;;
  lift (redis.String response).

Definition llen (key : string) : M Z :=
  response <- Do (LLEN key) ;;
  lift (redis.Int response).

Definition del (key : string) : M unit :=
  _ <- Do (DEL key) ;;
  ret tt.

(** The loop [for _, v := range values] of [loadDetails] and
    [loadRequest]: every value must be longer than one byte. *)
Definition all_filled (values : list string) : bool :=
  forallb (fun v => (1 <? len v)%Z) values.

Definition loadDetails (deviceKey : string) : M RegistrationDetails :=
  values <- hmgetstr deviceKey
              [RedisDeviceIDField; RedisDeviceNameField; RedisDeviceSecretField] ;;
  if all_filled values
  then ret (mkRegistrationDetails (at_ values 0) (at_ values 1) (at_ values 2))
  else throw ErrInvalidDevice.

Definition loadRequest (requestKey : string) : M RegistrationRequest :=
  values <- hmgetstr requestKey
              [RedisRegistrationSecretField; RedisRegistrationNameField] ;;
  if all_filled values
  then ret (mkRegistrationRequest (at_ values 1) (at_ values 0))
  else throw ErrInvalidRequest.

(** The scan of [FindDevice] over the keys that [KEYS] returned. *)
Fixpoint FindDevice_scan (query : string) (registryKeys : list string)
  : M RegistrationDetails :=
  match registryKeys with
  | [] => throw ErrNotFound
  | k :: rest =>
      fields <- hmgetstr k
                  [RedisDeviceNameField; RedisDeviceIDField; RedisDeviceSecretField] ;;
      if String.eqb (at_ fields 0) query || String.eqb (at_ fields 1) query
      then ret (mkRegistrationDetails (at_ fields 1) (at_ fields 0) (at_ fields 2))
      else FindDevice_scan query rest
  end.

Definition FindDevice (query : string) : M RegistrationDetails :=
  let registryKey := genRegistryKey query in
  found <- exists_ registryKey ;;
  if found : bool then loadDetails registryKey
  else
    response <- Do (KEYS RedisDeviceRegistryKey) ;;
    registryKeys <- lift (redis.Strings response) ;;
    FindDevice_scan query registryKeys.

Section Feedback.

(** [proto.MarshalText] of a feedback message, a function of the protobuf
    library. *)
Variable MarshalText : FeedbackMessage -> result string.

(** [defs.RedisMaxFeedbackEntries]; its declaring file is not among the
    sources. *)
Variable RedisMaxFeedbackEntries : Z.

Definition LogFeedback (message : FeedbackMessage) : M unit :=
  match GetAuthentication message with
  | None => throw ErrBadInterchangeAuthentication
  | Some auth =>
      details <- FindDevice (auth_DeviceID auth) ;;
      let feedbackKey := genFeedbackKey (DeviceID details) in
      count <- llen feedbackKey ;;
      _ <- (if (RedisMaxFeedbackEntries <=? count)%Z
            then _ <- Do (LTRIM feedbackKey 0 (RedisMaxFeedbackEntries - 2)) ;; ret tt
            else ret tt) ;;
      text <- lift (MarshalText message) ;;
      _ <- Do (LPUSH feedbackKey text) ;;
      ret tt
  end.

End Feedback.

(** [allocationID] is the text of the fresh [uuid.NewV4()]. *)
Definition AllocateRegistration (allocationID : string) (details : RegistrationRequest)
  : M unit :=
  let registryKey := genAllocationKey allocationID in
  if (len (req_Name details) <? 4)%Z
     || (len (req_SharedSecret details) <? SecurityMinimumDeviceSharedSecretSize)%Z
  then throw ErrInvalidRegistrationRequest
  else
    hmset registryKey
      [RedisRegistrationNameField; req_Name details;
       RedisRegistrationSecretField; req_SharedSecret details].

(** The deferred [registry.Do("DEL", requestKey)] runs when [fill] returns
    [nil]; its outcome is dropped. *)
Definition fill (requestKey deviceID : string) : M unit :=
  request <- loadRequest requestKey ;;
  _ <- Do (LPUSH RedisDeviceIndexKey deviceID) ;;
  let registryKey := genRegistryKey deviceID in
  _ <- Do (HMSET registryKey
             [RedisDeviceIDField; deviceID;
              RedisDeviceNameField; req_Name request;
              RedisDeviceSecretField; req_SharedSecret request]) ;;
  fun s => (Ok tt, snd (Do (DEL requestKey) s)).

(** The secret of one pending row, as the scan of [FillRegistration] reads
    it: [HGET] then [redis.String]. *)
Definition read_secret (k : string) : M string :=
  response <- Do (HGET k RedisRegistrationSecretField) ;;
  lift (redis.String response).

(** The loop [for _, k := range requestKeys] of [FillRegistration]. *)
Fixpoint FillRegistration_scan (secret uuid : string) (requestKeys : list string)
  : M unit :=
  match requestKeys with
  | [] => throw ErrNotFound
  | k :: rest =>
      fun s =>
        match read_secret k s with
        | (Err _, s1) => FillRegistration_scan secret uuid rest s1
        | (Ok str, s1) =>
            if String.eqb str secret then fill k uuid s1
            else FillRegistration_scan secret uuid rest s1
        end
  end.

Definition FillRegistration (secret uuid : string) : M unit :=
  fun s =>
    match Do (KEYS RedisRegistrationRequestListKey) s with
    | (Err e, s1) => (Err e, s1)
    | (Ok response, s1) =>
        match redis.Strings response with
        | Err _ => (Err ErrBadRedisResponse, s1)
        | Ok requestKeys => FillRegistration_scan secret uuid requestKeys s1
        end
    end.

Definition FindToken (token : string) : M TokenDetails :=
  let registryKey := genTokenRegistrationKey token in
  permissionMask <- hgetstr registryKey RedisDeviceTokenPermissionField ;;
  permission <- lift (strconv.ParseUint permissionMask 2 32) ;;
  r <- hmgetstr registryKey
         [RedisDeviceTokenIDField; RedisDeviceTokenNameField;
          RedisDeviceTokenDeviceIDField] ;;
  ret (mkTokenDetails (at_ r 0) (at_ r 2) EmptyString (at_ r 1) permission).

Definition AuthorizeToken (deviceID token : string) (permission : N) : St bool :=
  fun s =>
    match FindDevice deviceID s with
    | (Err _, s1) => (false, s1)
    | (Ok registration, s1) =>
        if String.eqb token (SharedSecret registration) then (true, s1)
        else
          match FindToken token s1 with
          | (Err _, s2) => (false, s2)
          | (Ok requester, s2) =>
              (N.eqb (N.land (Permission requester) permission) permission, s2)
          end
    end.

(** [tokenID] is the text of the fresh [uuid.NewV4()] and [generated] the
    outcome of [registry.GenerateToken()].  When the final [hmset] fails the
    source returns the details next to the error; callers use them for a log
    line only. *)
Definition CreateToken (tokenID : string) (generated : result string)
    (deviceID tokenName : string) (permission : N) : M TokenDetails :=
  let listKey := genTokenListKey deviceID in
  let permissionMask := strconv.FormatBinary permission in
  _ <- FindDevice deviceID ;;
  rawToken <- lift generated ;;
  _ <- Do (LPUSH listKey rawToken) ;;
  let registryKey := genTokenRegistrationKey rawToken in
  let details := mkTokenDetails tokenID deviceID rawToken tokenName permission in
  _ <- hmset registryKey
         [RedisDeviceTokenNameField; tokenName;
          RedisDeviceTokenPermissionField; permissionMask;
          RedisDeviceTokenIDField; tokenID;
          RedisDeviceTokenDeviceIDField; deviceID] ;;
  ret details.

End Registry.

(** ** The registry over a single connection (the earlier [RedisRegistry]) *)

Module ConnRegistry.

(** [FindDevice], [FindToken] and the helpers below them read in this
    revision exactly as in the pooled one, with [Do] on the embedded
    connection, so the definitions of [Registry] stand for them. *)
Definition FindDevice : string -> M RegistrationDetails := Registry.FindDevice.
Definition FindToken : string -> M TokenDetails := Registry.FindToken.

Definition AuthorizeToken (deviceID token : string) (permission : N) : St bool :=
  fun s =>
    match FindDevice deviceID s with
    | (Err _, s1) => (false, s1)
    | (Ok registration, s1) =>
        if String.eqb token (SharedSecret registration) then (true, s1)
        else
          match FindToken token s1 with
          | (Err _, s2) => (false, s2)
          | (Ok requester, s2) =>
              (negb (N.eqb (N.land (Permission requester) permission) 0), s2)
          end
    end.

End ConnRegistry.

(** ** The token route of [beacon/routes] *)

Module routes.

Import defs.

Record tokenRequest : Type := mkTokenRequest {
  tr_DeviceID : string;
  tr_Name : string;
  tr_Permission : N
}.

(** What a handler hands back to the [net] runtime: a logic error with its
    code, a list of errors, or results. *)
Inductive HandlerResult : Type :=
| LogicError (code : string)
| HandlerErrors (errs : list string)
| Results (tokens : list TokenDetails).

Definition create (tokenID : string) (generated : result string)
    (deviceID name : string) (permission : N) : St HandlerResult :=
  fun s =>
    match Registry.CreateToken tokenID generated deviceID name permission s with
    | (Err _, s1) => (HandlerErrors ["server-error"%string], s1)
    | (Ok token, s1) => (Results [token], s1)
    end.

(** [body] is the outcome of [runtime.ReadBody] ([None] when it fails) and
    [token] the value of the user token header. *)
Definition CreateToken (tokenID : string) (generated : result string)
    (body : option tokenRequest) (token : string) : St HandlerResult :=
  fun s =>
    match body with
    | None => (LogicError "invalid-request", s)
    | Some request =>
        let permission :=
          if N.eqb (N.land (tr_Permission request) SecurityDeviceTokenPermissionAll) 0
          then SecurityDeviceTokenPermissionViewer
          else tr_Permission request in
        if negb (5 <=? len (tr_Name request))%Z then (LogicError "invalid-name", s)
        else
          match Registry.FindDevice (tr_DeviceID request) s with
          | (Err _, s1) => (LogicError "not-found", s1)
          | (Ok registration, s1) =>
              if String.eqb token EmptyString then (LogicError "invalid-token", s1)
              else
                let '(authorized, s2) :=
                  Registry.AuthorizeToken (DeviceID registration) token
                    SecurityDeviceTokenPermissionAdmin s1 in
                if negb authorized then (LogicError "invalid-token", s2)
                else create tokenID generated (DeviceID registration)
                       (tr_Name request) permission s2
          end
    end.

End routes.

(** ** The device control processor of [beacon/bg] *)

Module bg.

(** A pooled connection, known by the id [GetID] returns. *)
Record Connection : Type := mkConnection { GetID : string }.

#[export] Instance Connection_eq_dec : EqDecision Connection.
Proof. solve_decision. Defined.

(** A reader taken from a stream: reading it fully gives its bytes or
    fails. *)
Inductive reader : Type :=
| Readable (data : string)
| Broken (msg : string).

Definition ReadAll (r : reader) : result string :=
  match r with
  | Readable data => Ok data
  | Broken msg => Err (ErrIO msg)
  end.

(** What the multi-way wait of the loop can hand over: a value from one of
    the three streams, the kill signal, or the closure of a stream. *)
Inductive input : Type :=
| Registration (conn : Connection)
| Command (r : reader)
| Feedback (r : reader)
| Kill
| CommandsClosed
| RegistrationsClosed
| FeedbackClosed.

(** What the processor does to the outside: calls on connections, log
    entries, and the release of the caller's wait handle. *)
Inductive effect : Type :=
| Close (conn : Connection)
| Send (conn : Connection) (msg : DeviceMessage)
| Log (e : error)
| Done.

Inductive phase : Type := Running | Terminated.

Record Processor : Type := mkProcessor {
  state : phase;
  pool : list Connection;
  index : Store
}.

Section Processor.

Variable MarshalText : FeedbackMessage -> result string.
Variable RedisMaxFeedbackEntries : Z.
Variable UnmarshalDeviceMessage : string -> result DeviceMessage.
Variable UnmarshalFeedbackMessage : string -> result FeedbackMessage.
(** The outcome of [conn.Send(msg)]: [None] for success. *)
Variable SendOutcome : Connection -> DeviceMessage -> option error.

Definition lookup_connection (id : string) (conns : list Connection)
  : option Connection :=
  find (fun c => String.eqb (GetID c) id) conns.

Definition target_of (msg : DeviceMessage) : string :=
  match dm_Authentication msg with
  | Some auth => auth_DeviceID auth
  | None => EmptyString
  end.

(** Modelled from the spec: the Draining effect of section 4.6, whose source
    ([DeviceControlProcessor.Start]) is not among the sources.  For each
    connection in the pool call Close, then transition to Terminated and
    signal completion to the caller's wait handle. *)
Definition drain (p : Processor) : Processor * list effect :=
  (mkProcessor Terminated (pool p) (index p), map Close (pool p) ++ [Done]).

(** Modelled from the spec: one iteration of the dispatch loop of section
    4.6 on the input the wait selected.  A registration is pooled when
    FindDevice on its id succeeds and is otherwise logged and closed; a
    command is read, unmarshalled, looked up in the pool and sent, any error
    being logged with the pool unchanged; feedback is read, unmarshalled and
    logged in the registry, errors being logged; Kill and the closure of the
    commands or registrations stream enter Draining; the closure of the
    feedback stream is not a terminator.  Once terminated the loop takes no
    further input. *)
Definition step (p : Processor) (i : input) : Processor * list effect :=
  match state p with
  | Terminated => (p, [])
  | Running =>
      match i with
      | Registration conn =>
          match Registry.FindDevice (GetID conn) (index p) with
          | (Ok _, s1) => (mkProcessor Running (pool p ++ [conn]) s1, [])
          | (Err e, s1) => (mkProcessor Running (pool p) s1, [Log e; Close conn])
          end
      | Command r =>
          match ReadAll r with
          | Err e => (p, [Log e])
          | Ok data =>
              match UnmarshalDeviceMessage data with
              | Err e => (p, [Log e])
              | Ok msg =>
                  match lookup_connection (target_of msg) (pool p) with
                  | None => (p, [Log ErrNotFound])
                  | Some conn =>
                      match SendOutcome conn msg with
                      | None => (p, [Send conn msg])
                      | Some e => (p, [Send conn msg; Log e])
                      end
                  end
              end
          end
      | Feedback r =>
          match ReadAll r with
          | Err e => (p, [Log e])
          | Ok data =>
              match UnmarshalFeedbackMessage data with
              | Err e => (p, [Log e])
              | Ok msg =>
                  match Registry.LogFeedback MarshalText RedisMaxFeedbackEntries msg (index p) with
                  | (Ok _, s1) => (mkProcessor Running (pool p) s1, [])
                  | (Err e, s1) => (mkProcessor Running (pool p) s1, [Log e])
                  end
              end
          end
      | Kill | CommandsClosed | RegistrationsClosed => drain p
      | FeedbackClosed => (p, [])
      end
  end.

(** Modelled from the spec: the loop itself, on the inputs in the order the
    wait selects them, with the effects in the order they happen. *)
Fixpoint run (p : Processor) (inputs : list input) : Processor * list effect :=
  match inputs with
  | [] => (p, [])
  | i :: rest =>
      let '(p1, out1) := step p i in
      let '(p2, out2) := run p1 rest in
      (p2, out1 ++ out2)
  end.

(** Modelled from the spec: [Start] on a processor constructed with the
    pool [conns] and the registry [s]. *)
Definition Start (conns : list Connection) (s : Store) (inputs : list input)
  : Processor * list effect :=
  run (mkProcessor Running conns s) inputs.

(** The connections [Close] was called on, in call order. *)
Definition closed_in (out : list effect) : list Connection :=
  omap (fun e => match e with Close c => Some c | _ => None end) out.

End Processor.

End bg.

(** ** Notions used to state the properties *)

(** A computation that leaves the key space as it found it. *)
Definition reads_only {A} (c : St A) : Prop :=
  forall s, kv (snd (c s)) = kv s.

(** The commands that only read. *)
Definition read_command (c : command) : bool :=
  match c with
  | EXISTS _ | KEYS _ | HGET _ _ | HMGET _ _ | LLEN _ => true
  | _ => false
  end.

(** The next command sent to the store is answered by the server rather
    than lost on the connection. *)
Definition answered (s : Store) : Prop :=
  match faults s with
  | Some _ :: _ => False
  | _ => True
  end.

(** The fields of a hash row, or none when the key holds no hash. *)
Definition row (m : gmap string rval) (k : string) : option (gmap string string) :=
  match m !! k with
  | Some (VHash h) => Some h
  | _ => None
  end.

(** The list under a key; a key that is absent reads as the empty list. *)
Definition list_at (m : gmap string rval) (k : string) : list string :=
  match m !! k with
  | Some (VList l) => l
  | _ => []
  end.

(** [encoding/hex]: the bytes a hexadecimal text decodes to. *)
Module hex.

Definition fromHexChar (c : ascii) : option N :=
  let n := N_of_ascii c in
  if (48 <=? n)%N && (n <=? 57)%N then Some (n - 48)%N
  else if (97 <=? n)%N && (n <=? 102)%N then Some (n - 97 + 10)%N
  else if (65 <=? n)%N && (n <=? 70)%N then Some (n - 65 + 10)%N
  else None.

Fixpoint DecodeString (s : string) : option (list N) :=
  match s with
  | EmptyString => Some []
  | String a (String b rest) =>
      match fromHexChar a, fromHexChar b, DecodeString rest with
      | Some x, Some y, Some l => Some ((16 * x + y)%N :: l)
      | _, _, _ => None
      end
  | String _ EmptyString => None
  end.

End hex.

(** A store with one device and one token whose permission is stored as
    [100]: the fixture of the registry's [AuthorizeToken] tests. *)
Definition auth_fixture : gmap string rval :=
  <[ "device-registry:id-123"%string :=
       VHash (<[ "device:uuid"%string := "id-123"%string ]>
             (<[ "device:name"%string := "test-device"%string ]>
             (<[ "device:secret"%string := "421421421421421421421421"%string ]> ∅))) ]>
  (<[ "device-token:4242424242"%string :=
       VHash (<[ "token:permission"%string := "100"%string ]>
             (<[ "token:id"%string := "token-id-1"%string ]>
             (<[ "token:name"%string := "testing"%string ]>
             (<[ "token:device"%string := "id-123"%string ]> ∅)))) ]> ∅).

(** What the specification asks [AllocateRegistration] to refuse: a name
    shorter than 4 characters, or a shared secret that decodes from
    hexadecimal to fewer than 20 bytes. *)
Definition refused_by_spec (details : RegistrationRequest) : Prop :=
  (String.length (req_Name details) < 4)%nat \/
  exists bytes, hex.DecodeString (req_SharedSecret details) = Some bytes /\
                (length bytes < 20)%nat.

(** The pending allocation rows: the keys the scan of [FillRegistration]
    gets from [KEYS]. *)
Definition pending_rows (m : gmap string rval) : list string :=
  keys_with_prefix defs.RedisRegistrationRequestListKey m.

(** No pending allocation row has [secret] in its secret field. *)
Definition no_pending_secret (m : gmap string rval) (secret : string) : Prop :=
  forall k h, k ∈ pending_rows m -> row m k = Some h ->
    h !! defs.RedisRegistrationSecretField <> Some secret.

(** Two pending rows: the first holds a list, so that reading its secret
    field fails; the second is a well-formed allocation. *)
Definition fill_fixture : gmap string rval :=
  <[ "registration-request:bad"%string := VList ["x"%string] ]>
  (<[ "registration-request:good"%string :=
       VHash (<[ "registration:secret"%string := "31313131313131313131"%string ]>
             (<[ "registration:name"%string := "some request"%string ]> ∅)) ]> ∅).

(** A device with 51 feedback entries on record, and a feedback message of
    that device; the message text is taken to be its payload. *)
Definition feedback_fixture : gmap string rval :=
  <[ "device-registry:12345"%string :=
       VHash (<[ "device:uuid"%string := "12345"%string ]>
             (<[ "device:name"%string := "buffalo-bills"%string ]>
             (<[ "device:secret"%string := "red-sox"%string ]> ∅))) ]>
  (<[ "device-feedback:12345"%string := VList (replicate 51 "old"%string) ]> ∅).

Definition feedback_message : FeedbackMessage :=
  mkFeedbackMessage (Some (mkAuthentication "12345" "")) "new".

Definition marshal_payload (m : FeedbackMessage) : result string :=
  Ok (fb_Payload m).

(** [n] followed by the binary digits of [p]. *)
Fixpoint app_bits (n : N) (p : positive) : N :=
  match p with
  | xH => 2 * n + 1
  | xO p' => 2 * app_bits n p'
  | xI p' => 2 * app_bits n p' + 1
  end%N.

(** A hash row that lacks one of the given fields or holds it empty. *)
Definition has_empty_field (h : gmap string string) (fields : list string) : Prop :=
  exists f, f ∈ fields /\ (h !! f = None \/ h !! f = Some EmptyString).

(** A device row whose name is stored empty. *)
Definition empty_name_fixture : gmap string rval :=
  <[ "device-registry:id-9"%string :=
       VHash (<[ "device:uuid"%string := "id-9"%string ]>
             (<[ "device:name"%string := ""%string ]>
             (<[ "device:secret"%string := "a-shared-secret"%string ]> ∅))) ]> ∅.

(** The text [redis.Strings] makes of an array element. *)
Definition entry_of (o : option string) : string :=
  match o with Some v => v | None => EmptyString end.

(** The inputs that end the loop of the processor. *)
Definition terminator (i : bg.input) : bool :=
  match i with
  | bg.Kill | bg.CommandsClosed | bg.RegistrationsClosed => true
  | _ => false
  end.

(** Scenario 1 of the specification: one pooled connection. *)
Definition connection_A : bg.Connection := bg.mkConnection "A".

Definition unmarshal_none_device (data : string) : result DeviceMessage :=
  Err (ErrIO data).

Definition unmarshal_none_feedback (data : string) : result FeedbackMessage :=
  Err (ErrIO data).

Definition send_ok (c : bg.Connection) (m : DeviceMessage) : option error := None.

(** ** The list commands and the registry operations that use them *)

(** [LRANGE] and [LREM], the two further commands of the registry. *)
Inductive list_command : Type :=
| LRANGE (key : string) (start stop : Z)
| LREM (key : string) (count : Z) (value : string).

(** Remove the first [n] occurrences of [v]. *)
Fixpoint remove_first (n : nat) (v : string) (l : list string) : list string :=
  match l with
  | [] => []
  | x :: rest =>
      match n with
      | O => l
      | S n' => if String.eqb x v then remove_first n' v rest
                else x :: remove_first n v rest
      end
  end.

(** [LREM key count value]: a positive count removes from the head, a
    negative one from the tail, zero removes every occurrence. *)
Definition lrem_list (l : list string) (count : Z) (v : string) : list string :=
  if (0 <? count)%Z then remove_first (Z.to_nat count) v l
  else if (count <? 0)%Z then rev (remove_first (Z.to_nat (- count)) v (rev l))
  else filter (fun x => negb (String.eqb x v)) l.

Definition exec_list (c : list_command) (m : gmap string rval)
  : result reply * gmap string rval :=
  match c with
  | LRANGE k start stop =>
      match m !! k with
      | None => (Ok (RArray []), m)
      | Some (VList l) => (Ok (RArray (map Some (ltrim_range l start stop))), m)
      | Some _ => (Err (ErrStore wrongtype), m)
      end
  | LREM k count v =>
      match m !! k with
      | None => (Ok (RInt 0), m)
      | Some (VList l) =>
          let l' := lrem_list l count v in
          (Ok (RInt (Z.of_nat (length l - length l'))),
           match l' with
           | [] => delete k m
           | _ => <[k := VList l']> m
           end)
      | Some _ => (Err (ErrStore wrongtype), m)
      end
  end.

(** [registry.Do] on a list command, with the fault schedule of [Do]. *)
Definition DoL (c : list_command) : M reply :=
  fun s =>
    match faults s with
    | Some msg :: fs => (Err (ErrStore msg), mkStore (kv s) fs)
    | None :: fs => let '(r, m) := exec_list c (kv s) in (r, mkStore m fs)
    | [] => let '(r, m) := exec_list c (kv s) in (r, mkStore m [])
    end.

(** [len] of a Go slice. *)
Definition len_list {A} (l : list A) : Z := Z.of_nat (length l).

(** What [ListFeedback] returns: the messages ([nil] is the empty list), an
    error passed through, or the bad-interchange-data error. *)
Inductive feedback_listing : Type :=
| Listed (messages : list FeedbackMessage)
| ListingFailed (e : error)
| BadInterchangeData.

Module RegistryExt.

Import defs.
Import Registry.

Definition lrangestr (key : string) (start stop : Z) : M (list string) :=
  fun s =>
    match DoL (LRANGE key start stop) s with
    | (Err e, s1) => (Err e, s1)
    | (Ok response, s1) =>
        match redis.Strings response with
        | Err _ => (Err ErrBadRedisResponse, s1)
        | Ok entries => (Ok entries, s1)
        end
    end.

Section FeedbackListing.

(** [proto.UnmarshalText] into a feedback message. *)
Variable UnmarshalText : string -> result FeedbackMessage.

(** The loop of [ListFeedback]: [None] when an entry does not unmarshal. *)
Fixpoint unmarshal_entries (entries : list string) : option (list FeedbackMessage) :=
  match entries with
  | [] => Some []
  | entry :: rest =>
      match UnmarshalText entry with
      | Err _ => None
      | Ok message => option_map (cons message) (unmarshal_entries rest)
      end
  end.

Definition ListFeedback (id : string) (count : Z) : St feedback_listing :=
  fun s =>
    match FindDevice id s with
    | (Err e, s1) => (ListingFailed e, s1)
    | (Ok details, s1) =>
        let feedbackKey := genFeedbackKey (DeviceID details) in
        match lrangestr feedbackKey 0 count s1 with
        | (Err e, s2) => (ListingFailed e, s2)
        | (Ok entries, s2) =>
            if negb (1 <=? len_list entries)%Z then (Listed [], s2)
            else
              match unmarshal_entries entries with
              | None => (BadInterchangeData, s2)
              | Some results => (Listed results, s2)
              end
        end
    end.

End FeedbackListing.

(** The loop of [ListTokens]: an entry whose row cannot be read or whose
    permission does not parse is passed over. *)
Fixpoint ListTokens_loop (tokenEntries : list string) : St (list TokenDetails) :=
  match tokenEntries with
  | [] => fun s => ([], s)
  | tokenValue :: rest =>
      fun s =>
        match hmgetstr (genTokenRegistrationKey tokenValue)
                [RedisDeviceTokenIDField; RedisDeviceTokenNameField;
                 RedisDeviceTokenDeviceIDField; RedisDeviceTokenPermissionField] s with
        | (Err _, s1) => ListTokens_loop rest s1
        | (Ok details, s1) =>
            match strconv.ParseUint (at_ details 3) 2 32 with
            | Err _ => ListTokens_loop rest s1
            | Ok permission =>
                let '(results, s2) := ListTokens_loop rest s1 in
                (mkTokenDetails (at_ details 0) (at_ details 2) EmptyString
                   (at_ details 1) permission :: results, s2)
            end
        end
  end.

Definition ListTokens (query : string) : M (list TokenDetails) :=
  deviceInfo <- FindDevice query ;;
  let listKey := genTokenListKey (DeviceID deviceInfo) in
  tokenEntries <- lrangestr listKey 0 (-1) ;;
  fun s => let '(results, s1) := ListTokens_loop tokenEntries s in (Ok results, s1).

(** The loop of [ListRegistrations]: the first row that does not load fails
    the call. *)
Fixpoint ListRegistrations_loop (ids : list string) : M (list RegistrationDetails) :=
  match ids with
  | [] => ret []
  | k :: rest =>
      details <- loadDetails (genRegistryKey k) ;;
      results <- ListRegistrations_loop rest ;;
      ret (details :: results)
  end.

Definition ListRegistrations : M (list RegistrationDetails) :=
  ids <- lrangestr RedisDeviceIndexKey 0 (-1) ;;
  ListRegistrations_loop ids.

(** The loop [for _, t := range tokens] of [RemoveDevice]: each [del] is
    tried and its outcome dropped. *)
Fixpoint RemoveDevice_tokens (tokens : list string) (s : Store) : Store :=
  match tokens with
  | [] => s
  | t :: rest => RemoveDevice_tokens rest (snd (del (genTokenRegistrationKey t) s))
  end.

Definition RemoveDevice (id : string) : M unit :=
  let regKey := genRegistryKey id in
  let feedKey := genFeedbackKey id in
  _ <- del regKey ;;
  _ <- del feedKey ;;
  _ <- DoL (LREM RedisDeviceIndexKey 1 id) ;;
  let tokensListKey := genTokenListKey id in
  tokens <- lrangestr tokensListKey 0 (-1) ;;
  fun s => del tokensListKey (RemoveDevice_tokens tokens s).

End RegistryExt.

(** A computation that, on a store with no fault scheduled, leaves the
    store exactly as it found it. *)
Definition quiet {A} (c : St A) : Prop :=
  forall m, snd (c (healthy m)) = healthy m.

(** The fixture of the [AuthorizeToken] tests with a second device. *)
Definition two_devices_fixture : gmap string rval :=
  <[ "device-registry:id-456"%string :=
       VHash (<[ "device:uuid"%string := "id-456"%string ]>
             (<[ "device:name"%string := "other-device"%string ]>
             (<[ "device:secret"%string := "another-shared-secret"%string ]> ∅))) ]>
  auth_fixture.

(** A device row as [loadDetails] accepts it: the three fields of [d], each
    longer than one byte. *)
Definition loaded_row (m : gmap string rval) (key : string) (d : RegistrationDetails)
  : Prop :=
  exists h,
    row m key = Some h /\
    h !! defs.RedisDeviceIDField = Some (DeviceID d) /\
    h !! defs.RedisDeviceNameField = Some (Name d) /\
    h !! defs.RedisDeviceSecretField = Some (SharedSecret d) /\
    (1 < len (DeviceID d))%Z /\ (1 < len (Name d))%Z /\ (1 < len (SharedSecret d))%Z.

(** A token row as [ListTokens] reports it: the fields of [t] under the key
    of the raw token, the permission being the stored text parsed. *)
Definition listed_token (m : gmap string rval) (raw : string) (t : TokenDetails)
  : Prop :=
  exists h mask,
    row m (Registry.genTokenRegistrationKey raw) = Some h /\
    h !! defs.RedisDeviceTokenIDField = Some (TokenID t) /\
    h !! defs.RedisDeviceTokenNameField = Some (tok_Name t) /\
    h !! defs.RedisDeviceTokenDeviceIDField = Some (tok_DeviceID t) /\
    h !! defs.RedisDeviceTokenPermissionField = Some mask /\
    strconv.ParseUint mask 2 32 = Ok (Permission t) /\
    Token t = EmptyString.

(** A device with two ids on the index, both with a row. *)
Definition index_fixture : gmap string rval :=
  <[ "device-index"%string := VList ["id-456"; "id-123"]%string ]> two_devices_fixture.

(** A device whose token list names one token with a row and one without. *)
Definition tokens_fixture : gmap string rval :=
  <[ "device-token-list:id-123"%string := VList ["gone"; "4242424242"]%string ]>
  auth_fixture.

Definition unmarshal_payload (text : string) : result FeedbackMessage :=
  Ok (mkFeedbackMessage (Some (mkAuthentication "12345" "")) text).

(** A device with a row, feedback, an index entry and two tokens. *)
Definition removal_fixture : gmap string rval :=
  <[ "device-index"%string := VList ["id-456"; "id-123"]%string ]>
  (<[ "device-feedback:id-123"%string := VList ["f1"]%string ]>
  (<[ "device-token-list:id-123"%string := VList ["4242424242"]%string ]>
   two_devices_fixture)).

(** A device whose name is a single byte. *)
Definition short_name_fixture : gmap string rval :=
  <[ "device-registry:id-7"%string :=
       VHash (<[ "device:uuid"%string := "id-7"%string ]>
             (<[ "device:name"%string := "x"%string ]>
             (<[ "device:secret"%string := "a-shared-secret"%string ]> ∅))) ]> ∅.

(** ** The shorthand colour route of [beacon/routes] *)

Module devices.

(** A control frame: three [uint32] channels. *)
Record ControlFrame : Type := mkControlFrame {
  Red : N;
  Green : N;
  Blue : N
}.

Definition is_lower_hex (c : ascii) : bool :=
  let n := N_of_ascii c in
  ((48 <=? n)%N && (n <=? 57)%N) || ((97 <=? n)%N && (n <=? 102)%N).

(** [s] starts with [n] characters of [[0-9a-f]]. *)
Fixpoint hex_run (n : nat) (s : string) : bool :=
  match n with
  | O => true
  | S n' =>
      match s with
      | EmptyString => false
      | String c rest => is_lower_hex c && hex_run n' rest
      end
  end.

(** [hexColorRegex.MatchString]: the expression [[0-9a-f]{6}] is not
    anchored, so it matches a text that holds six such characters in a row
    anywhere. *)
Fixpoint MatchHexColor (s : string) : bool :=
  hex_run 6 s ||
  match s with
  | EmptyString => false
  | String _ rest => MatchHexColor rest
  end.

(** The colour group of [defs.DeviceShorthandRoute], which is anchored:
    [red|blue|green|off|rand|[0-9a-f]{6}]. *)
Definition shorthand_color (color : string) : bool :=
  existsb (String.eqb color) ["red"; "blue"; "green"; "off"; "rand"]%string
  || (Nat.eqb (String.length color) 6 && hex_run 6 color).

(** [hex.Decode] of a two-character slice into a one-byte buffer. *)
Definition decode_pair (pair : string) : option N :=
  match hex.DecodeString pair with
  | Some [b] => Some b
  | _ => None
  end.

(** The [switch] of [UpdateShorthand]: the frame for a colour, given the
    three values [randColorValue] would draw; [None] is the invalid-hex
    answer. *)
Definition shorthand_frame (r1 r2 r3 : N) (color : string) : option ControlFrame :=
  if String.eqb color "green" then Some (mkControlFrame 0 255 0)
  else if String.eqb color "red" then Some (mkControlFrame 255 0 0)
  else if String.eqb color "blue" then Some (mkControlFrame 0 0 255)
  else if String.eqb color "rand" then Some (mkControlFrame r1 r2 r3)
  else if MatchHexColor color then
    match decode_pair (String.substring 0 2 color) with
    | None => None
    | Some r =>
        match decode_pair (String.substring 2 2 color) with
        | None => None
        | Some g =>
            match decode_pair (String.substring 4 2 color) with
            | None => None
            | Some b => Some (mkControlFrame r g b)
            end
        end
    end
  else Some (mkControlFrame 0 0 0).

(** What the handler answers: a logic error with its code, an error, or
    nothing after it published the marshalled message. *)
Inductive ShorthandResult : Type :=
| ShorthandLogicError (code : string)
| ShorthandErrors (e : error)
| ShorthandPublished (data : string).

Section Shorthand.

(** [proto.Marshal] of a control message with the given frames, and of a
    device message of the given type. *)
Variable MarshalControl : list ControlFrame -> result string.
Variable MarshalDevice : string -> DeviceMessage -> result string.

(** [found] is the outcome of [registry.Find(query)]. *)
Definition UpdateShorthand (found : result RegistrationDetails) (r1 r2 r3 : N)
    (color : string) : ShorthandResult :=
  match found with
  | Err _ => ShorthandLogicError "not-found"
  | Ok details =>
      match shorthand_frame r1 r2 r3 color with
      | None => ShorthandLogicError "invalid-hex"
      | Some frame =>
          match MarshalControl [frame] with
          | Err e => ShorthandErrors e
          | Ok commandData =>
              let message :=
                mkDeviceMessage (Some (mkAuthentication (DeviceID details) EmptyString))
                  commandData in
              match MarshalDevice "CONTROL" message with
              | Err e => ShorthandErrors e
              | Ok data => ShorthandPublished data
              end
          end
      end
  end.

End Shorthand.

End devices.

(** ** Token creation over a single connection (the earlier [RedisRegistry]) *)

Module ConnRegistryExt.

Import defs.
Import Registry.

Definition hset (key field value : string) : M unit :=
  _ <- Do (HSET key field value) ;;
  ret tt.

(** [tokenID] is the value of [uuid.NewV4().String()] and [generated] the
    outcome of [rand.Read] with the key hex-encoded.  This revision does not
    look the device up and writes the four fields one by one. *)
Definition CreateToken (tokenID : string) (generated : result string)
    (deviceID tokenName : string) (permission : N) : M TokenDetails :=
  let listKey := genTokenListKey deviceID in
  let permissionMask := strconv.FormatBinary permission in
  rawToken <- lift generated ;;
  _ <- Do (LPUSH listKey rawToken) ;;
  let registryKey := genTokenRegistrationKey rawToken in
  _ <- hset registryKey RedisDeviceTokenNameField tokenName ;;
  _ <- hset registryKey RedisDeviceTokenPermissionField permissionMask ;;
  _ <- hset registryKey RedisDeviceTokenIDField tokenID ;;
  _ <- hset registryKey RedisDeviceTokenDeviceIDField deviceID ;;
  ret (mkTokenDetails tokenID deviceID rawToken tokenName permission).

(** The loop of this revision's [ListRegistrations]: a row that does not
    load is passed over. *)
Fixpoint ListRegistrations_loop (ids : list string) (s : Store)
  : list RegistrationDetails * Store :=
  match ids with
  | [] => ([], s)
  | k :: rest =>
      match loadDetails (genRegistryKey k) s with
      | (Err _, s1) => ListRegistrations_loop rest s1
      | (Ok details, s1) =>
          let '(results, s2) := ListRegistrations_loop rest s1 in
          (details :: results, s2)
      end
  end.

Definition ListRegistrations : M (list RegistrationDetails) :=
  response <- DoL (LRANGE RedisDeviceIndexKey 0 (-1)) ;;
  ids <- lift (redis.Strings response) ;;
  fun s => let '(results, s') := ListRegistrations_loop ids s in (Ok results, s').

End ConnRegistryExt.

(** * Properties *)

(** ** The monad *)

Lemma bind_Ok {A B} (c : M A) (k : A -> M B) s b s' :
  bind c k s = (Ok b, s') <->
  exists a s1, c s = (Ok a, s1) /\ k a s1 = (Ok b, s').
Proof.
  unfold bind. split.
  - destruct (c s) as [[a|e] s1]; intros H; [eauto | discriminate].
  - intros (a & s1 & -> & H). exact H.
Qed.


Lemma lift_inv {A} (r r' : result A) s s' :
  lift r s = (r', s') -> r' = r /\ s' = s.
Proof. unfold lift. intros [= <- <-]. auto. Qed.

Lemma ret_inv {A} (a : A) r s s' :
  ret a s = (r, s') -> r = Ok a /\ s' = s.
Proof. unfold ret. intros [= <- <-]. auto. Qed.

Lemma reads_only_ret {A} (a : A) : reads_only (ret a).
Proof. intros s. reflexivity. Qed.

Lemma reads_only_throw {A} e : reads_only (@throw A e).
Proof. intros s. reflexivity. Qed.

Lemma reads_only_lift {A} (r : result A) : reads_only (lift r).
Proof. intros s. reflexivity. Qed.

Lemma reads_only_bind {A B} (c : M A) (k : A -> M B) :
  reads_only c -> (forall a, reads_only (k a)) -> reads_only (bind c k).
Proof.
  intros Hc Hk s. unfold bind. specialize (Hc s).
  destruct (c s) as [[a|e] s1]; simpl in *; [|exact Hc].
  rewrite (Hk a s1). exact Hc.
Qed.

(** ** The store *)

(** [Do] either fails on the connection, leaving the key space alone, or
    runs the command against the key space. *)
Lemma Do_cases c s :
  (exists msg fs, faults s = Some msg :: fs /\
     Do c s = (Err (ErrStore msg), mkStore (kv s) fs)) \/
  (exists fs, (faults s = None :: fs \/ (faults s = [] /\ fs = [])) /\
     Do c s = (fst (exec c (kv s)), mkStore (snd (exec c (kv s))) fs)).
Proof.
  unfold Do. destruct (faults s) as [|[msg|] fs] eqn:E.
  - right. exists []. split; [auto|]. destruct (exec c (kv s)); reflexivity.
  - left. eauto.
  - right. exists fs. split; [auto|]. destruct (exec c (kv s)); reflexivity.
Qed.

Lemma Do_healthy c m :
  Do c (healthy m) = (fst (exec c m), healthy (snd (exec c m))).
Proof. unfold Do, healthy. simpl. destruct (exec c m); reflexivity. Qed.

Lemma exec_read c m : read_command c = true -> snd (exec c m) = m.
Proof.
  destruct c; simpl; try discriminate; intros _; try reflexivity;
    destruct (m !! key) as [[| |]|]; reflexivity.
Qed.

Lemma reads_only_Do c : read_command c = true -> reads_only (Do c).
Proof.
  intros Hc s.
  destruct (Do_cases c s) as [(msg & fs & _ & ->) | (fs & _ & ->)]; simpl;
    [reflexivity | apply exec_read, Hc].
Qed.

Create HintDb reads discriminated.
#[export] Hint Resolve reads_only_ret reads_only_throw reads_only_lift : reads.
#[export] Hint Extern 1 (reads_only (Do _)) => (apply reads_only_Do; reflexivity) : reads.
#[export] Hint Extern 2 (reads_only (bind _ _)) => (apply reads_only_bind; [|intros ?]) : reads.
#[export] Hint Extern 3 (reads_only (if ?b then _ else _)) => destruct b : reads.

(** ** The registry's readers leave the store alone *)

Lemma reads_only_hmgetstr key fields : reads_only (Registry.hmgetstr key fields).
Proof. unfold Registry.hmgetstr. auto 10 with reads. Qed.

Lemma reads_only_loadDetails key : reads_only (Registry.loadDetails key).
Proof.
  unfold Registry.loadDetails. apply reads_only_bind.
  - apply reads_only_hmgetstr.
  - intros values. destruct (Registry.all_filled values); auto with reads.
Qed.

Lemma reads_only_FindDevice_scan query keys :
  reads_only (Registry.FindDevice_scan query keys).
Proof.
  induction keys as [|k rest IH]; simpl; [auto with reads|].
  apply reads_only_bind; [apply reads_only_hmgetstr|].
  intros fields.
  destruct (_ || _); [auto with reads | exact IH].
Qed.

Lemma reads_only_FindDevice query : reads_only (Registry.FindDevice query).
Proof.
  unfold Registry.FindDevice, Registry.exists_.
  apply reads_only_bind; [auto 10 with reads|].
  intros [|]; [apply reads_only_loadDetails|].
  apply reads_only_bind; [auto with reads|]. intros response.
  apply reads_only_bind; [auto with reads|]. intros keys.
  apply reads_only_FindDevice_scan.
Qed.

Lemma reads_only_FindToken token : reads_only (Registry.FindToken token).
Proof.
  unfold Registry.FindToken, Registry.hgetstr.
  apply reads_only_bind; [auto 10 with reads|]. intros mask.
  apply reads_only_bind; [auto with reads|]. intros permission.
  apply reads_only_bind; [apply reads_only_hmgetstr | auto with reads].
Qed.

(** ** Token authorisation *)

(** The pooled [AuthorizeToken] is true exactly when the device is found and
    the token is its shared secret or a stored token whose permission holds
    every requested bit. *)
Lemma Registry_AuthorizeToken_iff deviceID token permission s :
  fst (Registry.AuthorizeToken deviceID token permission s) = true <->
  exists registration s1,
    Registry.FindDevice deviceID s = (Ok registration, s1) /\
    (token = SharedSecret registration \/
     exists requester s2,
       Registry.FindToken token s1 = (Ok requester, s2) /\
       N.land (Permission requester) permission = permission).
Proof.
  unfold Registry.AuthorizeToken.
  destruct (Registry.FindDevice deviceID s) as [[registration|e] s1] eqn:Hd; simpl.
  - destruct (String.eqb_spec token (SharedSecret registration)) as [Heq|Hne]; simpl.
    + split; [|reflexivity]. intros _. exists registration, s1. auto.
    + destruct (Registry.FindToken token s1) as [[requester|e] s2] eqn:Ht; simpl.
      * rewrite N.eqb_eq. split.
        -- intros H. exists registration, s1. split; [reflexivity|]. right. eauto.
        -- intros (r & s1' & [= <- <-] & [Heq | (q & s2' & Hq & Hl)]);
             [contradiction|]. rewrite Ht in Hq. injection Hq as <- <-. exact Hl.
      * split; [discriminate|].
        intros (r & s1' & [= <- <-] & [Heq | (q & s2' & Hq & _)]);
          [contradiction|]. rewrite Ht in Hq. discriminate.
  - split; [discriminate|]. intros (r & s1' & [=] & _).
Qed.

(** C1.  On the registry tests' fixture (a token stored with permission
    [100]) a request for the mask [111] is granted by the connection-based
    [AuthorizeToken], which asks for any common bit, although the stored
    permission lacks two of the requested bits; the pooled [AuthorizeToken]
    refuses it. *)
Theorem ConnRegistry_AuthorizeToken_any_bit :
  fst (ConnRegistry.AuthorizeToken "id-123" "4242424242" 7 (healthy auth_fixture)) = true /\
  fst (Registry.AuthorizeToken "id-123" "4242424242" 7 (healthy auth_fixture)) = false /\
  (exists requester s2,
     Registry.FindToken "4242424242" (healthy auth_fixture) = (Ok requester, s2) /\
     Permission requester = 4%N /\
     N.land (Permission requester) 7 <> 7%N) /\
  (exists registration s1,
     Registry.FindDevice "id-123" (healthy auth_fixture) = (Ok registration, s1) /\
     SharedSecret registration <> "4242424242"%string).
Proof.
  split; [vm_compute; reflexivity|].
  split; [vm_compute; reflexivity|].
  split.
  - eexists _, _. split; [vm_compute; reflexivity|]. split; [reflexivity|].
    simpl. discriminate.
  - eexists _, _. split; [vm_compute; reflexivity|]. simpl. discriminate.
Qed.

(** ** Allocation of a registration *)

Lemma hmset_outcome key pairs s r s' :
  Registry.hmset key pairs s = (r, s') ->
  r = Ok tt \/ exists msg, r = Err (ErrStore msg).
Proof.
  unfold Registry.hmset, bind.
  destruct (Do_cases (HMSET key pairs) s) as [(msg & fs & _ & ->) | (fs & _ & ->)].
  - intros [= <- _]. eauto.
  - simpl. destruct (pair_up pairs) as [[|p ps]|]; simpl;
      try (intros [= <- _]; eauto).
    destruct (kv s !! key) as [[| |]|]; simpl; intros [= <- _]; eauto.
Qed.

(** C5, as the code has it.  [AllocateRegistration] returns the
    invalid-registration-request error exactly when the name is shorter than
    4 bytes or the shared secret, taken as the text it is (not decoded), is
    shorter than 20 bytes; every other request is written with one [HMSET]
    of the two fields under the allocation key, and what comes back is that
    command's outcome: success or the store's error. *)
Theorem AllocateRegistration_minimums allocationID details s :
  (fst (Registry.AllocateRegistration allocationID details s)
     = Err ErrInvalidRegistrationRequest
   <-> (len (req_Name details) < 4 \/ len (req_SharedSecret details) < 20)%Z) /\
  Registry.AllocateRegistration allocationID details s =
    (if (len (req_Name details) <? 4)%Z || (len (req_SharedSecret details) <? 20)%Z
     then (Err ErrInvalidRegistrationRequest, s)
     else Registry.hmset (Registry.genAllocationKey allocationID)
            [defs.RedisRegistrationNameField; req_Name details;
             defs.RedisRegistrationSecretField; req_SharedSecret details] s) /\
  (fst (Registry.AllocateRegistration allocationID details s) = Ok tt \/
   fst (Registry.AllocateRegistration allocationID details s)
     = Err ErrInvalidRegistrationRequest \/
   exists msg,
     fst (Registry.AllocateRegistration allocationID details s) = Err (ErrStore msg)).
Proof.
  unfold Registry.AllocateRegistration, defs.SecurityMinimumDeviceSharedSecretSize.
  destruct ((len (req_Name details) <? 4)%Z || (len (req_SharedSecret details) <? 20)%Z)
    eqn:Hc.
  - apply orb_true_iff in Hc. rewrite !Z.ltb_lt in Hc.
    repeat split; auto.
  - apply orb_false_iff in Hc. rewrite !Z.ltb_ge in Hc.
    match goal with |- context [Registry.hmset ?k ?p s] =>
      destruct (Registry.hmset k p s) as [r s'] eqn:Hm end.
    destruct (hmset_outcome _ _ _ _ _ Hm) as [-> | [msg ->]]; simpl.
    + repeat split; [discriminate | lia | auto].
    + repeat split; [discriminate | lia | eauto].
Qed.

(** C5, the claim as stated fails.  A secret of 20 hexadecimal digits
    decodes to 10 bytes, fewer than 20, so the specification asks for the
    request to be refused; it is not: it is written to the store. *)
Lemma AllocateRegistration_short_key_accepted :
  let details := mkRegistrationRequest "lamp" "31313131313131313131" in
  refused_by_spec details /\
  fst (Registry.AllocateRegistration "a1" details (healthy ∅)) = Ok tt /\
  row (kv (snd (Registry.AllocateRegistration "a1" details (healthy ∅))))
      "registration-request:a1"
    = Some (<[ "registration:secret"%string := "31313131313131313131"%string ]>
           (<[ "registration:name"%string := "lamp"%string ]> ∅)) /\
  ~ (fst (Registry.AllocateRegistration "a1" details (healthy ∅))
       = Err ErrInvalidRegistrationRequest <-> refused_by_spec details).
Proof.
  intros details.
  assert (Hspec : refused_by_spec details).
  { right. eexists. split; [reflexivity|]. simpl. lia. }
  split; [exact Hspec|].
  split; [vm_compute; reflexivity|].
  split; [vm_compute; reflexivity|].
  intros [_ H]. specialize (H Hspec). vm_compute in H. discriminate H.
Qed.

(** ** Filling a registration *)

Lemma Strings_of_keys (l : list string) :
  redis.Strings (RArray (map Some l)) = Ok l.
Proof.
  simpl. f_equal. induction l as [|x l IH]; simpl; [reflexivity|].
  f_equal. exact IH.
Qed.

(** What reading the secret field of a row can give. *)
Lemma read_secret_cases k s :
  (exists e s1, Registry.read_secret k s = (Err e, s1) /\ kv s1 = kv s) \/
  (exists h v s1, Registry.read_secret k s = (Ok v, s1) /\ kv s1 = kv s /\
     row (kv s) k = Some h /\ h !! defs.RedisRegistrationSecretField = Some v).
Proof.
  unfold Registry.read_secret, bind, row.
  destruct (Do_cases (HGET k defs.RedisRegistrationSecretField) s)
    as [(msg & fs & _ & ->) | (fs & _ & ->)]; [solve [left; eauto]|].
  simpl. destruct (kv s !! k) as [[h|l|v]|]; simpl; try solve [left; eauto].
  destruct (h !! defs.RedisRegistrationSecretField) as [v|] eqn:Hv; simpl.
  - right. exists h, v. eauto.
  - left. eauto.
Qed.




Lemma FillRegistration_scan_no_match secret uuid keys :
  forall s,
    (forall k h, k ∈ keys -> row (kv s) k = Some h ->
       h !! defs.RedisRegistrationSecretField <> Some secret) ->
    exists s', Registry.FillRegistration_scan secret uuid keys s = (Err ErrNotFound, s')
               /\ kv s' = kv s.
Proof.
  induction keys as [|k rest IH]; intros s Hno; simpl.
  - exists s. auto.
  - assert (Hrest : forall s1, kv s1 = kv s ->
              exists s', Registry.FillRegistration_scan secret uuid rest s1
                         = (Err ErrNotFound, s') /\ kv s' = kv s).
    { intros s1 Hkv. destruct (IH s1) as (s' & Hs' & Hkv').
      - intros k' h Hin. rewrite Hkv. apply Hno. set_solver.
      - exists s'. split; [exact Hs' | congruence]. }
    destruct (read_secret_cases k s)
      as [(e & s1 & -> & Hkv) | (h & v & s1 & -> & Hkv & Hrow & Hv)].
    + apply Hrest, Hkv.
    + destruct (String.eqb_spec v secret) as [->|Hne].
      * exfalso. apply (Hno k h); [set_solver | exact Hrow | exact Hv].
      * apply Hrest, Hkv.
Qed.

(** C6.  When no pending allocation row has the secret, [FillRegistration]
    fails and writes nothing: the key space is as before, whatever the
    connection does; and when the store answers the [KEYS] listing the
    error is the not-found error. *)
Theorem FillRegistration_no_match_is_noop secret uuid s :
  no_pending_secret (kv s) secret ->
  (exists e s', Registry.FillRegistration secret uuid s = (Err e, s') /\ kv s' = kv s) /\
  (answered s ->
   exists s', Registry.FillRegistration secret uuid s = (Err ErrNotFound, s')
              /\ kv s' = kv s).
Proof.
  intros Hno. unfold Registry.FillRegistration, answered.
  destruct (Do_cases (KEYS defs.RedisRegistrationRequestListKey) s)
    as [(msg & fs & Hf & ->) | (fs & _ & ->)].
  - rewrite Hf. split; [eauto | contradiction].
  - simpl exec. cbn [fst snd]. rewrite Strings_of_keys.
    destruct (FillRegistration_scan_no_match secret uuid
                (keys_with_prefix defs.RedisRegistrationRequestListKey (kv s))
                (mkStore (kv s) fs)) as (s' & Hs' & Hkv).
    + intros k h Hin Hrow. exact (Hno k h Hin Hrow).
    + rewrite Hs'. split; [|intros _]; eauto.
Qed.

Lemma FillRegistration_no_match_is_noop_witness :
  no_pending_secret (kv (healthy fill_fixture)) "no-such-secret" /\
  answered (healthy fill_fixture) /\
  exists s', Registry.FillRegistration "no-such-secret" "device-1" (healthy fill_fixture)
             = (Err ErrNotFound, s')
             /\ kv s' = kv (healthy fill_fixture).
Proof.
  assert (Hno : no_pending_secret (kv (healthy fill_fixture)) "no-such-secret").
  { intros k h Hin Hrow.
    assert (Hk : k ∈ ["registration-request:good"; "registration-request:bad"]%string).
    { revert Hin. unfold pending_rows.
      replace (keys_with_prefix defs.RedisRegistrationRequestListKey
                 (kv (healthy fill_fixture)))
        with ["registration-request:good"; "registration-request:bad"]%string
        by (vm_compute; reflexivity).
      exact id. }
    apply list_elem_of_In in Hk. simpl in Hk.
    destruct Hk as [<- | [<- | []]]; vm_compute in Hrow; [|discriminate].
    injection Hrow as <-. vm_compute. discriminate. }
  split; [exact Hno|]. split; [exact I|].
  exact (proj2 (FillRegistration_no_match_is_noop "no-such-secret" "device-1"
                  (healthy fill_fixture) Hno) I).
Defined.

(** ** The feedback ring *)

Lemma Do_Ok c s r s' :
  Do c s = (Ok r, s') -> exec c (kv s) = (Ok r, kv s').
Proof.
  destruct (Do_cases c s) as [(msg & fs & _ & ->) | (fs & _ & ->)];
    [discriminate|].
  destruct (exec c (kv s)) as [r0 m]. simpl. intros [= -> <-]. reflexivity.
Qed.

Lemma ltrim_range_keeps (l : list string) (n : Z) :
  (2 <= n)%Z -> (n <= Z.of_nat (length l))%Z ->
  ltrim_range l 0 (n - 2) = take (Z.to_nat (n - 1)) l.
Proof.
  intros Hn Hl. unfold ltrim_range.
  assert (H1 : (n - 2 <? 0)%Z = false) by (apply Z.ltb_ge; lia).
  rewrite H1. change (0 <? 0)%Z with false. cbv iota.
  rewrite Z.min_l by lia. rewrite H1.
  assert (H2 : (Z.of_nat (length l) <=? 0)%Z = false) by (apply Z.leb_gt; lia).
  rewrite H2. simpl. change (Z.to_nat 0) with 0%nat. rewrite drop_0.
  f_equal. lia.
Qed.

Lemma llen_Ok key s count s' :
  Registry.llen key s = (Ok count, s') ->
  kv s' = kv s /\
  count = Z.of_nat (length (list_at (kv s) key)) /\
  (kv s !! key = None \/ exists l, kv s !! key = Some (VList l)).
Proof.
  unfold Registry.llen. rewrite bind_Ok. intros (r & s1 & Hdo & Hl).
  apply lift_inv in Hl as [Hr ->]. apply Do_Ok in Hdo. simpl in Hdo.
  unfold list_at. destruct (kv s !! key) as [[h|l|v]|]; try discriminate;
    injection Hdo as <- Hkv; simpl in Hr; injection Hr as Hr; subst count;
    simpl; eauto.
Qed.

(** C4.  A successful [LogFeedback] comes from a message with an
    authentication block whose device id [FindDevice] resolves, and leaves
    that device's feedback list as the new entry in front of the old list,
    which was first cut to its [MAX - 1] newest entries when it held [MAX] or
    more; so the list is never longer than [MAX] afterwards. *)
Theorem LogFeedback_bounded MarshalText (MAX : Z) message s s' :
  (2 <= MAX)%Z ->
  Registry.LogFeedback MarshalText MAX message s = (Ok tt, s') ->
  exists auth details s1 text,
    GetAuthentication message = Some auth /\
    Registry.FindDevice (auth_DeviceID auth) s = (Ok details, s1) /\
    MarshalText message = Ok text /\
    list_at (kv s') (Registry.genFeedbackKey (DeviceID details))
      = text ::
        (if (MAX <=? Z.of_nat (length (list_at (kv s)
                                    (Registry.genFeedbackKey (DeviceID details)))))%Z
         then take (Z.to_nat (MAX - 1))
                (list_at (kv s) (Registry.genFeedbackKey (DeviceID details)))
         else list_at (kv s) (Registry.genFeedbackKey (DeviceID details))) /\
    (Z.of_nat (length (list_at (kv s') (Registry.genFeedbackKey (DeviceID details))))
       <= MAX)%Z.
Proof.
  intros HMAX. unfold Registry.LogFeedback.
  destruct (GetAuthentication message) as [auth|]; [|discriminate].
  rewrite bind_Ok. intros (details & s1 & Hfind & H).
  pose proof (reads_only_FindDevice (auth_DeviceID auth) s) as Hkv1.
  rewrite Hfind in Hkv1. simpl in Hkv1.
  set (key := Registry.genFeedbackKey (DeviceID details)) in *.
  apply bind_Ok in H as (count & s2 & Hlen & H).
  apply llen_Ok in Hlen as (Hkv2 & Hcount & Hshape).
  rewrite Hkv1 in Hcount, Hshape.
  apply bind_Ok in H as ([] & s3 & Htrim & H).
  apply bind_Ok in H as (text & s4 & Htext & H).
  apply lift_inv in Htext as [Htext ->].
  apply bind_Ok in H as (r & s5 & Hpush & H).
  apply ret_inv in H as [_ ->].
  apply Do_Ok in Hpush. simpl in Hpush.
  exists auth, details, s1, text.
  split; [reflexivity|]. split; [exact Hfind|]. split; [congruence|].
  set (old := list_at (kv s) key) in *.
  assert (Hs3 : list_at (kv s3) key
                = if (MAX <=? count)%Z then take (Z.to_nat (MAX - 1)) old else old).
  { destruct (MAX <=? count)%Z eqn:Hc.
    - apply bind_Ok in Htrim as (r' & s3' & Hdo & Hret).
      apply ret_inv in Hret as [_ ->]. apply Do_Ok in Hdo. simpl in Hdo.
      apply Z.leb_le in Hc. rewrite Hkv2, Hkv1 in Hdo.
      destruct Hshape as [Hnone | [l Hl]].
      + exfalso. subst old. unfold list_at in Hcount. rewrite Hnone in Hcount.
        simpl in Hcount. lia.
      + assert (old = l) as -> by (subst old; unfold list_at; rewrite Hl; reflexivity).
        rewrite Hl in Hdo. rewrite ltrim_range_keeps in Hdo by lia.
        destruct (take (Z.to_nat (MAX - 1)) l) as [|x t] eqn:Htake.
        * exfalso. apply (f_equal length) in Htake. rewrite length_take in Htake.
          simpl in Htake. lia.
        * injection Hdo as _ <-. unfold list_at. rewrite lookup_insert_eq.
          reflexivity.
    - apply ret_inv in Htrim as [_ ->]. unfold list_at. subst old.
      rewrite Hkv2, Hkv1. reflexivity. }
  assert (Hs5 : list_at (kv s5) key = text :: list_at (kv s3) key).
  { unfold list_at in *. destruct (kv s3 !! key) as [[h|l|v]|] eqn:Hk;
      try discriminate; injection Hpush as _ <-; rewrite lookup_insert_eq;
      reflexivity. }
  change (Registry.genFeedbackKey (DeviceID details)) with key. fold old.
  rewrite Hs5, Hs3, <- Hcount. split; [reflexivity|].
  destruct (MAX <=? count)%Z eqn:Hc; simpl.
  - rewrite length_take. lia.
  - apply Z.leb_gt in Hc. lia.
Qed.

Lemma LogFeedback_bounded_witness :
  (2 <= 50)%Z /\
  fst (Registry.LogFeedback marshal_payload 50 feedback_message
         (healthy feedback_fixture)) = Ok tt /\
  (Z.of_nat (length (list_at
      (kv (snd (Registry.LogFeedback marshal_payload 50 feedback_message
                  (healthy feedback_fixture))))
      "device-feedback:12345")) <= 50)%Z.
Proof.
  split; [lia|].
  destruct (Registry.LogFeedback marshal_payload 50 feedback_message
              (healthy feedback_fixture)) as [r s'] eqn:H.
  assert (Hr : r = Ok tt).
  { apply (f_equal fst) in H. vm_compute in H. symmetry. exact H. }
  subst r. split; [reflexivity|].
  destruct (LogFeedback_bounded marshal_payload 50 feedback_message
              (healthy feedback_fixture) s' ltac:(lia) H)
    as (auth & details & s1 & text & Hauth & Hfind & _ & _ & Hlen).
  injection Hauth as <-.
  vm_compute in Hfind. injection Hfind as <- _.
  exact Hlen.
Defined.

(** ** The permission mask in the store *)

Lemma app_bits_0 p : app_bits 0 p = Npos p.
Proof. induction p as [p IH|p IH|]; simpl; rewrite ?IH; reflexivity. Qed.

Lemma parse_loop_bit (b : bool) s0 n rest :
  (2 * n + (if b then 1 else 0) <= 2 ^ 32 - 1)%N ->
  strconv.parse_loop 2 (2 ^ 32 - 1) s0 n
    (String (if b then "1" else "0")%char rest)
  = strconv.parse_loop 2 (2 ^ 32 - 1) s0 (2 * n + (if b then 1 else 0)) rest.
Proof.
  intros Hle.
  assert (Hmax : (2 ^ 32 - 1 = 4294967295)%N) by reflexivity.
  assert (Hcut : (strconv.maxUint64 / 2 + 1 = 9223372036854775808)%N) by reflexivity.
  assert (H64 : (strconv.maxUint64 = 18446744073709551615)%N) by reflexivity.
  rewrite Hmax in *.
  cbn [strconv.parse_loop].
  replace (strconv.digit_val (if b then "1" else "0")%char)
    with (Some (if b then 1 else 0)%N) by (destruct b; reflexivity).
  replace (2 <=? (if b then 1 else 0))%N with false by (destruct b; reflexivity).
  rewrite Hcut, H64.
  replace (9223372036854775808 <=? n)%N with false
    by (symmetry; apply N.leb_gt; lia).
  replace (n * 2 + (if b then 1 else 0))%N with (2 * n + (if b then 1 else 0))%N by lia.
  replace (18446744073709551615 <? 2 * n + (if b then 1 else 0))%N with false
    by (symmetry; apply N.ltb_ge; lia).
  replace (4294967295 <? 2 * n + (if b then 1 else 0))%N with false
    by (symmetry; apply N.ltb_ge; lia).
  reflexivity.
Qed.

Lemma parse_loop_pos_bits p : forall acc n s0,
  (app_bits n p <= 2 ^ 32 - 1)%N ->
  strconv.parse_loop 2 (2 ^ 32 - 1) s0 n (strconv.pos_bits p acc)
  = strconv.parse_loop 2 (2 ^ 32 - 1) s0 (app_bits n p) acc.
Proof.
  assert (Hmax : (2 ^ 32 - 1 = 4294967295)%N) by reflexivity.
  induction p as [p IH|p IH|]; intros acc n s0 Hle; cbn [strconv.pos_bits app_bits] in *.
  - rewrite IH by (rewrite Hmax in *; lia).
    rewrite (parse_loop_bit true) by exact Hle. reflexivity.
  - rewrite IH by (rewrite Hmax in *; lia).
    rewrite (parse_loop_bit false) by (rewrite N.add_0_r; exact Hle).
    rewrite N.add_0_r. reflexivity.
  - apply (parse_loop_bit true). exact Hle.
Qed.

Lemma pos_bits_nonempty p : forall acc,
  exists c rest, strconv.pos_bits p acc = String c rest.
Proof. induction p as [p IH|p IH|]; intros acc; simpl; eauto. Qed.

(** The base-2 text of a 32-bit mask parses back to the mask. *)
Lemma ParseUint_FormatBinary (p : N) :
  (p < 2 ^ 32)%N ->
  strconv.ParseUint (strconv.FormatBinary p) 2 32 = Ok p.
Proof.
  intros Hp. destruct p as [|q]; [reflexivity|].
  unfold strconv.FormatBinary, strconv.ParseUint.
  destruct (pos_bits_nonempty q EmptyString) as (c & rest & Hs).
  rewrite Hs at 1. rewrite parse_loop_pos_bits.
  - rewrite app_bits_0. reflexivity.
  - rewrite app_bits_0. assert ((2 ^ 32 - 1 = 4294967295)%N) by reflexivity.
    assert ((2 ^ 32 = 4294967296)%N) by reflexivity. lia.
Qed.

Lemma hash_set_all_token h name mask id device :
  let h' := hash_set_all h
              [(defs.RedisDeviceTokenNameField, name);
               (defs.RedisDeviceTokenPermissionField, mask);
               (defs.RedisDeviceTokenIDField, id);
               (defs.RedisDeviceTokenDeviceIDField, device)] in
  h' !! defs.RedisDeviceTokenPermissionField = Some mask /\
  h' !! defs.RedisDeviceTokenIDField = Some id /\
  h' !! defs.RedisDeviceTokenNameField = Some name /\
  h' !! defs.RedisDeviceTokenDeviceIDField = Some device.
Proof.
  unfold hash_set_all. simpl.
  repeat split;
    repeat (first [ rewrite lookup_insert_eq; reflexivity
                  | rewrite lookup_insert_ne by discriminate ]).
Qed.

(** What a successful [CreateToken] returns and leaves in the store. *)
Lemma CreateToken_Ok tokenID generated deviceID tokenName permission s d s1 :
  Registry.CreateToken tokenID generated deviceID tokenName permission s = (Ok d, s1) ->
  exists rawToken h,
    generated = Ok rawToken /\
    d = mkTokenDetails tokenID deviceID rawToken tokenName permission /\
    row (kv s1) (Registry.genTokenRegistrationKey rawToken) = Some h /\
    h !! defs.RedisDeviceTokenPermissionField
      = Some (strconv.FormatBinary permission) /\
    h !! defs.RedisDeviceTokenIDField = Some tokenID /\
    h !! defs.RedisDeviceTokenNameField = Some tokenName /\
    h !! defs.RedisDeviceTokenDeviceIDField = Some deviceID.
Proof.
  unfold Registry.CreateToken.
  rewrite bind_Ok. intros (reg & sa & _ & H).
  apply bind_Ok in H as (rawToken & sb & Hgen & H).
  apply lift_inv in Hgen as [Hgen ->].
  apply bind_Ok in H as (r1 & sc & _ & H).
  apply bind_Ok in H as ([] & sd & Hset & H).
  apply ret_inv in H as [[= ->] ->].
  unfold Registry.hmset in Hset.
  apply bind_Ok in Hset as (r2 & se & Hdo & Hret).
  apply ret_inv in Hret as [_ ->].
  apply Do_Ok in Hdo. cbn [exec pair_up option_map] in Hdo.
  pose proof (hash_set_all_token ∅ tokenName (strconv.FormatBinary permission)
                tokenID deviceID) as Hnew.
  exists rawToken.
  destruct (kv sc !! Registry.genTokenRegistrationKey rawToken) as [[h0|l|v]|];
    try discriminate; injection Hdo as _ <-.
  - pose proof (hash_set_all_token h0 tokenName (strconv.FormatBinary permission)
                  tokenID deviceID) as Hupd.
    eexists. split; [congruence|]. split; [reflexivity|].
    split; [unfold row; rewrite lookup_insert_eq; reflexivity|]. exact Hupd.
  - eexists. split; [congruence|]. split; [reflexivity|].
    split; [unfold row; rewrite lookup_insert_eq; reflexivity|]. exact Hnew.
Qed.

Lemma row_lookup m k h : row m k = Some h -> m !! k = Some (VHash h).
Proof.
  unfold row. destruct (m !! k) as [[| |]|]; intros [=]; subst; reflexivity.
Qed.

(** C7.  A token created with a permission mask that fits 32 bits is stored
    with the base-2 text of the mask, and a later [FindToken] of it reads the
    same mask back: every successful lookup on that store returns the
    permission the token was created with, and on a store that answers, with
    id, name and device id non-empty, the lookup does succeed. *)
Theorem CreateToken_FindToken_permission
    tokenID generated deviceID tokenName permission s d s1 :
  (permission < 2 ^ 32)%N ->
  Registry.CreateToken tokenID generated deviceID tokenName permission s = (Ok d, s1) ->
  Permission d = permission /\
  (forall s2 t s3,
     kv s2 = kv s1 ->
     Registry.FindToken (Token d) s2 = (Ok t, s3) ->
     Permission t = permission) /\
  (forall s2,
     kv s2 = kv s1 -> faults s2 = [] ->
     tokenID <> EmptyString -> tokenName <> EmptyString -> deviceID <> EmptyString ->
     Registry.FindToken (Token d) s2
       = (Ok (mkTokenDetails tokenID deviceID EmptyString tokenName permission), s2)).
Proof.
  intros Hp Hcreate.
  apply CreateToken_Ok in Hcreate
    as (rawToken & h & _ & -> & Hrow & Hmask & Hid & Hname & Hdev).
  apply row_lookup in Hrow. cbn [Permission Token].
  split; [reflexivity|]. split.
  - intros s2 t s3 Hkv. unfold Registry.FindToken, Registry.hgetstr.
    rewrite bind_Ok. intros (mask & sa & Hget & H).
    apply bind_Ok in Hget as (r & sb & Hdo & Hstr).
    apply lift_inv in Hstr as [Hstr ->]. apply Do_Ok in Hdo.
    cbn [exec] in Hdo. rewrite Hkv, Hrow, Hmask in Hdo.
    injection Hdo as <- _. injection Hstr as ->.
    apply bind_Ok in H as (n & sc & Hparse & H).
    apply lift_inv in Hparse as [Hparse ->].
    rewrite ParseUint_FormatBinary in Hparse by exact Hp. injection Hparse as ->.
    apply bind_Ok in H as (fields & sd & _ & H).
    apply ret_inv in H as [[= ->] _]. reflexivity.
  - intros [m fs] Hkv Hf Hne1 Hne2 Hne3. simpl in Hkv, Hf. subst m fs.
    change (mkStore (kv s1) []) with (healthy (kv s1)).
    unfold Registry.FindToken, Registry.hgetstr, Registry.hmgetstr, bind.
    rewrite Do_healthy. cbn [exec]. rewrite Hrow, Hmask.
    cbn [fst snd bulk_of lift redis.String].
    rewrite ParseUint_FormatBinary by exact Hp.
    rewrite Do_healthy. cbn [exec map]. rewrite Hrow, Hid, Hname, Hdev.
    cbn [fst snd lift redis.Strings map Registry.check_entries tl at_ nth].
    unfold len.
    destruct tokenID as [|c1 t1]; [contradiction|].
    destruct tokenName as [|c2 t2]; [contradiction|].
    destruct deviceID as [|c3 t3]; [contradiction|].
    reflexivity.
Qed.

Lemma CreateToken_FindToken_permission_witness :
  (5 < 2 ^ 32)%N /\
  fst (Registry.CreateToken "token-id-2" (Ok "aabbccdd"%string) "id-123" "a test token" 5
         (healthy auth_fixture))
    = Ok (mkTokenDetails "token-id-2" "id-123" "aabbccdd" "a test token" 5) /\
  fst (Registry.FindToken "aabbccdd"
         (snd (Registry.CreateToken "token-id-2" (Ok "aabbccdd"%string) "id-123"
                 "a test token" 5 (healthy auth_fixture))))
    = Ok (mkTokenDetails "token-id-2" "id-123" "" "a test token" 5).
Proof.
  assert (Hp : (5 < 2 ^ 32)%N) by reflexivity.
  split; [exact Hp|].
  destruct (Registry.CreateToken "token-id-2" (Ok "aabbccdd"%string) "id-123"
              "a test token" 5 (healthy auth_fixture)) as [r s1] eqn:H.
  pose proof H as H0. vm_compute in H0. injection H0 as Hr Hs. subst r.
  split; [reflexivity|].
  destruct (CreateToken_FindToken_permission _ _ _ _ _ _ _ _ Hp H) as (_ & _ & Hfind).
  cbn [snd]. cbn [Token] in Hfind. rewrite (Hfind s1 eq_refl).
  - reflexivity.
  - rewrite <- Hs. reflexivity.
  - discriminate.
  - discriminate.
  - discriminate.
Defined.

(** ** The token route *)

(** C8.  A request whose permission has none of the viewer, controller and
    admin bits is handled as the same request with the viewer permission,
    and when the handler answers with a created token, that token has
    permission 1 and is stored with the mask text [1]. *)
Theorem Tokens_CreateToken_defaults_to_viewer tokenID generated request token s :
  N.land (routes.tr_Permission request) 7 = 0%N ->
  routes.CreateToken tokenID generated (Some request) token s
    = routes.CreateToken tokenID generated
        (Some (routes.mkTokenRequest (routes.tr_DeviceID request)
                 (routes.tr_Name request) defs.SecurityDeviceTokenPermissionViewer))
        token s /\
  (forall tokens s',
     routes.CreateToken tokenID generated (Some request) token s = (routes.Results tokens, s') ->
     exists t h,
       tokens = [t] /\
       Permission t = 1%N /\
       row (kv s') (Registry.genTokenRegistrationKey (Token t)) = Some h /\
       h !! defs.RedisDeviceTokenPermissionField = Some "1"%string).
Proof.
  intros Hbits.
  assert (Hall : defs.SecurityDeviceTokenPermissionAll = 7%N) by reflexivity.
  unfold routes.CreateToken. cbn [routes.tr_Permission routes.tr_Name routes.tr_DeviceID].
  rewrite Hall, Hbits.
  change (N.land defs.SecurityDeviceTokenPermissionViewer 7 =? 0)%N with false.
  change (0 =? 0)%N with true. cbv iota.
  split; [reflexivity|].
  intros tokens s'.
  destruct (negb (5 <=? len (routes.tr_Name request))%Z); [discriminate|].
  destruct (Registry.FindDevice (routes.tr_DeviceID request) s)
    as [[registration|e] s1]; [|discriminate].
  destruct (String.eqb token EmptyString); [discriminate|].
  destruct (Registry.AuthorizeToken (DeviceID registration) token
              defs.SecurityDeviceTokenPermissionAdmin s1) as [authorized s2].
  destruct (negb authorized); [discriminate|].
  unfold routes.create.
  destruct (Registry.CreateToken tokenID generated (DeviceID registration)
              (routes.tr_Name request) defs.SecurityDeviceTokenPermissionViewer s2)
    as [[d|e] s3] eqn:Hcreate; [|discriminate].
  intros [= <- <-].
  apply CreateToken_Ok in Hcreate
    as (rawToken & h & _ & -> & Hrow & Hmask & _).
  exists (mkTokenDetails tokenID (DeviceID registration) rawToken
            (routes.tr_Name request) defs.SecurityDeviceTokenPermissionViewer), h.
  split; [reflexivity|]. split; [reflexivity|]. split; [exact Hrow | exact Hmask].
Qed.

Lemma Tokens_CreateToken_defaults_to_viewer_witness :
  N.land 8 7 = 0%N /\
  fst (routes.CreateToken "token-id-2" (Ok "aabbccdd"%string)
         (Some (routes.mkTokenRequest "id-123" "a test token" 8))
         "421421421421421421421421" (healthy auth_fixture))
    = routes.Results [mkTokenDetails "token-id-2" "id-123" "aabbccdd" "a test token" 1] /\
  exists h,
    row (kv (snd (routes.CreateToken "token-id-2" (Ok "aabbccdd"%string)
                    (Some (routes.mkTokenRequest "id-123" "a test token" 8))
                    "421421421421421421421421" (healthy auth_fixture))))
        "device-token:aabbccdd" = Some h /\
    h !! defs.RedisDeviceTokenPermissionField = Some "1"%string.
Proof.
  assert (Hbits : N.land 8 7 = 0%N) by reflexivity.
  split; [exact Hbits|].
  destruct (routes.CreateToken "token-id-2" (Ok "aabbccdd"%string)
              (Some (routes.mkTokenRequest "id-123" "a test token" 8))
              "421421421421421421421421" (healthy auth_fixture)) as [r s'] eqn:H.
  pose proof H as H0. vm_compute in H0. injection H0 as Hr _. subst r.
  split; [reflexivity|].
  destruct (proj2 (Tokens_CreateToken_defaults_to_viewer "token-id-2"
                     (Ok "aabbccdd"%string)
                     (routes.mkTokenRequest "id-123" "a test token" 8)
                     "421421421421421421421421" (healthy auth_fixture) Hbits)
                  _ _ H)
    as (t & h & [= <-] & _ & Hrow & Hmask).
  exists h. split; [exact Hrow | exact Hmask].
Defined.

(** ** Device lookup *)

Lemma len_0 (v : string) : (len v =? 0)%Z = true <-> v = EmptyString.
Proof.
  unfold len. rewrite Z.eqb_eq. destruct v; simpl; split; intros H;
    try reflexivity; try discriminate; lia.
Qed.

Lemma check_entries_Ok entries : forall fields,
  Registry.check_entries fields entries = Ok tt ->
  Forall (fun v => v <> EmptyString) entries.
Proof.
  induction entries as [|v rest IH]; intros fields H; [constructor|].
  simpl in H. destruct (len v =? 0)%Z eqn:Hv; [discriminate|].
  constructor; [|exact (IH _ H)].
  intros ->. discriminate.
Qed.

Lemma check_entries_empty (g : string -> string) fields :
  (exists f, f ∈ fields /\ g f = EmptyString) ->
  exists f, Registry.check_entries fields (map g fields)
            = Err (ErrInvalidEntry f EmptyString).
Proof.
  induction fields as [|f0 rest IH]; intros (f & Hin & Hg); [set_solver|].
  simpl. destruct (len (g f0) =? 0)%Z eqn:Hv.
  - apply len_0 in Hv. rewrite Hv. eauto.
  - apply IH. exists f. split; [|exact Hg].
    apply elem_of_cons in Hin as [-> | Hin]; [|exact Hin].
    rewrite Hg in Hv. discriminate.
Qed.

(** A successful [hmgetstr] of three fields read them from a hash row that
    holds all three, none of them empty. *)
Lemma hmgetstr3_Ok key f1 f2 f3 s entries s' :
  Registry.hmgetstr key [f1; f2; f3] s = (Ok entries, s') ->
  exists h a b c,
    entries = [a; b; c] /\ row (kv s) key = Some h /\ kv s' = kv s /\
    h !! f1 = Some a /\ h !! f2 = Some b /\ h !! f3 = Some c /\
    a <> EmptyString /\ b <> EmptyString /\ c <> EmptyString.
Proof.
  unfold Registry.hmgetstr. rewrite bind_Ok. intros (r & s1 & Hdo & H).
  apply bind_Ok in H as (l & s2 & Hl & H). apply lift_inv in Hl as [Hl ->].
  apply bind_Ok in H as ([] & s3 & Hc & H). apply lift_inv in Hc as [Hc ->].
  apply ret_inv in H as [[= ->] ->].
  apply Do_Ok in Hdo. cbn [exec] in Hdo. unfold row.
  destruct (kv s !! key) as [[h| |]|]; try discriminate;
    injection Hdo as <- Hkv; cbn [map redis.Strings] in Hl; injection Hl as ->;
    symmetry in Hc; apply check_entries_Ok in Hc.
  - inversion Hc as [|? ? Ha Hc1]; subst. inversion Hc1 as [|? ? Hb Hc2]; subst.
    inversion Hc2 as [|? ? Hcc _]; subst.
    exists h. destruct (h !! f1) as [a|]; [|contradiction].
    destruct (h !! f2) as [b|]; [|contradiction].
    destruct (h !! f3) as [c|]; [|contradiction].
    exists a, b, c. repeat split; auto.
  - inversion Hc as [|? ? Ha _]. contradiction.
Qed.

(** On a store that answers, [hmgetstr] refuses a row with a field that is
    absent or empty. *)
Lemma hmgetstr_empty_field m key h fields :
  row m key = Some h -> has_empty_field h fields ->
  exists f, Registry.hmgetstr key fields (healthy m)
            = (Err (ErrInvalidEntry f EmptyString), healthy m).
Proof.
  intros Hrow (f & Hin & Hf). apply row_lookup in Hrow.
  destruct (check_entries_empty (fun f => entry_of (h !! f)) fields) as (f' & Hc).
  { exists f. split; [exact Hin|]. destruct Hf as [-> | ->]; reflexivity. }
  exists f'. unfold Registry.hmgetstr, bind. rewrite Do_healthy.
  cbn [exec]. rewrite Hrow. cbn [fst snd lift redis.Strings].
  rewrite map_map. unfold entry_of in Hc. rewrite Hc. reflexivity.
Qed.

Lemma FindDevice_scan_Ok query keys : forall s d s',
  Registry.FindDevice_scan query keys s = (Ok d, s') ->
  exists k h,
    row (kv s) k = Some h /\
    h !! defs.RedisDeviceIDField = Some (DeviceID d) /\
    h !! defs.RedisDeviceNameField = Some (Name d) /\
    h !! defs.RedisDeviceSecretField = Some (SharedSecret d) /\
    DeviceID d <> EmptyString /\ Name d <> EmptyString /\
    SharedSecret d <> EmptyString.
Proof.
  induction keys as [|k rest IH]; intros s d s'; simpl; [discriminate|].
  rewrite bind_Ok. intros (fields & s1 & Hget & H).
  apply hmgetstr3_Ok in Hget
    as (h & a & b & c & -> & Hrow & Hkv & Ha & Hb & Hc & Hna & Hnb & Hnc).
  cbn [at_ nth] in H.
  destruct (String.eqb a query || String.eqb b query).
  - apply ret_inv in H as [[= ->] _]. exists k, h. simpl. repeat split; auto.
  - apply IH in H. rewrite Hkv in H. exact H.
Qed.

(** C9.  Whatever [FindDevice] returns is a stored device row whose id, name
    and shared secret are all non-empty.  A row with an absent or empty
    field is not returned: on a store that answers, the lookup by key (the
    [EXISTS] path) ends with the invalid-entry error, and so does the scan
    of the [KEYS] fallback when it reaches such a row. *)
Theorem FindDevice_fields_nonempty query s :
  (forall d s',
     Registry.FindDevice query s = (Ok d, s') ->
     (DeviceID d <> EmptyString /\ Name d <> EmptyString /\
      SharedSecret d <> EmptyString) /\
     exists k h,
       row (kv s) k = Some h /\
       h !! defs.RedisDeviceIDField = Some (DeviceID d) /\
       h !! defs.RedisDeviceNameField = Some (Name d) /\
       h !! defs.RedisDeviceSecretField = Some (SharedSecret d)) /\
  (forall h,
     faults s = [] ->
     row (kv s) (Registry.genRegistryKey query) = Some h ->
     has_empty_field h [defs.RedisDeviceIDField; defs.RedisDeviceNameField;
                        defs.RedisDeviceSecretField] ->
     exists f, Registry.FindDevice query s
               = (Err (ErrInvalidEntry f EmptyString), s)) /\
  (forall k rest h,
     faults s = [] ->
     row (kv s) k = Some h ->
     has_empty_field h [defs.RedisDeviceNameField; defs.RedisDeviceIDField;
                        defs.RedisDeviceSecretField] ->
     exists f, Registry.FindDevice_scan query (k :: rest) s
               = (Err (ErrInvalidEntry f EmptyString), s)).
Proof.
  split; [|split].
  - intros d s'. unfold Registry.FindDevice, Registry.exists_.
    rewrite bind_Ok. intros (found & s1 & Hex & H).
    assert (Hkv1 : kv s1 = kv s).
    { assert (Hr : reads_only (response <- Do (EXISTS (Registry.genRegistryKey query)) ;;
                               lift (redis.Bool response)))
        by auto 10 with reads.
      specialize (Hr s). rewrite Hex in Hr. exact Hr. }
    destruct found.
    + unfold Registry.loadDetails in H.
      apply bind_Ok in H as (values & s2 & Hget & H).
      apply hmgetstr3_Ok in Hget
        as (h & a & b & c & -> & Hrow & _ & Ha & Hb & Hc & Hna & Hnb & Hnc).
      destruct (Registry.all_filled [a; b; c]); [|discriminate].
      apply ret_inv in H as [[= ->] _]. simpl. rewrite Hkv1 in Hrow.
      split; [auto|]. exists (Registry.genRegistryKey query), h. auto.
    + apply bind_Ok in H as (response & s2 & Hdo & H).
      apply bind_Ok in H as (keys & s3 & Hl & H). apply lift_inv in Hl as [_ ->].
      assert (Hkv2 : kv s2 = kv s1).
      { pose proof (reads_only_Do (KEYS defs.RedisDeviceRegistryKey) eq_refl s1) as Hr.
        rewrite Hdo in Hr. exact Hr. }
      apply FindDevice_scan_Ok in H
        as (k & h & Hrow & Hi & Hn & Hs & Hni & Hnn & Hns).
      rewrite Hkv2, Hkv1 in Hrow. split; [auto|]. exists k, h. auto.
  - intros h Hf Hrow Hempty. destruct s as [m fs]. simpl in Hf, Hrow. subst fs.
    change (mkStore m []) with (healthy m).
    destruct (hmgetstr_empty_field m _ h _ Hrow Hempty) as (f & Hget).
    exists f. unfold Registry.FindDevice, Registry.exists_, Registry.loadDetails, bind.
    rewrite Do_healthy. cbn [exec]. rewrite (row_lookup _ _ _ Hrow).
    cbn [fst snd lift redis.Bool Z.eqb negb]. rewrite Hget. reflexivity.
  - intros k rest h Hf Hrow Hempty. destruct s as [m fs]. simpl in Hf, Hrow. subst fs.
    change (mkStore m []) with (healthy m).
    destruct (hmgetstr_empty_field m _ h _ Hrow Hempty) as (f & Hget).
    exists f. simpl. unfold bind. rewrite Hget. reflexivity.
Qed.

Lemma FindDevice_fields_nonempty_witness :
  Registry.FindDevice "id-123" (healthy auth_fixture)
    = (Ok (mkRegistrationDetails "id-123" "test-device" "421421421421421421421421"),
       healthy auth_fixture) /\
  ("id-123" <> "" /\ "test-device" <> "" /\ "421421421421421421421421" <> "")%string /\
  (exists f, Registry.FindDevice "id-9" (healthy empty_name_fixture)
             = (Err (ErrInvalidEntry f EmptyString), healthy empty_name_fixture)).
Proof.
  assert (H : Registry.FindDevice "id-123" (healthy auth_fixture)
              = (Ok (mkRegistrationDetails "id-123" "test-device"
                       "421421421421421421421421"), healthy auth_fixture))
    by (vm_compute; reflexivity).
  split; [exact H|]. split.
  - exact (proj1 (proj1 (FindDevice_fields_nonempty "id-123" (healthy auth_fixture))
                    _ _ H)).
  - eapply (proj1 (proj2 (FindDevice_fields_nonempty "id-9"
                            (healthy empty_name_fixture)))).
    + reflexivity.
    + vm_compute. reflexivity.
    + exists defs.RedisDeviceNameField. split; [set_solver|]. right.
      vm_compute. reflexivity.
Defined.

(** ** The device control processor *)

Section ProcessorProperties.

Variable MarshalText : FeedbackMessage -> result string.
Variable RedisMaxFeedbackEntries : Z.
Variable UnmarshalDeviceMessage : string -> result DeviceMessage.
Variable UnmarshalFeedbackMessage : string -> result FeedbackMessage.
Variable SendOutcome : bg.Connection -> DeviceMessage -> option error.

Local Abbreviation step := (bg.step MarshalText RedisMaxFeedbackEntries
                    UnmarshalDeviceMessage UnmarshalFeedbackMessage SendOutcome).
Local Abbreviation run := (bg.run MarshalText RedisMaxFeedbackEntries
                   UnmarshalDeviceMessage UnmarshalFeedbackMessage SendOutcome).
Local Abbreviation Start := (bg.Start MarshalText RedisMaxFeedbackEntries
                     UnmarshalDeviceMessage UnmarshalFeedbackMessage SendOutcome).

Lemma run_terminated p inputs :
  bg.state p = bg.Terminated -> run p inputs = (p, []).
Proof.
  intros Hp. induction inputs as [|i rest IH]; [reflexivity|].
  simpl. unfold bg.step. rewrite Hp. rewrite IH. reflexivity.
Qed.

Lemma run_app p a b :
  run p (a ++ b) = (fst (run (fst (run p a)) b), snd (run p a) ++ snd (run (fst (run p a)) b)).
Proof.
  revert p. induction a as [|i a IH]; intros p; simpl.
  - destruct (run p b); reflexivity.
  - destruct (step p i) as [p1 out1]. rewrite IH.
    destruct (run p1 a) as [p2 out2]. simpl.
    destruct (run p2 b) as [p3 out3]. simpl. rewrite app_assoc. reflexivity.
Qed.

Lemma step_terminator p i :
  bg.state p = bg.Running -> terminator i = true -> step p i = bg.drain p.
Proof.
  intros Hp Hi. unfold bg.step. rewrite Hp.
  destruct i; try discriminate; reflexivity.
Qed.

(** An input that is no terminator leaves the processor running and the
    pool at least what it was. *)
Lemma step_keeps_running p i :
  bg.state p = bg.Running -> terminator i = false ->
  bg.state (fst (step p i)) = bg.Running /\
  exists added, bg.pool (fst (step p i)) = bg.pool p ++ added.
Proof.
  intros Hp Hi. unfold bg.step. rewrite Hp.
  assert (Hsame : bg.state p = bg.Running /\ exists added, bg.pool p = bg.pool p ++ added).
  { split; [exact Hp|]. exists []. rewrite app_nil_r. reflexivity. }
  destruct i; try discriminate; simpl.
  - destruct (Registry.FindDevice (bg.GetID conn) (bg.index p)) as [[d|e] s1]; simpl.
    + split; [reflexivity|]. eauto.
    + split; [reflexivity|]. exists []. rewrite app_nil_r. reflexivity.
  - destruct (bg.ReadAll r) as [data|e]; [|exact Hsame].
    destruct (UnmarshalDeviceMessage data) as [msg|e]; [|exact Hsame].
    destruct (bg.lookup_connection (bg.target_of msg) (bg.pool p)) as [conn|];
      [|exact Hsame].
    destruct (SendOutcome conn msg); exact Hsame.
  - destruct (bg.ReadAll r) as [data|e]; [|exact Hsame].
    destruct (UnmarshalFeedbackMessage data) as [msg|e]; [|exact Hsame].
    destruct (Registry.LogFeedback MarshalText RedisMaxFeedbackEntries msg (bg.index p))
      as [[u|e] s1]; simpl; (split; [reflexivity|]); exists []; rewrite app_nil_r;
      reflexivity.
  - exact Hsame.
Qed.

Lemma run_keeps_running inputs : forall p,
  bg.state p = bg.Running -> Forall (fun i => terminator i = false) inputs ->
  bg.state (fst (run p inputs)) = bg.Running /\
  exists added, bg.pool (fst (run p inputs)) = bg.pool p ++ added.
Proof.
  induction inputs as [|i rest IH]; intros p Hp Hall; simpl.
  - split; [exact Hp|]. exists []. rewrite app_nil_r. reflexivity.
  - inversion Hall as [|? ? Hi Hrest]; subst.
    destruct (step_keeps_running p i Hp Hi) as (Hp1 & added1 & Hpool1).
    destruct (step p i) as [p1 out1]. simpl in Hp1, Hpool1.
    destruct (IH p1 Hp1 Hrest) as (Hp2 & added2 & Hpool2).
    destruct (run p1 rest) as [p2 out2]. simpl in *.
    split; [exact Hp2|]. exists (added1 ++ added2).
    rewrite Hpool2, Hpool1, app_assoc. reflexivity.
Qed.

(** After inputs that are no terminators, a terminator drains the pool as
    it then is, and nothing that follows has any effect. *)
Lemma run_until_terminator conns s before t rest :
  Forall (fun i => terminator i = false) before -> terminator t = true ->
  Start conns s (before ++ t :: rest)
  = (bg.mkProcessor bg.Terminated (bg.pool (fst (Start conns s before)))
       (bg.index (fst (Start conns s before))),
     snd (Start conns s before)
       ++ map bg.Close (bg.pool (fst (Start conns s before))) ++ [bg.Done]).
Proof.
  intros Hall Ht. unfold bg.Start. rewrite run_app.
  destruct (run_keeps_running before (bg.mkProcessor bg.Running conns s) eq_refl Hall)
    as (Hrun & _).
  destruct (run (bg.mkProcessor bg.Running conns s) before) as [p1 out1].
  simpl in *. rewrite (step_terminator p1 t Hrun Ht). unfold bg.drain.
  rewrite run_terminated by reflexivity. simpl. rewrite app_nil_r. reflexivity.
Qed.

Lemma closed_in_drain (conns : list bg.Connection) :
  bg.closed_in (map bg.Close conns ++ [bg.Done]) = conns.
Proof.
  unfold bg.closed_in. induction conns as [|c rest IH]; simpl; [reflexivity|].
  f_equal. exact IH.
Qed.

(** C2.  Modelled from the spec.  Start the processor on a pool; let any
    inputs that do not terminate it come first.  When Kill is then
    received, what the processor does from there on is: Close on each
    connection of the pool, in pool order, then the release of the wait
    handle, and nothing more.  The pool at that point begins with the
    initial pool, and when it holds no connection twice, each connection of
    the initial pool is closed exactly once. *)
Theorem Kill_closes_pool_then_completes conns s before rest :
  Forall (fun i => terminator i = false) before ->
  exists p1 out1 added,
    Start conns s before = (p1, out1) /\
    bg.pool p1 = conns ++ added /\
    Start conns s (before ++ bg.Kill :: rest)
      = (bg.mkProcessor bg.Terminated (bg.pool p1) (bg.index p1),
         out1 ++ map bg.Close (bg.pool p1) ++ [bg.Done]) /\
    bg.closed_in (map bg.Close (bg.pool p1) ++ [bg.Done]) = bg.pool p1 /\
    (NoDup (bg.pool p1) ->
     forall c, c ∈ conns ->
       count_occ bg.Connection_eq_dec
         (bg.closed_in (map bg.Close (bg.pool p1) ++ [bg.Done])) c = 1%nat).
Proof.
  intros Hall.
  pose proof (run_until_terminator conns s before bg.Kill rest Hall eq_refl) as Hrun.
  destruct (run_keeps_running before (bg.mkProcessor bg.Running conns s) eq_refl Hall)
    as (_ & added & Hpool).
  fold (Start conns s before) in Hpool.
  destruct (Start conns s before) as [p1 out1]. simpl in *.
  exists p1, out1, added. split; [reflexivity|]. split; [exact Hpool|].
  split; [exact Hrun|]. split; [apply closed_in_drain|].
  intros Hnd c Hc. rewrite closed_in_drain.
  apply NoDup_count_occ' ; [apply NoDup_ListNoDup; exact Hnd|].
  apply list_elem_of_In. rewrite Hpool. set_solver.
Qed.

(** C3.  Modelled from the spec.  The closure of the commands stream or of
    the registrations stream, received where Kill could have been, has the
    effect of Kill: the processor ends in the same state with the same
    effects, namely Close on each pooled connection and then the release of
    the wait handle. *)
Theorem stream_closure_drains_like_Kill conns s before closure rest rest' :
  Forall (fun i => terminator i = false) before ->
  closure = bg.CommandsClosed \/ closure = bg.RegistrationsClosed ->
  Start conns s (before ++ closure :: rest)
    = Start conns s (before ++ bg.Kill :: rest') /\
  Start conns s (before ++ closure :: rest)
    = (bg.mkProcessor bg.Terminated (bg.pool (fst (Start conns s before)))
         (bg.index (fst (Start conns s before))),
       snd (Start conns s before)
         ++ map bg.Close (bg.pool (fst (Start conns s before))) ++ [bg.Done]) /\
  bg.closed_in (map bg.Close (bg.pool (fst (Start conns s before))) ++ [bg.Done])
    = bg.pool (fst (Start conns s before)).
Proof.
  intros Hall Hc.
  assert (Ht : terminator closure = true) by (destruct Hc as [-> | ->]; reflexivity).
  rewrite (run_until_terminator conns s before closure rest Hall Ht).
  rewrite (run_until_terminator conns s before bg.Kill rest' Hall eq_refl).
  split; [reflexivity|]. split; [reflexivity|]. apply closed_in_drain.
Qed.

End ProcessorProperties.

Lemma Kill_closes_pool_then_completes_witness :
  Forall (fun i => terminator i = false) [] /\
  bg.Start marshal_payload 50 unmarshal_none_device unmarshal_none_feedback send_ok
    [connection_A] (healthy ∅) [bg.Kill]
  = (bg.mkProcessor bg.Terminated [connection_A] (healthy ∅),
     [bg.Close connection_A; bg.Done]) /\
  count_occ bg.Connection_eq_dec
    (bg.closed_in [bg.Close connection_A; bg.Done]) connection_A = 1%nat.
Proof.
  assert (Hall : Forall (fun i => terminator i = false) []) by constructor.
  split; [exact Hall|].
  destruct (Kill_closes_pool_then_completes marshal_payload 50 unmarshal_none_device
              unmarshal_none_feedback send_ok [connection_A] (healthy ∅) [] [] Hall)
    as (p1 & out1 & added & Hstart & Hpool & Hrun & _ & Hcount).
  injection Hstart as <- <-. cbn [bg.pool bg.index] in *.
  split; [exact Hrun|].
  apply Hcount; [|set_solver].
  apply NoDup_singleton.
Defined.

Lemma stream_closure_drains_like_Kill_witness :
  Forall (fun i => terminator i = false) [] /\
  (bg.CommandsClosed = bg.CommandsClosed \/ bg.CommandsClosed = bg.RegistrationsClosed) /\
  bg.Start marshal_payload 50 unmarshal_none_device unmarshal_none_feedback send_ok
    [connection_A] (healthy ∅) [bg.CommandsClosed]
  = bg.Start marshal_payload 50 unmarshal_none_device unmarshal_none_feedback send_ok
      [connection_A] (healthy ∅) [bg.Kill] /\
  bg.Start marshal_payload 50 unmarshal_none_device unmarshal_none_feedback send_ok
    [connection_A] (healthy ∅) [bg.CommandsClosed]
  = (bg.mkProcessor bg.Terminated [connection_A] (healthy ∅),
     [bg.Close connection_A; bg.Done]).
Proof.
  assert (Hall : Forall (fun i => terminator i = false) []) by constructor.
  split; [exact Hall|]. split; [left; reflexivity|].
  destruct (stream_closure_drains_like_Kill marshal_payload 50 unmarshal_none_device
              unmarshal_none_feedback send_ok [connection_A] (healthy ∅) []
              bg.CommandsClosed [] [] Hall (or_introl eq_refl))
    as (Hsame & Hdrain & _).
  split; [exact Hsame | exact Hdrain].
Defined.

(** * Further properties of the registry *)

(** ** The list commands *)

Lemma DoL_cases c s :
  (exists msg fs, faults s = Some msg :: fs /\
     DoL c s = (Err (ErrStore msg), mkStore (kv s) fs)) \/
  (exists fs, (faults s = None :: fs \/ (faults s = [] /\ fs = [])) /\
     DoL c s = (fst (exec_list c (kv s)), mkStore (snd (exec_list c (kv s))) fs)).
Proof.
  unfold DoL. destruct (faults s) as [|[msg|] fs] eqn:E.
  - right. exists []. split; [auto|]. destruct (exec_list c (kv s)); reflexivity.
  - left. eauto.
  - right. exists fs. split; [auto|]. destruct (exec_list c (kv s)); reflexivity.
Qed.

Lemma DoL_healthy c m :
  DoL c (healthy m) = (fst (exec_list c m), healthy (snd (exec_list c m))).
Proof. unfold DoL, healthy. simpl. destruct (exec_list c m); reflexivity. Qed.

Lemma DoL_Ok c s r s' :
  DoL c s = (Ok r, s') -> exec_list c (kv s) = (Ok r, kv s').
Proof.
  destruct (DoL_cases c s) as [(msg & fs & _ & ->) | (fs & _ & ->)];
    [discriminate|].
  destruct (exec_list c (kv s)) as [r0 m]. simpl. intros [= -> <-]. reflexivity.
Qed.

Lemma ltrim_range_all (l : list string) : ltrim_range l 0 (-1) = l.
Proof.
  unfold ltrim_range. change (0 <? 0)%Z with false. change (-1 <? 0)%Z with true.
  cbv iota. rewrite Z.min_l by lia.
  destruct l as [|x l]; [reflexivity|].
  replace (Z.of_nat (length (x :: l)) + -1 <? 0)%Z with false
    by (symmetry; apply Z.ltb_ge; simpl length; lia).
  replace (Z.of_nat (length (x :: l)) <=? 0)%Z with false
    by (symmetry; apply Z.leb_gt; simpl length; lia).
  cbn [orb]. change (Z.to_nat 0) with 0%nat. rewrite drop_0.
  apply firstn_all2. simpl length. lia.
Qed.

Lemma ltrim_range_prefix (l : list string) (n : Z) :
  (0 <= n)%Z -> ltrim_range l 0 n = take (Z.to_nat (n + 1)) l.
Proof.
  intros Hn. unfold ltrim_range. change (0 <? 0)%Z with false.
  replace (n <? 0)%Z with false by (symmetry; apply Z.ltb_ge; lia).
  cbv iota.
  destruct (Z.leb_spec (Z.of_nat (length l)) 0) as [Hl|Hl].
  - rewrite orb_true_r. destruct l; [rewrite take_nil; reflexivity|].
    simpl length in Hl. lia.
  - rewrite orb_false_r.
    replace (Z.min n (Z.of_nat (length l) - 1) <? 0)%Z with false
      by (symmetry; apply Z.ltb_ge; lia).
    change (Z.to_nat 0) with 0%nat. rewrite drop_0.
    destruct (Z.le_ge_cases n (Z.of_nat (length l) - 1)) as [H|H].
    + rewrite Z.min_l by lia. f_equal. lia.
    + rewrite Z.min_r by lia.
      rewrite !take_ge by lia. reflexivity.
Qed.

(** What a successful [lrangestr] returns: the stored list cut to the
    range, the store being left as it was. *)
Lemma lrangestr_Ok key start stop s entries s' :
  RegistryExt.lrangestr key start stop s = (Ok entries, s') ->
  entries = ltrim_range (list_at (kv s) key) start stop /\ kv s' = kv s.
Proof.
  unfold RegistryExt.lrangestr.
  destruct (DoL (LRANGE key start stop) s) as [[r|e] s1] eqn:Hdo; [|discriminate].
  apply DoL_Ok in Hdo. cbn [exec_list] in Hdo. unfold list_at.
  destruct (kv s !! key) as [[h|l|v]|]; try discriminate;
    injection Hdo as <- Hkv.
  - rewrite Strings_of_keys. intros [= <- <-]. auto.
  - simpl. intros [= <- <-]. split; [|symmetry; exact Hkv].
    unfold ltrim_range. simpl.
    match goal with |- _ = (if ?b then _ else _) => destruct b end; [reflexivity|].
    rewrite drop_nil, take_nil. reflexivity.
Qed.

Lemma lrangestr_healthy key start stop m l :
  m !! key = Some (VList l) ->
  RegistryExt.lrangestr key start stop (healthy m)
    = (Ok (ltrim_range l start stop), healthy m).
Proof.
  intros Hk. unfold RegistryExt.lrangestr. rewrite DoL_healthy.
  cbn [exec_list]. rewrite Hk. cbn [fst snd]. rewrite Strings_of_keys. reflexivity.
Qed.

Lemma reads_only_lrangestr key start stop :
  reads_only (RegistryExt.lrangestr key start stop).
Proof.
  intros s. unfold RegistryExt.lrangestr.
  destruct (DoL_cases (LRANGE key start stop) s)
    as [(msg & fs & _ & ->) | (fs & _ & ->)]; [reflexivity|].
  cbn [exec_list]. destruct (kv s !! key) as [[h|l|v]|]; simpl; reflexivity.
Qed.

(** ** Stores without faults *)

Lemma quiet_ret {A} (a : A) : quiet (ret a).
Proof. intros m. reflexivity. Qed.

Lemma quiet_throw {A} e : quiet (@throw A e).
Proof. intros m. reflexivity. Qed.

Lemma quiet_lift {A} (r : result A) : quiet (lift r).
Proof. intros m. reflexivity. Qed.

Lemma quiet_bind {A B} (c : M A) (k : A -> M B) :
  quiet c -> (forall a, quiet (k a)) -> quiet (bind c k).
Proof.
  intros Hc Hk m. unfold bind. specialize (Hc m).
  destruct (c (healthy m)) as [[a|e] s1]; simpl in *; subst s1; [apply Hk|reflexivity].
Qed.

Lemma quiet_Do c : read_command c = true -> quiet (Do c).
Proof. intros Hc m. rewrite Do_healthy. simpl. rewrite exec_read by exact Hc. reflexivity. Qed.

#[export] Hint Resolve quiet_ret quiet_throw quiet_lift : reads.
#[export] Hint Extern 1 (quiet (Do _)) => (apply quiet_Do; reflexivity) : reads.
#[export] Hint Extern 2 (quiet (bind _ _)) => (apply quiet_bind; [|intros ?]) : reads.

Lemma quiet_hmgetstr key fields : quiet (Registry.hmgetstr key fields).
Proof. unfold Registry.hmgetstr. auto 10 with reads. Qed.

Lemma quiet_loadDetails key : quiet (Registry.loadDetails key).
Proof.
  unfold Registry.loadDetails. apply quiet_bind; [apply quiet_hmgetstr|].
  intros values. destruct (Registry.all_filled values); auto with reads.
Qed.

Lemma quiet_FindDevice_scan query keys : quiet (Registry.FindDevice_scan query keys).
Proof.
  induction keys as [|k rest IH]; simpl; [auto with reads|].
  apply quiet_bind; [apply quiet_hmgetstr|]. intros fields.
  destruct (_ || _); [auto with reads | exact IH].
Qed.

Lemma quiet_FindDevice query : quiet (Registry.FindDevice query).
Proof.
  unfold Registry.FindDevice, Registry.exists_.
  apply quiet_bind; [auto 10 with reads|].
  intros [|]; [apply quiet_loadDetails|].
  apply quiet_bind; [auto with reads|]. intros response.
  apply quiet_bind; [auto with reads|]. intros keys.
  apply quiet_FindDevice_scan.
Qed.

Lemma quiet_FindToken token : quiet (Registry.FindToken token).
Proof.
  unfold Registry.FindToken, Registry.hgetstr.
  apply quiet_bind; [auto 10 with reads|]. intros mask.
  apply quiet_bind; [auto with reads|]. intros permission.
  apply quiet_bind; [apply quiet_hmgetstr | auto with reads].
Qed.

Lemma quiet_eq {A} (c : St A) m r s' :
  quiet c -> c (healthy m) = (r, s') -> s' = healthy m.
Proof. intros Hq H. specialize (Hq m). rewrite H in Hq. exact Hq. Qed.

(** ** Tokens *)

Lemma parse_loop_bound base maxVal s0 s : forall n r,
  strconv.parse_loop base maxVal s0 n s = Ok r -> (n <= maxVal)%N -> (r <= maxVal)%N.
Proof.
  induction s as [|c rest IH]; intros n r; simpl.
  - intros [= <-] Hn. exact Hn.
  - destruct (strconv.digit_val c) as [d|]; [|discriminate].
    destruct (base <=? d)%N; [discriminate|].
    destruct (_ <=? n)%N; [discriminate|].
    destruct (strconv.maxUint64 <? n * base + d)%N; [discriminate|].
    destruct (maxVal <? n * base + d)%N eqn:Hm; [discriminate|]. simpl.
    intros H _. apply (IH _ _ H). apply N.ltb_ge in Hm. exact Hm.
Qed.

Lemma ParseUint_bound s base bitSize r :
  strconv.ParseUint s base bitSize = Ok r -> (r <= 2 ^ bitSize - 1)%N.
Proof.
  unfold strconv.ParseUint. destruct s as [|c rest]; [discriminate|].
  intros H. apply (parse_loop_bound _ _ _ _ _ _ H). lia.
Qed.

Lemma hgetstr_Ok key field s v s' :
  Registry.hgetstr key field s = (Ok v, s') ->
  kv s' = kv s /\ exists h, row (kv s) key = Some h /\ h !! field = Some v.
Proof.
  unfold Registry.hgetstr. rewrite bind_Ok. intros (r & s1 & Hdo & Hl).
  apply lift_inv in Hl as [Hr ->]. apply Do_Ok in Hdo. cbn [exec] in Hdo.
  unfold row. destruct (kv s !! key) as [[h|l|x]|]; try discriminate;
    injection Hdo as <- Hkv.
  - destruct (h !! field) as [w|] eqn:Hf; [|discriminate]. simpl in Hr.
    injection Hr as ->. split; [congruence|]. eauto.
  - discriminate.
Qed.

(** The permission of a found token is the parse of its stored mask. *)
Lemma FindToken_parse token s t s' :
  Registry.FindToken token s = (Ok t, s') ->
  exists h mask,
    row (kv s) (Registry.genTokenRegistrationKey token) = Some h /\
    h !! defs.RedisDeviceTokenPermissionField = Some mask /\
    strconv.ParseUint mask 2 32 = Ok (Permission t).
Proof.
  unfold Registry.FindToken. rewrite bind_Ok. intros (mask & s1 & Hget & H).
  apply hgetstr_Ok in Hget as (_ & h & Hrow & Hmask).
  apply bind_Ok in H as (p & s2 & Hp & H). apply lift_inv in Hp as [Hp ->].
  apply bind_Ok in H as (r & s3 & _ & H).
  apply ret_inv in H as [[= ->] _]. exists h, mask. auto.
Qed.

(** X1.  What a successful [FindToken] returns is read from the token's
    hash row: id, name and device id are the stored fields, none of them
    empty, the permission is the stored base-2 text parsed and is below
    2^32, and the [Token] field of the result is left empty; the store is
    not written. *)
Theorem FindToken_result token s t s' :
  Registry.FindToken token s = (Ok t, s') ->
  (Permission t < 2 ^ 32)%N /\ Token t = EmptyString /\ kv s' = kv s /\
  exists h mask,
    row (kv s) (Registry.genTokenRegistrationKey token) = Some h /\
    h !! defs.RedisDeviceTokenPermissionField = Some mask /\
    strconv.ParseUint mask 2 32 = Ok (Permission t) /\
    h !! defs.RedisDeviceTokenIDField = Some (TokenID t) /\
    h !! defs.RedisDeviceTokenNameField = Some (tok_Name t) /\
    h !! defs.RedisDeviceTokenDeviceIDField = Some (tok_DeviceID t) /\
    TokenID t <> EmptyString /\ tok_Name t <> EmptyString /\
    tok_DeviceID t <> EmptyString.
Proof.
  unfold Registry.FindToken. rewrite bind_Ok. intros (mask & s1 & Hget & H).
  apply hgetstr_Ok in Hget as (Hkv1 & h & Hrow & Hmask).
  apply bind_Ok in H as (p & s2 & Hp & H). apply lift_inv in Hp as [Hp ->].
  apply bind_Ok in H as (r & s3 & Hr & H).
  apply hmgetstr3_Ok in Hr
    as (h' & a & b & c & -> & Hrow' & Hkv3 & Ha & Hb & Hc & Hna & Hnb & Hnc).
  apply ret_inv in H as [[= ->] ->]. cbn [at_ nth Permission Token TokenID tok_Name
    tok_DeviceID].
  rewrite Hkv1 in Hrow'. rewrite Hrow in Hrow'. injection Hrow' as <-.
  symmetry in Hp. pose proof (ParseUint_bound _ _ _ _ Hp) as Hb32.
  assert ((2 ^ 32 = 4294967296)%N) by reflexivity.
  split; [lia|]. split; [reflexivity|]. split; [congruence|].
  exists h, mask. repeat split; auto.
Qed.

Lemma FindToken_result_witness :
  Registry.FindToken "4242424242" (healthy auth_fixture)
    = (Ok (mkTokenDetails "token-id-1" "id-123" "" "testing" 4), healthy auth_fixture) /\
  (4 < 2 ^ 32)%N.
Proof.
  assert (H : Registry.FindToken "4242424242" (healthy auth_fixture)
              = (Ok (mkTokenDetails "token-id-1" "id-123" "" "testing" 4),
                 healthy auth_fixture)) by (vm_compute; reflexivity).
  split; [exact H|]. exact (proj1 (FindToken_result _ _ _ _ H)).
Defined.

(** Past the first digit that takes the value above the maximum, the digit
    loop of [ParseUint] fails with the range error. *)
Lemma parse_loop_pos_bits_range p : forall acc n s0,
  (n <= 2 ^ 32 - 1)%N -> (2 ^ 32 - 1 < app_bits n p)%N ->
  strconv.parse_loop 2 (2 ^ 32 - 1) s0 n (strconv.pos_bits p acc) = Err (ErrRange s0).
Proof.
  assert (Hmax : (2 ^ 32 - 1 = 4294967295)%N) by reflexivity.
  assert (Hcut : (strconv.maxUint64 / 2 + 1 = 9223372036854775808)%N) by reflexivity.
  assert (H64 : (strconv.maxUint64 = 18446744073709551615)%N) by reflexivity.
  assert (Hstep : forall (b : bool) s0 n rest,
            (n <= 2 ^ 32 - 1)%N -> (2 ^ 32 - 1 < 2 * n + (if b then 1 else 0))%N ->
            strconv.parse_loop 2 (2 ^ 32 - 1) s0 n
              (String (if b then "1" else "0")%char rest) = Err (ErrRange s0)).
  { intros b s0 n rest Hn Hover. rewrite Hmax in *. cbn [strconv.parse_loop].
    replace (strconv.digit_val (if b then "1" else "0")%char)
      with (Some (if b then 1 else 0)%N) by (destruct b; reflexivity).
    replace (2 <=? (if b then 1 else 0))%N with false by (destruct b; reflexivity).
    rewrite Hcut, H64.
    replace (9223372036854775808 <=? n)%N with false
      by (symmetry; apply N.leb_gt; lia).
    replace (4294967295 <? n * 2 + (if b then 1 else 0))%N with true
      by (symmetry; apply N.ltb_lt; lia).
    rewrite orb_true_r. reflexivity. }
  induction p as [p IH|p IH|]; intros acc n s0 Hn Hover;
    cbn [strconv.pos_bits app_bits] in *.
  - destruct (N.le_gt_cases (app_bits n p) (2 ^ 32 - 1)) as [Hle|Hgt].
    + rewrite parse_loop_pos_bits by exact Hle.
      apply (Hstep true); [exact Hle | exact Hover].
    + apply IH; [exact Hn | exact Hgt].
  - destruct (N.le_gt_cases (app_bits n p) (2 ^ 32 - 1)) as [Hle|Hgt].
    + rewrite parse_loop_pos_bits by exact Hle.
      apply (Hstep false); [exact Hle | rewrite N.add_0_r; exact Hover].
    + apply IH; [exact Hn | exact Hgt].
  - apply (Hstep true); [exact Hn | exact Hover].
Qed.

Lemma ParseUint_FormatBinary_range (p : N) :
  (2 ^ 32 <= p)%N ->
  strconv.ParseUint (strconv.FormatBinary p) 2 32
    = Err (ErrRange (strconv.FormatBinary p)).
Proof.
  intros Hp. destruct p as [|q].
  - assert ((2 ^ 32 = 4294967296)%N) by reflexivity. lia.
  - unfold strconv.FormatBinary.
    assert (Hne : forall s, s <> EmptyString ->
              strconv.ParseUint s 2 32 = strconv.parse_loop 2 (2 ^ 32 - 1) s 0 s)
      by (intros [|c rest] Hs; [contradiction | reflexivity]).
    rewrite Hne.
    + apply parse_loop_pos_bits_range.
      * assert ((2 ^ 32 - 1 = 4294967295)%N) by reflexivity. lia.
      * rewrite app_bits_0. assert ((2 ^ 32 - 1 = 4294967295)%N) by reflexivity.
        assert ((2 ^ 32 = 4294967296)%N) by reflexivity. lia.
    + destruct (pos_bits_nonempty q EmptyString) as (c & rest & ->). discriminate.
Qed.

(** X2.  [CreateToken] stores any mask, but [FindToken] parses it with a
    bit size of 32: a token created with a permission of 2^32 or more is
    never found again.  No lookup of it succeeds, and on a store that
    answers the lookup fails with the range error of [ParseUint]. *)
Theorem CreateToken_wide_mask_never_found
    tokenID generated deviceID tokenName permission s d s1 :
  (2 ^ 32 <= permission)%N ->
  Registry.CreateToken tokenID generated deviceID tokenName permission s = (Ok d, s1) ->
  (forall s2 t s3,
     kv s2 = kv s1 -> Registry.FindToken (Token d) s2 <> (Ok t, s3)) /\
  (forall s2,
     kv s2 = kv s1 -> faults s2 = [] ->
     Registry.FindToken (Token d) s2
       = (Err (ErrRange (strconv.FormatBinary permission)), s2)).
Proof.
  intros Hp Hcreate.
  apply CreateToken_Ok in Hcreate
    as (rawToken & h & _ & -> & Hrow & Hmask & _). cbn [Token].
  split.
  - intros s2 t s3 Hkv Hfind. apply FindToken_parse in Hfind
      as (h' & mask & Hrow' & Hmask' & Hparse).
    rewrite Hkv, Hrow in Hrow'. injection Hrow' as <-.
    rewrite Hmask in Hmask'. injection Hmask' as <-.
    rewrite ParseUint_FormatBinary_range in Hparse by exact Hp. discriminate.
  - intros [m fs] Hkv Hf. simpl in Hkv, Hf. subst m fs.
    change (mkStore (kv s1) []) with (healthy (kv s1)).
    apply row_lookup in Hrow.
    unfold Registry.FindToken, Registry.hgetstr, bind.
    rewrite Do_healthy. cbn [exec]. rewrite Hrow, Hmask.
    cbn [fst snd bulk_of lift redis.String].
    rewrite ParseUint_FormatBinary_range by exact Hp. reflexivity.
Qed.

Lemma CreateToken_wide_mask_never_found_witness :
  (2 ^ 32 <= 4294967296)%N /\
  fst (Registry.CreateToken "token-id-2" (Ok "aabbccdd"%string) "id-123" "a test token"
         4294967296 (healthy auth_fixture))
    = Ok (mkTokenDetails "token-id-2" "id-123" "aabbccdd" "a test token" 4294967296) /\
  fst (Registry.FindToken "aabbccdd"
         (snd (Registry.CreateToken "token-id-2" (Ok "aabbccdd"%string) "id-123"
                 "a test token" 4294967296 (healthy auth_fixture))))
    = Err (ErrRange "100000000000000000000000000000000").
Proof.
  assert (Hp : (2 ^ 32 <= 4294967296)%N) by (vm_compute; discriminate).
  split; [exact Hp|].
  destruct (Registry.CreateToken "token-id-2" (Ok "aabbccdd"%string) "id-123"
              "a test token" 4294967296 (healthy auth_fixture)) as [r s1] eqn:H.
  pose proof H as H0. vm_compute in H0. injection H0 as Hr Hs. subst r.
  split; [reflexivity|].
  destruct (CreateToken_wide_mask_never_found _ _ _ _ _ _ _ _ Hp H) as (_ & Hfind).
  cbn [snd]. cbn [Token] in Hfind. rewrite (Hfind s1 eq_refl).
  - reflexivity.
  - rewrite <- Hs. reflexivity.
Defined.

(** On a store that answers, [FindToken] is decided by the token's row. *)
Lemma FindToken_healthy m token h mask p a b c :
  row m (Registry.genTokenRegistrationKey token) = Some h ->
  h !! defs.RedisDeviceTokenPermissionField = Some mask ->
  strconv.ParseUint mask 2 32 = Ok p ->
  h !! defs.RedisDeviceTokenIDField = Some a ->
  h !! defs.RedisDeviceTokenNameField = Some b ->
  h !! defs.RedisDeviceTokenDeviceIDField = Some c ->
  a <> EmptyString -> b <> EmptyString -> c <> EmptyString ->
  Registry.FindToken token (healthy m)
    = (Ok (mkTokenDetails a c EmptyString b p), healthy m).
Proof.
  intros Hrow Hmask Hp Ha Hb Hc Hna Hnb Hnc. apply row_lookup in Hrow.
  unfold Registry.FindToken, Registry.hgetstr, Registry.hmgetstr, bind.
  rewrite Do_healthy. cbn [exec]. rewrite Hrow, Hmask.
  cbn [fst snd bulk_of lift redis.String]. rewrite Hp.
  rewrite Do_healthy. cbn [exec map]. rewrite Hrow, Ha, Hb, Hc.
  cbn [fst snd lift redis.Strings map Registry.check_entries tl at_ nth].
  unfold len.
  destruct a as [|c1 t1]; [contradiction|].
  destruct b as [|c2 t2]; [contradiction|].
  destruct c as [|c3 t3]; [contradiction|].
  reflexivity.
Qed.

(** X3.  The pooled [AuthorizeToken] is monotone in the requested mask: a
    token that is authorised for a mask is authorised, on the same store,
    for every mask made of some of its bits - the empty mask included. *)
Theorem AuthorizeToken_submask deviceID token m m' s :
  fst (Registry.AuthorizeToken deviceID token m s) = true ->
  N.land m m' = m' ->
  fst (Registry.AuthorizeToken deviceID token m' s) = true.
Proof.
  rewrite !Registry_AuthorizeToken_iff.
  intros (reg & s1 & Hd & H) Hsub. exists reg, s1. split; [exact Hd|].
  destruct H as [Heq | (tok & s2 & Ht & Hl)]; [left; exact Heq|].
  right. exists tok, s2. split; [exact Ht|].
  rewrite <- Hsub, N.land_assoc, Hl. reflexivity.
Qed.

Lemma AuthorizeToken_submask_witness :
  fst (Registry.AuthorizeToken "id-123" "4242424242" 4 (healthy auth_fixture)) = true /\
  N.land 4 0 = 0%N /\
  fst (Registry.AuthorizeToken "id-123" "4242424242" 0 (healthy auth_fixture)) = true.
Proof.
  assert (H : fst (Registry.AuthorizeToken "id-123" "4242424242" 4
                     (healthy auth_fixture)) = true) by (vm_compute; reflexivity).
  split; [exact H|]. split; [reflexivity|].
  exact (AuthorizeToken_submask _ _ 4%N 0%N _ H eq_refl).
Defined.

Lemma reads_only_AuthorizeToken deviceID token permission :
  reads_only (Registry.AuthorizeToken deviceID token permission).
Proof.
  intros s. unfold Registry.AuthorizeToken.
  pose proof (reads_only_FindDevice deviceID s) as Hd.
  destruct (Registry.FindDevice deviceID s) as [[reg|e] s1]; simpl in *; [|exact Hd].
  destruct (String.eqb token (SharedSecret reg)); simpl; [exact Hd|].
  pose proof (reads_only_FindToken token s1) as Ht.
  destruct (Registry.FindToken token s1) as [[tok|e] s2]; simpl in *; congruence.
Qed.

Lemma reads_only_ListTokens_loop entries :
  reads_only (RegistryExt.ListTokens_loop entries).
Proof.
  induction entries as [|t rest IH]; intros s; simpl; [reflexivity|].
  match goal with |- context [Registry.hmgetstr ?k ?f s] =>
    pose proof (reads_only_hmgetstr k f s) as Hh;
    destruct (Registry.hmgetstr k f s) as [[details|e] s1] end; simpl in Hh.
  - destruct (strconv.ParseUint _ 2 32).
    + specialize (IH s1). destruct (RegistryExt.ListTokens_loop rest s1) as [res s2].
      simpl in *. congruence.
    + rewrite IH. exact Hh.
  - rewrite IH. exact Hh.
Qed.

Lemma reads_only_ListTokens query : reads_only (RegistryExt.ListTokens query).
Proof.
  unfold RegistryExt.ListTokens.
  apply reads_only_bind; [apply reads_only_FindDevice|]. intros dev.
  apply reads_only_bind; [apply reads_only_lrangestr|]. intros entries s.
  pose proof (reads_only_ListTokens_loop entries s) as H.
  destruct (RegistryExt.ListTokens_loop entries s). exact H.
Qed.

Lemma reads_only_ListRegistrations_loop ids :
  reads_only (RegistryExt.ListRegistrations_loop ids).
Proof.
  induction ids as [|k rest IH]; simpl; [auto with reads|].
  apply reads_only_bind; [apply reads_only_loadDetails|]. intros d.
  apply reads_only_bind; [exact IH | auto with reads].
Qed.

Lemma reads_only_ListRegistrations : reads_only RegistryExt.ListRegistrations.
Proof.
  unfold RegistryExt.ListRegistrations.
  apply reads_only_bind; [apply reads_only_lrangestr|].
  intros ids. apply reads_only_ListRegistrations_loop.
Qed.

Lemma reads_only_ListFeedback UnmarshalText id count :
  reads_only (RegistryExt.ListFeedback UnmarshalText id count).
Proof.
  intros s. unfold RegistryExt.ListFeedback.
  pose proof (reads_only_FindDevice id s) as Hd.
  destruct (Registry.FindDevice id s) as [[dev|e] s1]; simpl in *; [|exact Hd].
  match goal with |- context [RegistryExt.lrangestr ?k ?a ?b s1] =>
    pose proof (reads_only_lrangestr k a b s1) as Hl;
    destruct (RegistryExt.lrangestr k a b s1) as [[entries|e] s2] end;
    simpl in *; [|congruence].
  destruct (negb _); simpl; [congruence|].
  destruct (RegistryExt.unmarshal_entries UnmarshalText entries); simpl; congruence.
Qed.

(** X4.  The lookups and listings of the registry never write: whatever the
    store holds and whatever the connection does, the key space after
    [FindDevice], [FindToken], [AuthorizeToken], [ListTokens],
    [ListRegistrations] and [ListFeedback] is the key space before. *)
Theorem registry_reads_never_write UnmarshalText (a b : string) (mask : N) (count : Z) s :
  kv (snd (Registry.FindDevice a s)) = kv s /\
  kv (snd (Registry.FindToken a s)) = kv s /\
  kv (snd (Registry.AuthorizeToken a b mask s)) = kv s /\
  kv (snd (RegistryExt.ListTokens a s)) = kv s /\
  kv (snd (RegistryExt.ListRegistrations s)) = kv s /\
  kv (snd (RegistryExt.ListFeedback UnmarshalText a count s)) = kv s.
Proof.
  split; [apply reads_only_FindDevice|].
  split; [apply reads_only_FindToken|].
  split; [apply reads_only_AuthorizeToken|].
  split; [apply reads_only_ListTokens|].
  split; [apply reads_only_ListRegistrations | apply reads_only_ListFeedback].
Qed.

(** On a store that answers, with the device found and the token not its
    secret, [AuthorizeToken] is decided by [FindToken] alone. *)
Lemma AuthorizeToken_healthy m deviceID token permission reg s1 :
  Registry.FindDevice deviceID (healthy m) = (Ok reg, s1) ->
  token <> SharedSecret reg ->
  fst (Registry.AuthorizeToken deviceID token permission (healthy m))
  = match fst (Registry.FindToken token (healthy m)) with
    | Ok requester => N.eqb (N.land (Permission requester) permission) permission
    | Err _ => false
    end.
Proof.
  intros Hd Hne. unfold Registry.AuthorizeToken.
  pose proof (quiet_eq _ _ _ _ (quiet_FindDevice deviceID) Hd) as ->.
  rewrite Hd. apply String.eqb_neq in Hne. rewrite Hne.
  destruct (Registry.FindToken token (healthy m)) as [[tok|e] s2]; reflexivity.
Qed.

(** X5.  [AuthorizeToken] never looks at the device a token was issued for.
    On a store that answers, a token that is not the shared secret of either
    device gets the same answer for any two devices that are found. *)
Theorem AuthorizeToken_ignores_token_device m d1 d2 token permission reg1 reg2 s1 s2 :
  Registry.FindDevice d1 (healthy m) = (Ok reg1, s1) ->
  Registry.FindDevice d2 (healthy m) = (Ok reg2, s2) ->
  token <> SharedSecret reg1 -> token <> SharedSecret reg2 ->
  fst (Registry.AuthorizeToken d1 token permission (healthy m))
  = fst (Registry.AuthorizeToken d2 token permission (healthy m)).
Proof.
  intros H1 H2 Hn1 Hn2.
  rewrite (AuthorizeToken_healthy _ _ _ _ _ _ H1 Hn1).
  rewrite (AuthorizeToken_healthy _ _ _ _ _ _ H2 Hn2). reflexivity.
Qed.

Lemma AuthorizeToken_ignores_token_device_witness :
  fst (Registry.FindDevice "id-123" (healthy two_devices_fixture))
    = Ok (mkRegistrationDetails "id-123" "test-device" "421421421421421421421421") /\
  fst (Registry.FindDevice "id-456" (healthy two_devices_fixture))
    = Ok (mkRegistrationDetails "id-456" "other-device" "another-shared-secret") /\
  fst (Registry.FindToken "4242424242" (healthy two_devices_fixture))
    = Ok (mkTokenDetails "token-id-1" "id-123" "" "testing" 4) /\
  fst (Registry.AuthorizeToken "id-456" "4242424242" 4 (healthy two_devices_fixture))
    = true.
Proof.
  destruct (Registry.FindDevice "id-123" (healthy two_devices_fixture))
    as [r1 s1] eqn:H1.
  destruct (Registry.FindDevice "id-456" (healthy two_devices_fixture))
    as [r2 s2] eqn:H2.
  pose proof H1 as E1. vm_compute in E1. injection E1 as E1 _. subst r1.
  pose proof H2 as E2. vm_compute in E2. injection E2 as E2 _. subst r2.
  split; [reflexivity|]. split; [reflexivity|].
  split; [vm_compute; reflexivity|].
  rewrite <- (AuthorizeToken_ignores_token_device two_devices_fixture
                "id-123" "id-456" "4242424242" 4 _ _ _ _ H1 H2).
  - vm_compute. reflexivity.
  - discriminate.
  - discriminate.
Defined.

(** X6.  A token created with a permission below 2^32 and non-empty id,
    name and device id authorises, on the store the creation left and with
    the store answering, exactly the masks all of whose bits it holds - for
    any device that is found and whose shared secret is not the token. *)
Theorem CreateToken_then_AuthorizeToken
    tokenID generated deviceID tokenName permission s d s1 query reg s2 mask :
  (permission < 2 ^ 32)%N ->
  tokenID <> EmptyString -> tokenName <> EmptyString -> deviceID <> EmptyString ->
  Registry.CreateToken tokenID generated deviceID tokenName permission s = (Ok d, s1) ->
  Registry.FindDevice query (healthy (kv s1)) = (Ok reg, s2) ->
  Token d <> SharedSecret reg ->
  fst (Registry.AuthorizeToken query (Token d) mask (healthy (kv s1)))
  = N.eqb (N.land permission mask) mask.
Proof.
  intros Hp Hn1 Hn2 Hn3 Hcreate Hfind Hne.
  apply CreateToken_Ok in Hcreate
    as (rawToken & h & _ & -> & Hrow & Hmask & Hid & Hname & Hdev).
  cbn [Token] in *.
  rewrite (AuthorizeToken_healthy _ _ _ _ _ _ Hfind Hne).
  rewrite (FindToken_healthy _ _ _ _ _ _ _ _ Hrow Hmask
             (ParseUint_FormatBinary _ Hp) Hid Hname Hdev Hn1 Hn2 Hn3).
  reflexivity.
Qed.

Lemma CreateToken_then_AuthorizeToken_witness :
  (5 < 2 ^ 32)%N /\
  fst (Registry.CreateToken "token-id-2" (Ok "aabbccdd"%string) "id-123" "a test token" 5
         (healthy auth_fixture))
    = Ok (mkTokenDetails "token-id-2" "id-123" "aabbccdd" "a test token" 5) /\
  fst (Registry.AuthorizeToken "id-123" "aabbccdd" 4
         (healthy (kv (snd (Registry.CreateToken "token-id-2" (Ok "aabbccdd"%string)
                              "id-123" "a test token" 5 (healthy auth_fixture))))))
    = true /\
  fst (Registry.AuthorizeToken "id-123" "aabbccdd" 2
         (healthy (kv (snd (Registry.CreateToken "token-id-2" (Ok "aabbccdd"%string)
                              "id-123" "a test token" 5 (healthy auth_fixture))))))
    = false.
Proof.
  assert (Hp : (5 < 2 ^ 32)%N) by reflexivity.
  split; [exact Hp|].
  destruct (Registry.CreateToken "token-id-2" (Ok "aabbccdd"%string) "id-123"
              "a test token" 5 (healthy auth_fixture)) as [r s1] eqn:H.
  pose proof H as H0. vm_compute in H0. injection H0 as Hr Hs. subst r.
  split; [reflexivity|]. cbn [snd].
  destruct (Registry.FindDevice "id-123" (healthy (kv s1))) as [rd sd] eqn:Hd.
  pose proof Hd as Hd0. rewrite <- Hs in Hd0. vm_compute in Hd0.
  injection Hd0 as Hrd _. subst rd.
  assert (Hne : Token (mkTokenDetails "token-id-2" "id-123" "aabbccdd" "a test token" 5)
                <> SharedSecret (mkRegistrationDetails "id-123" "test-device"
                                   "421421421421421421421421")) by discriminate.
  split.
  - pose proof (CreateToken_then_AuthorizeToken "token-id-2" (Ok "aabbccdd"%string)
               "id-123" "a test token" 5 (healthy auth_fixture) _ s1 "id-123" _ sd 4
               Hp ltac:(discriminate) ltac:(discriminate) ltac:(discriminate)
               H Hd Hne) as T.
    cbn [Token] in T. rewrite T. reflexivity.
  - pose proof (CreateToken_then_AuthorizeToken "token-id-2" (Ok "aabbccdd"%string)
               "id-123" "a test token" 5 (healthy auth_fixture) _ s1 "id-123" _ sd 2
               Hp ltac:(discriminate) ltac:(discriminate) ltac:(discriminate)
               H Hd Hne) as T.
    cbn [Token] in T. rewrite T. reflexivity.
Defined.

(** ** Listings *)

Lemma loadDetails_Ok key s d s' :
  Registry.loadDetails key s = (Ok d, s') ->
  kv s' = kv s /\ loaded_row (kv s) key d.
Proof.
  unfold Registry.loadDetails. rewrite bind_Ok. intros (values & s1 & Hget & H).
  apply hmgetstr3_Ok in Hget
    as (h & a & b & c & -> & Hrow & Hkv & Ha & Hb & Hc & _).
  destruct (Registry.all_filled [a; b; c]) eqn:Hall; [|discriminate].
  apply ret_inv in H as [[= ->] ->]. split; [exact Hkv|].
  unfold Registry.all_filled in Hall. simpl in Hall.
  apply andb_true_iff in Hall as [H1 Hall]. apply andb_true_iff in Hall as [H2 Hall].
  apply andb_true_iff in Hall as [H3 _]. rewrite Z.ltb_lt in H1, H2, H3.
  exists h. cbn [at_ nth DeviceID Name SharedSecret]. repeat split; auto.
Qed.

Lemma ListRegistrations_loop_Ok ids : forall s results s',
  RegistryExt.ListRegistrations_loop ids s = (Ok results, s') ->
  Forall2 (fun id d => loaded_row (kv s) (Registry.genRegistryKey id) d) ids results.
Proof.
  induction ids as [|k rest IH]; intros s results s'; simpl.
  - intros H. apply ret_inv in H as [[= ->] _]. constructor.
  - rewrite bind_Ok. intros (d & s1 & Hload & H).
    apply loadDetails_Ok in Hload as [Hkv Hrow].
    apply bind_Ok in H as (res & s2 & Hrest & H).
    apply ret_inv in H as [[= ->] _]. constructor; [exact Hrow|].
    apply IH in Hrest. rewrite Hkv in Hrest. exact Hrest.
Qed.

(** X7.  [ListRegistrations] is all or nothing: when it succeeds, its result
    has exactly one entry for each id on the device index, in index order,
    and each entry is the row stored under that id's key, with id, name and
    secret each longer than one byte.  An id whose row is missing or short
    therefore fails the whole call. *)
Theorem ListRegistrations_all_or_nothing s results s' :
  RegistryExt.ListRegistrations s = (Ok results, s') ->
  Forall2 (fun id d => loaded_row (kv s) (Registry.genRegistryKey id) d)
    (list_at (kv s) defs.RedisDeviceIndexKey) results /\
  length results = length (list_at (kv s) defs.RedisDeviceIndexKey).
Proof.
  unfold RegistryExt.ListRegistrations. rewrite bind_Ok.
  intros (ids & s1 & Hrange & Hloop).
  apply lrangestr_Ok in Hrange as [-> Hkv]. rewrite ltrim_range_all in Hloop.
  apply ListRegistrations_loop_Ok in Hloop. rewrite Hkv in Hloop.
  split; [exact Hloop|]. symmetry. exact (Forall2_length _ _ _ Hloop).
Qed.

Lemma ListRegistrations_all_or_nothing_witness :
  RegistryExt.ListRegistrations (healthy index_fixture)
    = (Ok [mkRegistrationDetails "id-456" "other-device" "another-shared-secret";
           mkRegistrationDetails "id-123" "test-device" "421421421421421421421421"],
       healthy index_fixture) /\
  length [mkRegistrationDetails "id-456" "other-device" "another-shared-secret";
          mkRegistrationDetails "id-123" "test-device" "421421421421421421421421"]
    = length (list_at (kv (healthy index_fixture)) defs.RedisDeviceIndexKey).
Proof.
  assert (H : RegistryExt.ListRegistrations (healthy index_fixture)
              = (Ok [mkRegistrationDetails "id-456" "other-device"
                       "another-shared-secret";
                     mkRegistrationDetails "id-123" "test-device"
                       "421421421421421421421421"],
                 healthy index_fixture)) by (vm_compute; reflexivity).
  split; [exact H|]. exact (proj2 (ListRegistrations_all_or_nothing _ _ _ H)).
Defined.

(** A successful [hmgetstr] read a hash row that holds every field asked,
    none of them empty. *)
Lemma hmgetstr_Ok key fields s entries s' :
  fields <> [] ->
  Registry.hmgetstr key fields s = (Ok entries, s') ->
  kv s' = kv s /\
  exists h, row (kv s) key = Some h /\ Forall2 (fun f v => h !! f = Some v) fields entries.
Proof.
  intros Hne. unfold Registry.hmgetstr. rewrite bind_Ok. intros (r & s1 & Hdo & H).
  apply bind_Ok in H as (l & s2 & Hl & H). apply lift_inv in Hl as [Hl ->].
  apply bind_Ok in H as ([] & s3 & Hc & H). apply lift_inv in Hc as [Hc ->].
  apply ret_inv in H as [[= ->] ->].
  apply Do_Ok in Hdo. cbn [exec] in Hdo. unfold row.
  symmetry in Hc. apply check_entries_Ok in Hc.
  destruct (kv s !! key) as [[h| |]|]; try discriminate;
    injection Hdo as <- Hkv; cbn [redis.Strings] in Hl; injection Hl as ->.
  - split; [congruence|]. exists h. split; [reflexivity|]. clear Hne.
    induction fields as [|f rest IHf]; simpl in *; [constructor|].
    inversion Hc as [|? ? Hf Hrest]. constructor; [|exact (IHf Hrest)].
    destruct (h !! f); [reflexivity | contradiction].
  - destruct fields as [|f rest]; [contradiction|]. simpl in Hc.
    inversion Hc as [|? ? Hf _]. contradiction.
Qed.

Lemma ListTokens_loop_Ok entries : forall s,
  Forall (fun t => exists raw, raw ∈ entries /\ listed_token (kv s) raw t)
    (fst (RegistryExt.ListTokens_loop entries s)) /\
  (length (fst (RegistryExt.ListTokens_loop entries s)) <= length entries)%nat.
Proof.
  induction entries as [|raw rest IH]; intros s; simpl; [split; [constructor|lia]|].
  assert (Hrest : forall s1, kv s1 = kv s ->
            Forall (fun t => exists raw0, raw0 ∈ raw :: rest /\ listed_token (kv s) raw0 t)
              (fst (RegistryExt.ListTokens_loop rest s1)) /\
            (length (fst (RegistryExt.ListTokens_loop rest s1)) <= length rest)%nat).
  { intros s1 Hkv. destruct (IH s1) as [Hall Hlen]. split; [|exact Hlen].
    eapply Forall_impl; [exact Hall|]. intros t (raw0 & Hin & Ht).
    exists raw0. rewrite <- Hkv. split; [apply elem_of_cons; right; exact Hin | exact Ht]. }
  match goal with |- context [Registry.hmgetstr ?k ?f s] =>
    pose proof (reads_only_hmgetstr k f s) as Hkv0;
    destruct (Registry.hmgetstr k f s) as [[details|e] s1] eqn:Hget end;
    simpl in Hkv0.
  - apply hmgetstr_Ok in Hget as (Hkv & h & Hrow & Hfields); [|discriminate].
    inversion Hfields as [|? a ? l1 Ha H1]; subst.
    inversion H1 as [|? b ? l2 Hb H2]; subst.
    inversion H2 as [|? c ? l3 Hc H3]; subst.
    inversion H3 as [|? d ? l4 Hd H4]; subst. inversion H4; subst.
    cbn [at_ nth].
    destruct (Hrest s1 Hkv) as [Hall Hlen].
    destruct (strconv.ParseUint d 2 32) as [p|e] eqn:Hp.
    + destruct (RegistryExt.ListTokens_loop rest s1) as [res s2]. simpl in *.
      split; [|lia]. constructor; [|exact Hall].
      exists raw. split; [apply elem_of_cons; left; reflexivity|].
      exists h, d. simpl. repeat split; auto.
    + split; [exact Hall | lia].
  - destruct (Hrest s1 Hkv0) as [Hall Hlen]. split; [exact Hall | lia].
Qed.

(** X8.  What [ListTokens] returns for a device that is found: at most one
    entry for each raw token on the device's token list, each entry being
    the row of one of those raw tokens, with a permission below 2^32 and
    with the [Token] field empty - the listing never gives a raw token
    back.  List entries without a readable row are left out silently. *)
Theorem ListTokens_result query s results s' :
  RegistryExt.ListTokens query s = (Ok results, s') ->
  exists deviceInfo s1,
    Registry.FindDevice query s = (Ok deviceInfo, s1) /\
    (length results
       <= length (list_at (kv s) (Registry.genTokenListKey (DeviceID deviceInfo))))%nat /\
    Forall (fun t =>
              Token t = EmptyString /\ (Permission t < 2 ^ 32)%N /\
              exists raw,
                raw ∈ list_at (kv s) (Registry.genTokenListKey (DeviceID deviceInfo)) /\
                listed_token (kv s) raw t) results.
Proof.
  unfold RegistryExt.ListTokens. rewrite bind_Ok.
  intros (dev & s1 & Hfind & H). exists dev, s1. split; [exact Hfind|].
  pose proof (reads_only_FindDevice query s) as Hkv1. rewrite Hfind in Hkv1.
  simpl in Hkv1.
  apply bind_Ok in H as (entries & s2 & Hrange & H).
  apply lrangestr_Ok in Hrange as [-> Hkv2]. rewrite ltrim_range_all in H.
  rewrite Hkv1 in H.
  set (stored := list_at (kv s) (Registry.genTokenListKey (DeviceID dev))) in *.
  destruct (ListTokens_loop_Ok stored s2) as [Hall Hlen].
  destruct (RegistryExt.ListTokens_loop stored s2) as [res s3]. simpl in *.
  injection H as <- _. split; [exact Hlen|].
  eapply Forall_impl; [exact Hall|]. intros t (raw & Hin & Ht).
  rewrite Hkv2, Hkv1 in Ht.
  pose proof Ht as (h & mask & _ & _ & _ & _ & _ & Hparse & Htok).
  apply ParseUint_bound in Hparse. assert ((2 ^ 32 = 4294967296)%N) by reflexivity.
  split; [exact Htok|]. split; [lia|]. eauto.
Qed.

Lemma ListTokens_result_witness :
  RegistryExt.ListTokens "id-123" (healthy tokens_fixture)
    = (Ok [mkTokenDetails "token-id-1" "id-123" "" "testing" 4], healthy tokens_fixture) /\
  (length [mkTokenDetails "token-id-1" "id-123" "" "testing" 4]
     <= length (list_at (kv (healthy tokens_fixture)) "device-token-list:id-123"))%nat.
Proof.
  assert (H : RegistryExt.ListTokens "id-123" (healthy tokens_fixture)
              = (Ok [mkTokenDetails "token-id-1" "id-123" "" "testing" 4],
                 healthy tokens_fixture)) by (vm_compute; reflexivity).
  split; [exact H|].
  destruct (ListTokens_result _ _ _ _ H) as (dev & s1 & Hfind & Hlen & _).
  vm_compute in Hfind. injection Hfind as <- _. exact Hlen.
Defined.

Lemma unmarshal_entries_Some UnmarshalText entries : forall results,
  RegistryExt.unmarshal_entries UnmarshalText entries = Some results ->
  Forall2 (fun entry m => UnmarshalText entry = Ok m) entries results.
Proof.
  induction entries as [|e rest IH]; intros results; simpl.
  - intros [= <-]. constructor.
  - destruct (UnmarshalText e) as [m|err] eqn:He; [|discriminate].
    destruct (RegistryExt.unmarshal_entries UnmarshalText rest) as [ms|]; [|discriminate].
    intros [= <-]. constructor; [exact He | apply IH; reflexivity].
Qed.

(** X9.  [ListFeedback id count] asks the store for the range [0..count],
    both ends included: when it returns messages, they are the first
    [count + 1] stored entries of the device (all of them when fewer are
    stored), each unmarshalled, in stored order - one more than [count]. *)
Theorem ListFeedback_count UnmarshalText id count s results s' :
  (0 <= count)%Z ->
  RegistryExt.ListFeedback UnmarshalText id count s = (Listed results, s') ->
  exists details s1,
    Registry.FindDevice id s = (Ok details, s1) /\
    Forall2 (fun entry m => UnmarshalText entry = Ok m)
      (take (Z.to_nat (count + 1))
         (list_at (kv s) (Registry.genFeedbackKey (DeviceID details))))
      results /\
    length results
      = Nat.min (Z.to_nat (count + 1))
          (length (list_at (kv s) (Registry.genFeedbackKey (DeviceID details)))).
Proof.
  intros Hcount. unfold RegistryExt.ListFeedback.
  pose proof (reads_only_FindDevice id s) as Hkv1.
  destruct (Registry.FindDevice id s) as [[details|e] s1]; [|discriminate].
  simpl in Hkv1.
  destruct (RegistryExt.lrangestr (Registry.genFeedbackKey (DeviceID details)) 0 count s1)
    as [[entries|e] s2] eqn:Hrange; [|discriminate].
  apply lrangestr_Ok in Hrange as [-> _].
  rewrite ltrim_range_prefix by exact Hcount. rewrite Hkv1.
  set (shown := take (Z.to_nat (count + 1))
                  (list_at (kv s) (Registry.genFeedbackKey (DeviceID details)))).
  assert (Hlen : forall results,
            Forall2 (fun entry m => UnmarshalText entry = Ok m) shown results ->
            length results
            = Nat.min (Z.to_nat (count + 1))
                (length (list_at (kv s) (Registry.genFeedbackKey (DeviceID details))))).
  { intros res H. rewrite <- (Forall2_length _ _ _ H). subst shown.
    apply length_take. }
  intros H. exists details, s1. split; [reflexivity|].
  assert (HF : Forall2 (fun entry m => UnmarshalText entry = Ok m) shown results).
  { destruct (negb (1 <=? len_list shown)%Z) eqn:Hempty.
    - injection H as <- _. apply negb_true_iff, Z.leb_gt in Hempty.
      unfold len_list in Hempty. destruct shown; [constructor | simpl in Hempty; lia].
    - destruct (RegistryExt.unmarshal_entries UnmarshalText shown) as [res|] eqn:Hu;
        [|discriminate].
      injection H as <- _. apply unmarshal_entries_Some. exact Hu. }
  split; [exact HF | exact (Hlen _ HF)].
Qed.

Lemma ListFeedback_count_witness :
  (0 <= 2)%Z /\
  fst (RegistryExt.ListFeedback unmarshal_payload "12345" 2 (healthy feedback_fixture))
    = Listed [mkFeedbackMessage (Some (mkAuthentication "12345" "")) "old";
              mkFeedbackMessage (Some (mkAuthentication "12345" "")) "old";
              mkFeedbackMessage (Some (mkAuthentication "12345" "")) "old"] /\
  length [mkFeedbackMessage (Some (mkAuthentication "12345" "")) "old";
          mkFeedbackMessage (Some (mkAuthentication "12345" "")) "old";
          mkFeedbackMessage (Some (mkAuthentication "12345" "")) "old"]
    = Nat.min (Z.to_nat (2 + 1))
        (length (list_at (kv (healthy feedback_fixture)) "device-feedback:12345")).
Proof.
  assert (Hc : (0 <= 2)%Z) by lia. split; [exact Hc|].
  destruct (RegistryExt.ListFeedback unmarshal_payload "12345" 2
              (healthy feedback_fixture)) as [r s'] eqn:H.
  pose proof H as H0. vm_compute in H0. injection H0 as Hr _. subst r.
  split; [reflexivity|].
  destruct (ListFeedback_count _ _ _ _ _ _ Hc H) as (details & s1 & Hfind & _ & Hlen).
  vm_compute in Hfind. injection Hfind as <- _. exact Hlen.
Defined.

Lemma check_entries_nonempty entries : forall fields,
  Forall (fun v => v <> EmptyString) entries ->
  Registry.check_entries fields entries = Ok tt.
Proof.
  induction entries as [|v rest IH]; intros fields H; [reflexivity|].
  inversion H as [|? ? Hv Hrest]; subst. simpl.
  destruct (len v =? 0)%Z eqn:E; [apply len_0 in E; contradiction|].
  apply IH. exact Hrest.
Qed.

(** On a store that answers, [hmgetstr] returns the fields of a row that
    holds them all non-empty. *)
Lemma hmgetstr_healthy m key h fields entries :
  row m key = Some h ->
  Forall2 (fun f v => h !! f = Some v /\ v <> EmptyString) fields entries ->
  Registry.hmgetstr key fields (healthy m) = (Ok entries, healthy m).
Proof.
  intros Hrow Hall. apply row_lookup in Hrow.
  unfold Registry.hmgetstr, bind. rewrite Do_healthy. cbn [exec]. rewrite Hrow.
  cbn [fst snd lift redis.Strings]. rewrite map_map.
  assert (Hmap : map (fun f => match h !! f with Some s => s | None => EmptyString end)
                   fields = entries).
  { induction Hall as [|f v fs vs [Hf _] _ IH]; simpl; [reflexivity|].
    rewrite Hf, IH. reflexivity. }
  rewrite Hmap. rewrite check_entries_nonempty; [reflexivity|].
  clear Hmap. induction Hall as [|f v fs vs [_ Hv] _ IH]; constructor; auto.
Qed.

(** What a successful [LogFeedback] leaves at the head of the device's
    feedback list. *)
Lemma LogFeedback_head MarshalText MAX message s s' :
  Registry.LogFeedback MarshalText MAX message s = (Ok tt, s') ->
  exists auth details s1 text tail,
    GetAuthentication message = Some auth /\
    Registry.FindDevice (auth_DeviceID auth) s = (Ok details, s1) /\
    MarshalText message = Ok text /\
    kv s' !! Registry.genFeedbackKey (DeviceID details) = Some (VList (text :: tail)).
Proof.
  unfold Registry.LogFeedback.
  destruct (GetAuthentication message) as [auth|]; [|discriminate].
  rewrite bind_Ok. intros (details & s1 & Hfind & H).
  apply bind_Ok in H as (count & s2 & _ & H).
  apply bind_Ok in H as ([] & s3 & _ & H).
  apply bind_Ok in H as (text & s4 & Htext & H).
  apply lift_inv in Htext as [Htext ->].
  apply bind_Ok in H as (r & s5 & Hpush & H).
  apply ret_inv in H as [_ ->].
  apply Do_Ok in Hpush. simpl in Hpush.
  exists auth, details, s1, text.
  destruct (kv s3 !! Registry.genFeedbackKey (DeviceID details)) as [[h|l|v]|];
    try discriminate; injection Hpush as _ <-.
  - exists l. rewrite lookup_insert_eq. auto.
  - exists []. rewrite lookup_insert_eq. auto.
Qed.

(** X10.  What [LogFeedback] stores, [ListFeedback] gives back.  After a
    successful [LogFeedback] of a message whose text form unmarshals to the
    message, [ListFeedback] with count 0 - on the store left behind, with the
    store answering, for a query that resolves to the same device id -
    returns exactly that message. *)
Theorem LogFeedback_then_ListFeedback
    MarshalText MAX UnmarshalText message s s' auth details s1 id found s2 :
  Registry.LogFeedback MarshalText MAX message s = (Ok tt, s') ->
  (forall text, MarshalText message = Ok text -> UnmarshalText text = Ok message) ->
  GetAuthentication message = Some auth ->
  Registry.FindDevice (auth_DeviceID auth) s = (Ok details, s1) ->
  Registry.FindDevice id (healthy (kv s')) = (Ok found, s2) ->
  DeviceID found = DeviceID details ->
  fst (RegistryExt.ListFeedback UnmarshalText id 0 (healthy (kv s'))) = Listed [message].
Proof.
  intros Hlog Hround Hauth Hdev Hfind Hsame.
  apply LogFeedback_head in Hlog
    as (auth' & details' & s1' & text & tail & Hauth' & Hdev' & Htext & Hhead).
  rewrite Hauth in Hauth'. injection Hauth' as <-.
  rewrite Hdev in Hdev'. injection Hdev' as <- _.
  unfold RegistryExt.ListFeedback.
  pose proof (quiet_eq _ _ _ _ (quiet_FindDevice id) Hfind) as ->.
  rewrite Hfind, Hsame. rewrite (lrangestr_healthy _ _ _ _ _ Hhead).
  rewrite ltrim_range_prefix by lia. change (Z.to_nat (0 + 1)) with 1%nat.
  cbn [take len_list length]. change (negb (1 <=? Z.of_nat 1)%Z) with false.
  cbv iota. cbn [RegistryExt.unmarshal_entries]. rewrite (Hround _ Htext).
  reflexivity.
Qed.

Lemma LogFeedback_then_ListFeedback_witness :
  fst (Registry.LogFeedback marshal_payload 50 feedback_message
         (healthy feedback_fixture)) = Ok tt /\
  fst (RegistryExt.ListFeedback unmarshal_payload "12345" 0
         (healthy (kv (snd (Registry.LogFeedback marshal_payload 50 feedback_message
                              (healthy feedback_fixture))))))
    = Listed [feedback_message].
Proof.
  destruct (Registry.LogFeedback marshal_payload 50 feedback_message
              (healthy feedback_fixture)) as [r s'] eqn:H.
  assert (Hr : r = Ok tt).
  { apply (f_equal fst) in H. vm_compute in H. symmetry. exact H. }
  subst r. split; [reflexivity|]. cbn [snd].
  assert (Hs : kv s' = kv (snd (Registry.LogFeedback marshal_payload 50 feedback_message
                                  (healthy feedback_fixture))))
    by (rewrite H; reflexivity).
  destruct (Registry.FindDevice "12345" (healthy (kv s'))) as [rf s2] eqn:Hf.
  pose proof Hf as Hf0. rewrite Hs in Hf0. vm_compute in Hf0.
  injection Hf0 as Hrf _. subst rf.
  assert (Hd : Registry.FindDevice "12345" (healthy feedback_fixture)
               = (Ok (mkRegistrationDetails "12345" "buffalo-bills" "red-sox"),
                  healthy feedback_fixture)) by (vm_compute; reflexivity).
  refine (LogFeedback_then_ListFeedback marshal_payload 50 unmarshal_payload
            feedback_message (healthy feedback_fixture) s'
            (mkAuthentication "12345" "") _ _ "12345" _ s2 H _ eq_refl Hd Hf eq_refl).
  intros text [= <-]. reflexivity.
Defined.

(** ** Tokens on the device's list *)

Lemma token_key_not_list_key raw id :
  Registry.genTokenRegistrationKey raw <> Registry.genTokenListKey id.
Proof.
  intros H. vm_compute in H. discriminate H.
Qed.

(** The key space a successful [CreateToken] leaves: the raw token pushed
    on the list of the device id it was given, and the token's row. *)
Lemma CreateToken_store tokenID generated deviceID tokenName permission s d s1 :
  Registry.CreateToken tokenID generated deviceID tokenName permission s = (Ok d, s1) ->
  kv s1 !! Registry.genTokenListKey deviceID
    = Some (VList (Token d :: list_at (kv s) (Registry.genTokenListKey deviceID))).
Proof.
  unfold Registry.CreateToken.
  rewrite bind_Ok. intros (reg & sa & Hfind & H).
  pose proof (reads_only_FindDevice deviceID s) as Hkva. rewrite Hfind in Hkva.
  simpl in Hkva.
  apply bind_Ok in H as (rawToken & sb & Hgen & H).
  apply lift_inv in Hgen as [Hgen ->].
  apply bind_Ok in H as (r1 & sc & Hpush & H).
  apply bind_Ok in H as ([] & sd & Hset & H).
  apply ret_inv in H as [[= ->] ->]. cbn [Token].
  apply Do_Ok in Hpush. cbn [exec] in Hpush. rewrite Hkva in Hpush.
  assert (Hlist : kv sc !! Registry.genTokenListKey deviceID
                  = Some (VList (rawToken
                                   :: list_at (kv s) (Registry.genTokenListKey deviceID)))).
  { unfold list_at.
    destruct (kv s !! Registry.genTokenListKey deviceID) as [[h|l|v]|];
      try discriminate; injection Hpush as _ <-; apply lookup_insert_eq. }
  unfold Registry.hmset in Hset.
  apply bind_Ok in Hset as (r2 & se & Hdo & Hret).
  apply ret_inv in Hret as [_ ->].
  apply Do_Ok in Hdo. cbn [exec pair_up option_map] in Hdo.
  destruct (kv sc !! Registry.genTokenRegistrationKey rawToken) as [[h0|l|v]|];
    try discriminate; injection Hdo as _ <-;
    rewrite lookup_insert_ne by apply token_key_not_list_key; exact Hlist.
Qed.

(** X11.  A created token shows up first in the listing.  After a
    successful [CreateToken] (permission below 2^32; id, name and device id
    non-empty), [ListTokens] - on the store left behind, answering, for a
    query that resolves to the device id the token was created under -
    returns a list that starts with the new token's details, without its
    raw token. *)
Theorem CreateToken_then_ListTokens
    tokenID generated deviceID tokenName permission s d s1 query found s2 :
  (permission < 2 ^ 32)%N ->
  tokenID <> EmptyString -> tokenName <> EmptyString -> deviceID <> EmptyString ->
  Registry.CreateToken tokenID generated deviceID tokenName permission s = (Ok d, s1) ->
  Registry.FindDevice query (healthy (kv s1)) = (Ok found, s2) ->
  DeviceID found = deviceID ->
  exists others,
    fst (RegistryExt.ListTokens query (healthy (kv s1)))
      = Ok (mkTokenDetails tokenID deviceID EmptyString tokenName permission :: others).
Proof.
  intros Hp Hn1 Hn2 Hn3 Hcreate Hfind Hsame.
  pose proof (CreateToken_store _ _ _ _ _ _ _ _ Hcreate) as Hlist.
  apply CreateToken_Ok in Hcreate
    as (rawToken & h & _ & -> & Hrow & Hmask & Hid & Hname & Hdev).
  cbn [Token] in Hlist.
  unfold RegistryExt.ListTokens, bind.
  pose proof (quiet_eq _ _ _ _ (quiet_FindDevice query) Hfind) as ->.
  rewrite Hfind, Hsame. rewrite (lrangestr_healthy _ _ _ _ _ Hlist).
  rewrite ltrim_range_all. cbn [RegistryExt.ListTokens_loop].
  rewrite (hmgetstr_healthy (kv s1) _ h _
             [tokenID; tokenName; deviceID; strconv.FormatBinary permission] Hrow).
  - cbn [at_ nth]. rewrite ParseUint_FormatBinary by exact Hp.
    destruct (RegistryExt.ListTokens_loop _ (healthy (kv s1))) as [others s3].
    exists others. reflexivity.
  - repeat constructor; auto.
    destruct permission as [|q]; [discriminate|]. simpl.
    destruct (pos_bits_nonempty q EmptyString) as (c & rest & ->). discriminate.
Qed.

Lemma CreateToken_then_ListTokens_witness :
  (5 < 2 ^ 32)%N /\
  fst (Registry.CreateToken "token-id-2" (Ok "aabbccdd"%string) "id-123" "a test token" 5
         (healthy tokens_fixture))
    = Ok (mkTokenDetails "token-id-2" "id-123" "aabbccdd" "a test token" 5) /\
  fst (RegistryExt.ListTokens "test-device"
         (healthy (kv (snd (Registry.CreateToken "token-id-2" (Ok "aabbccdd"%string)
                              "id-123" "a test token" 5 (healthy tokens_fixture))))))
    = Ok [mkTokenDetails "token-id-2" "id-123" "" "a test token" 5;
          mkTokenDetails "token-id-1" "id-123" "" "testing" 4].
Proof.
  assert (Hp : (5 < 2 ^ 32)%N) by reflexivity.
  split; [exact Hp|].
  destruct (Registry.CreateToken "token-id-2" (Ok "aabbccdd"%string) "id-123"
              "a test token" 5 (healthy tokens_fixture)) as [r s1] eqn:H.
  pose proof H as H0. vm_compute in H0. injection H0 as Hr Hs. subst r.
  split; [reflexivity|]. cbn [snd].
  destruct (Registry.FindDevice "test-device" (healthy (kv s1))) as [rd sd] eqn:Hd.
  pose proof Hd as Hd0. rewrite <- Hs in Hd0. vm_compute in Hd0.
  injection Hd0 as Hrd _. subst rd.
  destruct (CreateToken_then_ListTokens "token-id-2" (Ok "aabbccdd"%string) "id-123"
              "a test token" 5 (healthy tokens_fixture) _ s1 "test-device" _ sd
              Hp ltac:(discriminate) ltac:(discriminate) ltac:(discriminate)
              H Hd eq_refl) as (others & Hlist).
  rewrite <- Hs in Hlist |- *. vm_compute. reflexivity.
Defined.

(** ** Removing a device *)

Lemma Do_faults_nil c s :
  faults s = [] ->
  Do c s = (fst (exec c (kv s)), mkStore (snd (exec c (kv s))) []).
Proof.
  intros Hf. unfold Do. rewrite Hf. destruct (exec c (kv s)); reflexivity.
Qed.

Lemma DoL_faults_nil c s :
  faults s = [] ->
  DoL c s = (fst (exec_list c (kv s)), mkStore (snd (exec_list c (kv s))) []).
Proof.
  intros Hf. unfold DoL. rewrite Hf. destruct (exec_list c (kv s)); reflexivity.
Qed.

Lemma Do_keeps_healthy c s r s' :
  Do c s = (r, s') -> faults s = [] -> faults s' = [].
Proof. intros H Hf. rewrite (Do_faults_nil c s Hf) in H. injection H as _ <-. reflexivity. Qed.

Lemma DoL_keeps_healthy c s r s' :
  DoL c s = (r, s') -> faults s = [] -> faults s' = [].
Proof. intros H Hf. rewrite (DoL_faults_nil c s Hf) in H. injection H as _ <-. reflexivity. Qed.

Lemma del_Ok key s s' :
  Registry.del key s = (Ok tt, s') ->
  kv s' = delete key (kv s) /\ (faults s = [] -> faults s' = []).
Proof.
  unfold Registry.del. rewrite bind_Ok. intros (r & s1 & Hdo & H).
  apply ret_inv in H as [_ ->]. split.
  - apply Do_Ok in Hdo. simpl in Hdo. injection Hdo as _ <-. reflexivity.
  - exact (Do_keeps_healthy _ _ _ _ Hdo).
Qed.

(** A [del] whose outcome is dropped: the key is deleted or, when the
    command is lost, the store is as before. *)
Lemma del_dropped key s :
  (kv (snd (Registry.del key s)) = kv s \/
   kv (snd (Registry.del key s)) = delete key (kv s)) /\
  (faults s = [] ->
   kv (snd (Registry.del key s)) = delete key (kv s) /\
   faults (snd (Registry.del key s)) = []).
Proof.
  unfold Registry.del, bind. split.
  - destruct (Do_cases (DEL key) s) as [(msg & fs & _ & ->) | (fs & _ & ->)];
      simpl; auto.
  - intros Hf. rewrite (Do_faults_nil _ _ Hf). simpl. auto.
Qed.

Lemma RemoveDevice_tokens_kv tokens : forall s k,
  (kv s !! k = None -> kv (RegistryExt.RemoveDevice_tokens tokens s) !! k = None) /\
  ((forall t, t ∈ tokens -> Registry.genTokenRegistrationKey t <> k) ->
   kv (RegistryExt.RemoveDevice_tokens tokens s) !! k = kv s !! k).
Proof.
  induction tokens as [|t rest IH]; intros s k; simpl; [auto|].
  destruct (del_dropped (Registry.genTokenRegistrationKey t) s) as [[Hkv | Hkv] _].
  - split.
    + intros Hk. apply IH. rewrite Hkv. exact Hk.
    + intros Hne. rewrite (proj2 (IH _ k)), Hkv; [reflexivity|].
      intros t' Ht'. apply Hne. apply elem_of_cons. right. exact Ht'.
  - split.
    + intros Hk. apply IH. rewrite Hkv. apply lookup_delete_None. right. exact Hk.
    + intros Hne. rewrite (proj2 (IH _ k)), Hkv.
      * apply lookup_delete_ne. apply Hne. apply elem_of_cons. left. reflexivity.
      * intros t' Ht'. apply Hne. apply elem_of_cons. right. exact Ht'.
Qed.

Lemma RemoveDevice_tokens_healthy tokens : forall s,
  faults s = [] ->
  faults (RegistryExt.RemoveDevice_tokens tokens s) = [] /\
  forall t, t ∈ tokens ->
    kv (RegistryExt.RemoveDevice_tokens tokens s) !! Registry.genTokenRegistrationKey t
      = None.
Proof.
  induction tokens as [|t rest IH]; intros s Hf; simpl.
  - split; [exact Hf|]. intros t Ht. apply elem_of_nil in Ht. contradiction.
  - destruct (del_dropped (Registry.genTokenRegistrationKey t) s) as [_ Hh].
    destruct (Hh Hf) as [Hkv Hf1]. destruct (IH _ Hf1) as [Hf2 Hall].
    split; [exact Hf2|]. intros t' Ht'. apply elem_of_cons in Ht' as [-> | Ht'].
    + apply RemoveDevice_tokens_kv. rewrite Hkv. apply lookup_delete_eq.
    + apply Hall. exact Ht'.
Qed.

Lemma index_key_facts id t :
  defs.RedisDeviceIndexKey <> Registry.genRegistryKey id /\
  defs.RedisDeviceIndexKey <> Registry.genFeedbackKey id /\
  defs.RedisDeviceIndexKey <> Registry.genTokenListKey id /\
  Registry.genTokenRegistrationKey t <> defs.RedisDeviceIndexKey /\
  Registry.genRegistryKey id <> Registry.genTokenListKey id /\
  Registry.genFeedbackKey id <> Registry.genTokenListKey id /\
  Registry.genRegistryKey id <> Registry.genFeedbackKey id.
Proof.
  repeat split; intros H; vm_compute in H; discriminate H.
Qed.

(** X12.  What a successful [RemoveDevice] leaves: no device row, no
    feedback list and no token list under the id, and the device index with
    the first occurrence of the id taken out.  The rows of the tokens that
    were on the list are deleted when the store answers; a [DEL] of a token
    row that fails is passed over without failing the call. *)
Theorem RemoveDevice_result id s s' :
  RegistryExt.RemoveDevice id s = (Ok tt, s') ->
  kv s' !! Registry.genRegistryKey id = None /\
  kv s' !! Registry.genFeedbackKey id = None /\
  kv s' !! Registry.genTokenListKey id = None /\
  list_at (kv s') defs.RedisDeviceIndexKey
    = remove_first 1 id (list_at (kv s) defs.RedisDeviceIndexKey) /\
  (faults s = [] ->
   forall t, t ∈ list_at (kv s) (Registry.genTokenListKey id) ->
     kv s' !! Registry.genTokenRegistrationKey t = None).
Proof.
  unfold RegistryExt.RemoveDevice.
  destruct (index_key_facts id EmptyString)
    as (Hir & Hif & Hil & _ & Hrl & Hfl & Hrf).
  rewrite bind_Ok. intros ([] & s1 & Hd1 & H). apply del_Ok in Hd1 as [Hkv1 Hf1].
  apply bind_Ok in H as ([] & s2 & Hd2 & H). apply del_Ok in Hd2 as [Hkv2 Hf2].
  apply bind_Ok in H as (r & s3 & Hrem & H).
  pose proof (DoL_keeps_healthy _ _ _ _ Hrem) as Hf3.
  apply DoL_Ok in Hrem. cbn [exec_list] in Hrem.
  apply bind_Ok in H as (tokens & s4 & Hrange & H).
  assert (Hf4 : faults s3 = [] -> faults s4 = []).
  { intros Hf. unfold RegistryExt.lrangestr in Hrange.
    destruct (DoL (LRANGE (Registry.genTokenListKey id) 0 (-1)) s3) as [[rr|e] sx] eqn:Hx;
      [|discriminate].
    pose proof (DoL_keeps_healthy _ _ _ _ Hx Hf) as Hfx.
    destruct (redis.Strings rr); [|discriminate]. injection Hrange as _ <-. exact Hfx. }
  apply lrangestr_Ok in Hrange as [-> Hkv4]. rewrite ltrim_range_all in H.
  apply del_Ok in H as [Hkv5 _].
  assert (Hindex2 : kv s2 !! defs.RedisDeviceIndexKey = kv s !! defs.RedisDeviceIndexKey).
  { rewrite Hkv2, Hkv1, !lookup_delete_ne by (intros E; symmetry in E; tauto).
    reflexivity. }
  assert (Hkv3 : (kv s3 = kv s2 /\ list_at (kv s) defs.RedisDeviceIndexKey = []) \/
                 (exists l, kv s !! defs.RedisDeviceIndexKey = Some (VList l) /\
                    ((remove_first 1 id l = [] /\
                      kv s3 = delete defs.RedisDeviceIndexKey (kv s2)) \/
                     (remove_first 1 id l <> [] /\
                      kv s3 = <[defs.RedisDeviceIndexKey := VList (remove_first 1 id l)]>
                                (kv s2))))).
  { rewrite Hindex2 in Hrem. unfold list_at.
    destruct (kv s !! defs.RedisDeviceIndexKey) as [[h|l|v]|]; try discriminate.
    - right. exists l. split; [reflexivity|].
      change (lrem_list l 1 id) with (remove_first 1 id l) in Hrem.
      destruct (remove_first 1 id l) as [|x l'] eqn:El; injection Hrem as _ <-.
      + left. auto.
      + right. split; [discriminate | reflexivity].
    - left. injection Hrem as _ <-. auto. }
  assert (Hother : forall k, k <> defs.RedisDeviceIndexKey ->
                     kv s3 !! k = kv s2 !! k).
  { intros k Hk. destruct Hkv3 as [[-> _] | (l & _ & [[_ ->] | [_ ->]])];
      [reflexivity | apply lookup_delete_ne; congruence
       | apply lookup_insert_ne; congruence]. }
  assert (Hnone : forall k, kv s3 !! k = None -> kv s' !! k = None).
  { intros k Hk. rewrite Hkv5. apply lookup_delete_None. right.
    apply RemoveDevice_tokens_kv. rewrite Hkv4. exact Hk. }
  split.
  { apply Hnone. rewrite Hother by congruence. rewrite Hkv2.
    apply lookup_delete_None. right. rewrite Hkv1. apply lookup_delete_eq. }
  split.
  { apply Hnone. rewrite Hother by congruence. rewrite Hkv2. apply lookup_delete_eq. }
  split.
  { rewrite Hkv5. apply lookup_delete_eq. }
  split.
  { assert (Hi5 : kv s' !! defs.RedisDeviceIndexKey = kv s3 !! defs.RedisDeviceIndexKey).
    { rewrite Hkv5, lookup_delete_ne by congruence.
      rewrite (proj2 (RemoveDevice_tokens_kv _ s4 defs.RedisDeviceIndexKey)).
      - rewrite Hkv4. reflexivity.
      - intros t _. apply (index_key_facts id t). }
    unfold list_at at 1. rewrite Hi5.
    destruct Hkv3 as [[-> Hnil] | (l & Hl & [[Hrm ->] | [Hrm ->]])].
    - rewrite Hindex2. rewrite Hnil. unfold list_at in Hnil.
      destruct (kv s !! defs.RedisDeviceIndexKey) as [[h|l|v]|]; try reflexivity.
      subst l. reflexivity.
    - rewrite lookup_delete_eq. unfold list_at. rewrite Hl, Hrm. reflexivity.
    - rewrite lookup_insert_eq. unfold list_at. rewrite Hl. reflexivity. }
  intros Hf t Ht.
  assert (Hlist : list_at (kv s3) (Registry.genTokenListKey id)
                  = list_at (kv s) (Registry.genTokenListKey id)).
  { unfold list_at. rewrite Hother by congruence.
    rewrite Hkv2, Hkv1, !lookup_delete_ne by congruence. reflexivity. }
  rewrite Hkv5. apply lookup_delete_None. right.
  apply RemoveDevice_tokens_healthy; [auto | rewrite Hlist; exact Ht].
Qed.

Lemma RemoveDevice_result_witness :
  fst (RegistryExt.RemoveDevice "id-123" (healthy removal_fixture)) = Ok tt /\
  kv (snd (RegistryExt.RemoveDevice "id-123" (healthy removal_fixture)))
    !! "device-registry:id-123"%string = None /\
  list_at (kv (snd (RegistryExt.RemoveDevice "id-123" (healthy removal_fixture))))
    "device-index" = ["id-456"%string] /\
  kv (snd (RegistryExt.RemoveDevice "id-123" (healthy removal_fixture)))
    !! "device-token:4242424242"%string = None.
Proof.
  destruct (RegistryExt.RemoveDevice "id-123" (healthy removal_fixture))
    as [r s'] eqn:H.
  assert (Hr : r = Ok tt).
  { apply (f_equal fst) in H. vm_compute in H. symmetry. exact H. }
  subst r. split; [reflexivity|]. cbn [snd].
  destruct (RemoveDevice_result _ _ _ H) as (Hrow & _ & _ & Hindex & Htokens).
  split; [exact Hrow|]. split.
  - change "device-index"%string with defs.RedisDeviceIndexKey.
    rewrite Hindex. vm_compute. reflexivity.
  - apply (Htokens eq_refl "4242424242"%string).
    vm_compute. apply elem_of_cons. left. reflexivity.
Defined.

(** ** Filling a registration: what is written and what is not *)








Lemma AllocateRegistration_Ok allocationID details s s1 :
  Registry.AllocateRegistration allocationID details s = (Ok tt, s1) ->
  (4 <= len (req_Name details))%Z /\ (20 <= len (req_SharedSecret details))%Z /\
  exists h,
    row (kv s1) (Registry.genAllocationKey allocationID) = Some h /\
    h !! defs.RedisRegistrationNameField = Some (req_Name details) /\
    h !! defs.RedisRegistrationSecretField = Some (req_SharedSecret details).
Proof.
  unfold Registry.AllocateRegistration, defs.SecurityMinimumDeviceSharedSecretSize.
  destruct ((len (req_Name details) <? 4)%Z || (len (req_SharedSecret details) <? 20)%Z)
    eqn:Hc; [discriminate|].
  apply orb_false_iff in Hc. rewrite !Z.ltb_ge in Hc. destruct Hc as [Hn Hs].
  unfold Registry.hmset. rewrite bind_Ok. intros (r & s2 & Hdo & H).
  apply ret_inv in H as [_ ->]. apply Do_Ok in Hdo.
  cbn [exec pair_up option_map] in Hdo.
  split; [exact Hn|]. split; [exact Hs|]. unfold row.
  assert (Hset : forall h0,
            hash_set_all h0 [(defs.RedisRegistrationNameField, req_Name details);
                             (defs.RedisRegistrationSecretField, req_SharedSecret details)]
              !! defs.RedisRegistrationNameField = Some (req_Name details) /\
            hash_set_all h0 [(defs.RedisRegistrationNameField, req_Name details);
                             (defs.RedisRegistrationSecretField, req_SharedSecret details)]
              !! defs.RedisRegistrationSecretField = Some (req_SharedSecret details)).
  { intros h0. unfold hash_set_all. simpl. split.
    - rewrite lookup_insert_ne by discriminate. apply lookup_insert_eq.
    - apply lookup_insert_eq. }
  destruct (kv s !! Registry.genAllocationKey allocationID) as [[h0|l|v]|];
    try discriminate; injection Hdo as _ <-; rewrite lookup_insert_eq;
    eexists; (split; [reflexivity | apply Hset]).
Qed.

Lemma row_in_pending m k h :
  row m k = Some h -> String.prefix defs.RedisRegistrationRequestListKey k = true ->
  k ∈ pending_rows m.
Proof.
  intros Hrow Hp. apply row_lookup in Hrow.
  unfold pending_rows, keys_with_prefix. apply list_elem_of_filter.
  split; [exact Hp|]. apply list_elem_of_In.
  apply in_map_iff. exists (k, VHash h). split; [reflexivity|].
  apply list_elem_of_In. apply elem_of_map_to_list. exact Hrow.
Qed.

Lemma quiet_read_secret k : quiet (Registry.read_secret k).
Proof. unfold Registry.read_secret. auto 10 with reads. Qed.

(** On a store that answers, the scan fills the row that holds the secret
    when no other row it meets does. *)
Lemma FillRegistration_scan_finds secret uuid m target h keys :
  row m target = Some h ->
  h !! defs.RedisRegistrationSecretField = Some secret ->
  target ∈ keys ->
  (forall k h', k ∈ keys -> k <> target -> row m k = Some h' ->
     h' !! defs.RedisRegistrationSecretField <> Some secret) ->
  Registry.FillRegistration_scan secret uuid keys (healthy m)
    = Registry.fill target uuid (healthy m).
Proof.
  intros Hrow Hsec. induction keys as [|k rest IH]; intros Hin Hothers.
  - apply elem_of_nil in Hin. contradiction.
  - simpl. destruct (Registry.read_secret k (healthy m)) as [r s1] eqn:Hread.
    pose proof (quiet_eq _ _ _ _ (quiet_read_secret k) Hread) as ->.
    destruct (decide (k = target)) as [->|Hne].
    + destruct (read_secret_cases target (healthy m))
        as [(e & s1 & He & _) | (h' & v & s1 & Hv & _ & Hrow' & Hv')];
        simpl in *.
      * rewrite Hread in He. injection He as -> _.
        exfalso. revert Hread. unfold Registry.read_secret, bind.
        rewrite Do_healthy. cbn [exec]. rewrite (row_lookup _ _ _ Hrow), Hsec.
        discriminate.
      * rewrite Hread in Hv. injection Hv as -> _.
        rewrite Hrow in Hrow'. injection Hrow' as <-. rewrite Hsec in Hv'.
        injection Hv' as <-. rewrite String.eqb_refl. reflexivity.
    + assert (Hrest : Registry.FillRegistration_scan secret uuid rest (healthy m)
                      = Registry.fill target uuid (healthy m)).
      { apply IH.
        - apply elem_of_cons in Hin as [Heq | Hin]; [congruence | exact Hin].
        - intros k' h' Hk'. apply Hothers. apply elem_of_cons. right. exact Hk'. }
      destruct r as [v|e]; [|exact Hrest].
      destruct (read_secret_cases k (healthy m))
        as [(e & s1 & He & _) | (h' & v' & s1 & Hv & _ & Hrow' & Hv')]; simpl in *.
      * rewrite Hread in He. discriminate.
      * rewrite Hread in Hv. injection Hv as <- _.
        destruct (String.eqb_spec v secret) as [->|Hvs]; [|exact Hrest].
        exfalso. apply (Hothers k h'); auto. apply elem_of_cons. left. reflexivity.
Qed.

Lemma len_gt_nonempty v : (1 < len v)%Z -> v <> EmptyString.
Proof. intros H ->. unfold len in H. simpl in H. lia. Qed.

(** On a store that answers, [fill] of a well-formed request row: the id is
    pushed on the index, the device row holds the three fields and the
    request row is gone. *)
Lemma fill_healthy m requestKey deviceID h name secret :
  row m requestKey = Some h ->
  h !! defs.RedisRegistrationSecretField = Some secret ->
  h !! defs.RedisRegistrationNameField = Some name ->
  (1 < len name)%Z -> (1 < len secret)%Z ->
  (m !! defs.RedisDeviceIndexKey = None \/
   exists l, m !! defs.RedisDeviceIndexKey = Some (VList l)) ->
  (m !! Registry.genRegistryKey deviceID = None \/
   exists h', m !! Registry.genRegistryKey deviceID = Some (VHash h')) ->
  requestKey <> defs.RedisDeviceIndexKey ->
  requestKey <> Registry.genRegistryKey deviceID ->
  exists m3 h3,
    Registry.fill requestKey deviceID (healthy m) = (Ok tt, healthy m3) /\
    m3 !! requestKey = None /\
    m3 !! Registry.genRegistryKey deviceID = Some (VHash h3) /\
    h3 !! defs.RedisDeviceIDField = Some deviceID /\
    h3 !! defs.RedisDeviceNameField = Some name /\
    h3 !! defs.RedisDeviceSecretField = Some secret /\
    list_at m3 defs.RedisDeviceIndexKey = deviceID :: list_at m defs.RedisDeviceIndexKey.
Proof.
  intros Hrow Hsec Hname Hln Hls Hindex Hreg Hne1 Hne2.
  assert (Hir : defs.RedisDeviceIndexKey <> Registry.genRegistryKey deviceID)
    by apply (index_key_facts deviceID EmptyString).
  assert (Hset : forall h0,
            let h3 := hash_set_all h0 [(defs.RedisDeviceIDField, deviceID);
                                       (defs.RedisDeviceNameField, name);
                                       (defs.RedisDeviceSecretField, secret)] in
            h3 !! defs.RedisDeviceIDField = Some deviceID /\
            h3 !! defs.RedisDeviceNameField = Some name /\
            h3 !! defs.RedisDeviceSecretField = Some secret).
  { intros h0. unfold hash_set_all. simpl.
    repeat split;
      repeat (first [ rewrite lookup_insert_eq; reflexivity
                    | rewrite lookup_insert_ne by discriminate ]). }
  unfold Registry.fill, Registry.loadRequest, bind.
  rewrite (hmgetstr_healthy m requestKey h _ [secret; name] Hrow)
    by (repeat constructor; auto using len_gt_nonempty).
  unfold Registry.all_filled. cbn [forallb].
  rewrite (proj2 (Z.ltb_lt _ _) Hln), (proj2 (Z.ltb_lt _ _) Hls). cbn [andb ret at_ nth
    req_Name req_SharedSecret].
  rewrite Do_healthy. cbn [exec].
  set (m2 := <[defs.RedisDeviceIndexKey
              := VList (deviceID :: list_at m defs.RedisDeviceIndexKey)]> m).
  assert (Hpush : (match m !! defs.RedisDeviceIndexKey with
                   | Some (VHash _) => (Err (ErrStore wrongtype), m)
                   | Some (VList l) =>
                       (Ok (RInt (Z.of_nat (S (length l)))),
                        <[defs.RedisDeviceIndexKey := VList (deviceID :: l)]> m)
                   | Some (VString _) => (Err (ErrStore wrongtype), m)
                   | None => (Ok (RInt 1),
                              <[defs.RedisDeviceIndexKey := VList [deviceID]]> m)
                   end)
                  = (Ok (RInt (Z.of_nat (S (length (list_at m defs.RedisDeviceIndexKey))))),
                     m2)).
  { subst m2. unfold list_at.
    destruct Hindex as [-> | [l ->]]; reflexivity. }
  rewrite Hpush. cbn [fst snd]. rewrite Do_healthy. cbn [exec pair_up option_map].
  assert (Hreg2 : m2 !! Registry.genRegistryKey deviceID
                  = m !! Registry.genRegistryKey deviceID)
    by (subst m2; apply lookup_insert_ne; exact Hir).
  rewrite Hreg2.
  set (h0 := match m !! Registry.genRegistryKey deviceID with
             | Some (VHash h') => h'
             | _ => ∅
             end).
  set (h3 := hash_set_all h0 [(defs.RedisDeviceIDField, deviceID);
                              (defs.RedisDeviceNameField, name);
                              (defs.RedisDeviceSecretField, secret)]).
  set (m3 := <[Registry.genRegistryKey deviceID := VHash h3]> m2).
  assert (Hhm : (match m !! Registry.genRegistryKey deviceID with
                 | Some (VHash h') =>
                     (Ok (RStatus "OK"),
                      <[Registry.genRegistryKey deviceID :=
                          VHash (hash_set_all h'
                                   [(defs.RedisDeviceIDField, deviceID);
                                    (defs.RedisDeviceNameField, name);
                                    (defs.RedisDeviceSecretField, secret)])]> m2)
                 | Some (VList _) => (Err (ErrStore wrongtype), m2)
                 | Some (VString _) => (Err (ErrStore wrongtype), m2)
                 | None =>
                     (Ok (RStatus "OK"),
                      <[Registry.genRegistryKey deviceID :=
                          VHash (hash_set_all ∅
                                   [(defs.RedisDeviceIDField, deviceID);
                                    (defs.RedisDeviceNameField, name);
                                    (defs.RedisDeviceSecretField, secret)])]> m2)
                 end) = (Ok (RStatus "OK"), m3)).
  { subst m3 h3 h0. destruct Hreg as [-> | [h' ->]]; reflexivity. }
  rewrite Hhm. cbn [fst snd]. rewrite Do_healthy. cbn [exec fst snd].
  exists (delete requestKey m3), h3.
  split; [reflexivity|]. split; [apply lookup_delete_eq|].
  split.
  { rewrite lookup_delete_ne by exact Hne2. subst m3. apply lookup_insert_eq. }
  split; [apply (Hset h0)|]. split; [apply (Hset h0)|]. split; [apply (Hset h0)|].
  unfold list_at at 1. rewrite lookup_delete_ne by exact Hne1.
  subst m3. rewrite lookup_insert_ne by congruence. subst m2.
  rewrite lookup_insert_eq. reflexivity.
Qed.

(** On a store that answers, the lookup of a stored device by its key. *)
Lemma FindDevice_by_key_healthy m query h a b c :
  row m (Registry.genRegistryKey query) = Some h ->
  h !! defs.RedisDeviceIDField = Some a ->
  h !! defs.RedisDeviceNameField = Some b ->
  h !! defs.RedisDeviceSecretField = Some c ->
  a <> EmptyString -> b <> EmptyString -> c <> EmptyString ->
  Registry.FindDevice query (healthy m)
    = (if Registry.all_filled [a; b; c]
       then Ok (mkRegistrationDetails a b c)
       else Err ErrInvalidDevice, healthy m).
Proof.
  intros Hrow Ha Hb Hc Hna Hnb Hnc.
  unfold Registry.FindDevice, Registry.exists_, Registry.loadDetails, bind.
  rewrite Do_healthy. cbn [exec]. rewrite (row_lookup _ _ _ Hrow).
  cbn [fst snd lift redis.Bool Z.eqb negb].
  rewrite (hmgetstr_healthy m _ h _ [a; b; c] Hrow) by (repeat constructor; auto).
  destruct (Registry.all_filled [a; b; c]); reflexivity.
Qed.

(** X14.  Allocation, fill and lookup compose.  After a successful
    [AllocateRegistration], on a store that answers, where no other pending
    row holds the same secret, the index is a list or absent, the device key
    is a hash or absent and the new id is longer than one byte:
    [FillRegistration] with the request's secret succeeds, [FindDevice] of
    the new id then returns the id with the request's name and secret, the
    allocation row is gone and the id heads the device index. *)
Theorem Allocate_Fill_FindDevice allocationID details s s1 uuid :
  Registry.AllocateRegistration allocationID details s = (Ok tt, s1) ->
  (1 < len uuid)%Z ->
  (forall k h, k ∈ pending_rows (kv s1) -> k <> Registry.genAllocationKey allocationID ->
     row (kv s1) k = Some h ->
     h !! defs.RedisRegistrationSecretField <> Some (req_SharedSecret details)) ->
  (kv s1 !! defs.RedisDeviceIndexKey = None \/
   exists l, kv s1 !! defs.RedisDeviceIndexKey = Some (VList l)) ->
  (kv s1 !! Registry.genRegistryKey uuid = None \/
   exists h', kv s1 !! Registry.genRegistryKey uuid = Some (VHash h')) ->
  exists m3,
    Registry.FillRegistration (req_SharedSecret details) uuid (healthy (kv s1))
      = (Ok tt, healthy m3) /\
    Registry.FindDevice uuid (healthy m3)
      = (Ok (mkRegistrationDetails uuid (req_Name details) (req_SharedSecret details)),
         healthy m3) /\
    m3 !! Registry.genAllocationKey allocationID = None /\
    list_at m3 defs.RedisDeviceIndexKey = uuid :: list_at (kv s1) defs.RedisDeviceIndexKey.
Proof.
  intros Halloc Hlu Hothers Hindex Hreg.
  apply AllocateRegistration_Ok in Halloc as (Hln & Hls & h & Hrow & Hname & Hsec).
  assert (Hpre : String.prefix defs.RedisRegistrationRequestListKey
                   (Registry.genAllocationKey allocationID) = true)
    by (vm_compute; reflexivity).
  assert (Hne1 : Registry.genAllocationKey allocationID <> defs.RedisDeviceIndexKey)
    by (intros E; vm_compute in E; discriminate E).
  assert (Hne2 : Registry.genAllocationKey allocationID <> Registry.genRegistryKey uuid)
    by (intros E; vm_compute in E; discriminate E).
  destruct (fill_healthy (kv s1) _ uuid h _ _ Hrow Hsec Hname
              ltac:(lia) ltac:(lia) Hindex Hreg Hne1 Hne2)
    as (m3 & h3 & Hfill & Hgone & Hrow3 & Hid3 & Hname3 & Hsec3 & Hlist).
  exists m3. split.
  - unfold Registry.FillRegistration. rewrite Do_healthy. cbn [exec fst snd].
    rewrite Strings_of_keys.
    rewrite (FillRegistration_scan_finds _ uuid (kv s1)
               (Registry.genAllocationKey allocationID) h _ Hrow Hsec).
    + exact Hfill.
    + exact (row_in_pending _ _ _ Hrow Hpre).
    + intros k h' Hk Hne Hrow'. exact (Hothers k h' Hk Hne Hrow').
  - split; [|split; [exact Hgone | exact Hlist]].
    assert (Hrow3' : row m3 (Registry.genRegistryKey uuid) = Some h3)
      by (unfold row; rewrite Hrow3; reflexivity).
    rewrite (FindDevice_by_key_healthy m3 uuid h3 _ _ _ Hrow3' Hid3 Hname3 Hsec3)
      by (apply len_gt_nonempty; lia).
    unfold Registry.all_filled. cbn [forallb].
    rewrite (proj2 (Z.ltb_lt 1 (len uuid))) by lia.
    rewrite (proj2 (Z.ltb_lt 1 (len (req_Name details)))) by lia.
    rewrite (proj2 (Z.ltb_lt 1 (len (req_SharedSecret details)))) by lia.
    reflexivity.
Qed.

Lemma Allocate_Fill_FindDevice_witness :
  Registry.AllocateRegistration "a1" (mkRegistrationRequest "lamp" "31313131313131313131")
    (healthy ∅)
  = (Ok tt,
     healthy (<[ "registration-request:a1"%string :=
                   VHash (<[ "registration:secret"%string := "31313131313131313131"%string ]>
                         (<[ "registration:name"%string := "lamp"%string ]> ∅)) ]> ∅)) /\
  exists m3,
    Registry.FillRegistration "31313131313131313131" "device-1"
      (healthy (<[ "registration-request:a1"%string :=
                     VHash (<[ "registration:secret"%string
                               := "31313131313131313131"%string ]>
                           (<[ "registration:name"%string := "lamp"%string ]> ∅)) ]> ∅))
      = (Ok tt, healthy m3) /\
    Registry.FindDevice "device-1" (healthy m3)
      = (Ok (mkRegistrationDetails "device-1" "lamp" "31313131313131313131"),
         healthy m3) /\
    m3 !! "registration-request:a1"%string = None.
Proof.
  assert (H : Registry.AllocateRegistration "a1"
                (mkRegistrationRequest "lamp" "31313131313131313131") (healthy ∅)
              = (Ok tt,
                 healthy (<[ "registration-request:a1"%string :=
                               VHash (<[ "registration:secret"%string
                                         := "31313131313131313131"%string ]>
                                     (<[ "registration:name"%string
                                         := "lamp"%string ]> ∅)) ]> ∅)))
    by (vm_compute; reflexivity).
  split; [exact H|].
  destruct (Allocate_Fill_FindDevice "a1"
              (mkRegistrationRequest "lamp" "31313131313131313131") (healthy ∅) _
              "device-1" H) as (m3 & Hfill & Hfind & Hgone & _).
  - vm_compute. reflexivity.
  - intros k h Hk Hne Hrow. exfalso. apply Hne.
    revert Hk. unfold pending_rows.
    match goal with |- _ ∈ ?l -> _ =>
      replace l with ["registration-request:a1"%string] by (vm_compute; reflexivity) end.
    intros Hk. apply elem_of_cons in Hk as [-> | Hk]; [reflexivity|].
    apply elem_of_nil in Hk. contradiction.
  - left. vm_compute. reflexivity.
  - left. vm_compute. reflexivity.
  - exists m3. auto.
Defined.

(** X15.  The two paths of [FindDevice] do not accept the same rows.  On a
    store that answers, for a complete row stored under the key of the
    query: the lookup by key returns the row when id, name and secret are
    each longer than one byte and fails with the invalid-device error when
    one of them has a single byte; the scan of the fallback makes no such
    check and returns the same row when its name or id is the query. *)
Theorem FindDevice_paths_differ m query other rest h a b c :
  row m (Registry.genRegistryKey query) = Some h ->
  h !! defs.RedisDeviceIDField = Some a ->
  h !! defs.RedisDeviceNameField = Some b ->
  h !! defs.RedisDeviceSecretField = Some c ->
  a <> EmptyString -> b <> EmptyString -> c <> EmptyString ->
  Registry.FindDevice query (healthy m)
    = (if (1 <? len a)%Z && (1 <? len b)%Z && (1 <? len c)%Z
       then Ok (mkRegistrationDetails a b c)
       else Err ErrInvalidDevice, healthy m) /\
  (b = other \/ a = other ->
   Registry.FindDevice_scan other (Registry.genRegistryKey query :: rest) (healthy m)
     = (Ok (mkRegistrationDetails a b c), healthy m)).
Proof.
  intros Hrow Ha Hb Hc Hna Hnb Hnc. split.
  - rewrite (FindDevice_by_key_healthy m query h a b c Hrow Ha Hb Hc Hna Hnb Hnc).
    unfold Registry.all_filled. cbn [forallb]. rewrite andb_true_r, andb_assoc.
    reflexivity.
  - intros Hq. cbn [Registry.FindDevice_scan]. unfold bind.
    rewrite (hmgetstr_healthy m _ h _ [b; a; c] Hrow) by (repeat constructor; auto).
    cbn [at_ nth].
    assert (Hm : String.eqb b other || String.eqb a other = true).
    { destruct Hq as [-> | ->]; rewrite String.eqb_refl; [reflexivity|].
      apply orb_true_r. }
    rewrite Hm. reflexivity.
Qed.

Lemma FindDevice_paths_differ_witness :
  Registry.FindDevice "id-7" (healthy short_name_fixture)
    = (Err ErrInvalidDevice, healthy short_name_fixture) /\
  Registry.FindDevice_scan "x" ["device-registry:id-7"%string] (healthy short_name_fixture)
    = (Ok (mkRegistrationDetails "id-7" "x" "a-shared-secret"),
       healthy short_name_fixture) /\
  Registry.FindDevice "x" (healthy short_name_fixture)
    = (Ok (mkRegistrationDetails "id-7" "x" "a-shared-secret"),
       healthy short_name_fixture).
Proof.
  destruct (FindDevice_paths_differ short_name_fixture "id-7" "x" []
              (<[ "device:uuid"%string := "id-7"%string ]>
              (<[ "device:name"%string := "x"%string ]>
              (<[ "device:secret"%string := "a-shared-secret"%string ]> ∅)))
              "id-7" "x" "a-shared-secret") as [Hkey Hscan];
    try (vm_compute; reflexivity); try discriminate.
  split; [exact Hkey|]. split; [apply Hscan; left; reflexivity|].
  vm_compute. reflexivity.
Defined.

(** * Properties of the shorthand colour route *)

Lemma fromHexChar_bound (c : ascii) (v : N) :
  hex.fromHexChar c = Some v -> (v < 16)%N.
Proof.
  unfold hex.fromHexChar. cbv zeta.
  destruct ((48 <=? N_of_ascii c)%N && (N_of_ascii c <=? 57)%N) eqn:D.
  { apply andb_prop in D as [D1 D2]. apply N.leb_le in D1, D2.
    intros [= <-]. lia. }
  destruct ((97 <=? N_of_ascii c)%N && (N_of_ascii c <=? 102)%N) eqn:L.
  { apply andb_prop in L as [L1 L2]. apply N.leb_le in L1, L2.
    intros [= <-]. lia. }
  destruct ((65 <=? N_of_ascii c)%N && (N_of_ascii c <=? 70)%N) eqn:U.
  { apply andb_prop in U as [U1 U2]. apply N.leb_le in U1, U2.
    intros [= <-]. lia. }
  discriminate.
Qed.

Lemma lower_hex_value (c : ascii) :
  devices.is_lower_hex c = true -> exists v, hex.fromHexChar c = Some v.
Proof.
  unfold devices.is_lower_hex, hex.fromHexChar. cbv zeta. intros H.
  destruct ((48 <=? N_of_ascii c)%N && (N_of_ascii c <=? 57)%N); [eauto|].
  destruct ((97 <=? N_of_ascii c)%N && (N_of_ascii c <=? 102)%N); [eauto|].
  discriminate H.
Qed.

Lemma decode_pair_bound (pair : string) (b : N) :
  devices.decode_pair pair = Some b -> (b <= 255)%N.
Proof.
  unfold devices.decode_pair.
  destruct pair as [|c1 [|c2 rest]]; cbn [hex.DecodeString]; try discriminate.
  destruct (hex.fromHexChar c1) as [x|] eqn:X; [|discriminate].
  destruct (hex.fromHexChar c2) as [y|] eqn:Y; [|discriminate].
  destruct (hex.DecodeString rest) as [[|? ?]|]; try discriminate.
  intros [= <-].
  apply fromHexChar_bound in X, Y. lia.
Qed.

Lemma name_not_six (color name : string) :
  String.length color = 6%nat -> String.length name <> 6%nat ->
  String.eqb color name = false.
Proof.
  intros L N. destruct (String.eqb color name) eqn:E; [|reflexivity].
  apply String.eqb_eq in E. subst. contradiction.
Qed.

Lemma six_digits_frame (r1 r2 r3 : N) (color : string) :
  String.length color = 6%nat -> devices.hex_run 6 color = true ->
  exists r g b,
    devices.shorthand_frame r1 r2 r3 color = Some (devices.mkControlFrame r g b) /\
    hex.DecodeString color = Some [r; g; b].
Proof.
  intros L H. unfold devices.shorthand_frame.
  rewrite !(name_not_six color) by (assumption || (vm_compute; discriminate)).
  destruct color as [|c1 [|c2 [|c3 [|c4 [|c5 [|c6 [|? ?]]]]]]]; try discriminate L.
  assert (M : devices.MatchHexColor (String c1 (String c2 (String c3 (String c4
                (String c5 (String c6 EmptyString)))))) = true).
  { cbn [devices.MatchHexColor]. rewrite H. reflexivity. }
  rewrite M. clear M.
  cbn [devices.hex_run] in H.
  repeat match type of H with
         | (_ && _)%bool = true => apply andb_prop in H as [?D H]
         end.
  repeat match goal with
         | D : devices.is_lower_hex _ = true |- _ =>
             apply lower_hex_value in D as [?v D]
         end.
  unfold devices.decode_pair. cbn [String.substring hex.DecodeString].
  repeat match goal with
         | D : hex.fromHexChar _ = Some _ |- _ => rewrite D; clear D
         end.
  eauto.
Qed.

(** X16. A colour the shorthand route lets through ([red], [blue],
    [green], [off], [rand] or exactly six characters of [[0-9a-f]]) always
    gets a frame: for a known device the handler never answers with a logic
    error.  For six hexadecimal digits the three channels are, in order, the
    three bytes the whole text decodes to. *)
Theorem UpdateShorthand_routed_color (r1 r2 r3 : N) (color : string) :
  devices.shorthand_color color = true ->
  exists frame,
    devices.shorthand_frame r1 r2 r3 color = Some frame /\
    (devices.hex_run 6 color = true ->
       hex.DecodeString color =
         Some [devices.Red frame; devices.Green frame; devices.Blue frame]) /\
    (forall MarshalControl MarshalDevice details code,
       devices.UpdateShorthand MarshalControl MarshalDevice (Ok details) r1 r2 r3 color
         <> devices.ShorthandLogicError code).
Proof.
  intros R.
  assert (F : exists frame,
             devices.shorthand_frame r1 r2 r3 color = Some frame /\
             (devices.hex_run 6 color = true ->
                hex.DecodeString color =
                  Some [devices.Red frame; devices.Green frame; devices.Blue frame])).
  { unfold devices.shorthand_color in R. apply orb_prop in R as [R|R].
    - cbn [existsb] in R.
      repeat (apply orb_prop in R as [R|R]);
        try discriminate R;
        apply String.eqb_eq in R; subst color;
        eexists; (split; [vm_compute; reflexivity | intros H; vm_compute in H; discriminate H]).
    - apply andb_prop in R as [L H]. apply Nat.eqb_eq in L.
      destruct (six_digits_frame r1 r2 r3 color L H) as (r & g & b & E & D).
      exists (devices.mkControlFrame r g b). split; [exact E|]. intros _. exact D. }
  destruct F as (frame & E & D). exists frame. split; [exact E|]. split; [exact D|].
  intros MC MD details code. unfold devices.UpdateShorthand. rewrite E.
  destruct (MC [frame]); [|discriminate].
  destruct (MD _ _); discriminate.
Qed.

Lemma UpdateShorthand_routed_color_witness :
  devices.shorthand_color "ff8000" = true /\
  exists frame,
    devices.shorthand_frame 1 2 3 "ff8000" = Some frame /\
    (devices.hex_run 6 "ff8000" = true ->
       hex.DecodeString "ff8000" =
         Some [devices.Red frame; devices.Green frame; devices.Blue frame]) /\
    (forall MarshalControl MarshalDevice details code,
       devices.UpdateShorthand MarshalControl MarshalDevice (Ok details) 1 2 3 "ff8000"
         <> devices.ShorthandLogicError code).
Proof.
  split; [reflexivity|].
  apply (UpdateShorthand_routed_color 1 2 3 "ff8000"). reflexivity.
Defined.

(** X17. Whatever the colour text, a frame the handler builds has every
    channel within a byte, given that the three random draws are below
    255 as [rand.Intn(255)] makes them. *)
Theorem shorthand_frame_channels_bounded (r1 r2 r3 : N) (color : string)
    (frame : devices.ControlFrame) :
  (r1 < 255)%N -> (r2 < 255)%N -> (r3 < 255)%N ->
  devices.shorthand_frame r1 r2 r3 color = Some frame ->
  (devices.Red frame <= 255)%N /\ (devices.Green frame <= 255)%N /\
  (devices.Blue frame <= 255)%N.
Proof.
  intros B1 B2 B3. unfold devices.shorthand_frame.
  repeat match goal with
         | |- context [if ?c then _ else _] => destruct c
         end;
    try (intros [= <-]; cbn; lia).
  destruct (devices.decode_pair (String.substring 0 2 color)) as [r|] eqn:R; [|discriminate].
  destruct (devices.decode_pair (String.substring 2 2 color)) as [g|] eqn:G; [|discriminate].
  destruct (devices.decode_pair (String.substring 4 2 color)) as [b|] eqn:B; [|discriminate].
  intros [= <-]. cbn.
  apply decode_pair_bound in R, G, B. lia.
Qed.

Lemma shorthand_frame_channels_bounded_witness :
  (devices.Red (devices.mkControlFrame 255 128 0) <= 255)%N /\
  (devices.Green (devices.mkControlFrame 255 128 0) <= 255)%N /\
  (devices.Blue (devices.mkControlFrame 255 128 0) <= 255)%N.
Proof.
  apply (shorthand_frame_channels_bounded 1 2 3 "ff8000"
           (devices.mkControlFrame 255 128 0)); try lia.
  vm_compute. reflexivity.
Defined.

(** * The two revisions of token creation *)

Lemma bind_unfold {A B} (c : M A) (k : A -> M B) (s : Store) :
  bind c k s =
  match c s with
  | (Ok a, s') => k a s'
  | (Err e, s') => (Err e, s')
  end.
Proof. reflexivity. Qed.

Lemma four_hsets_as_hmset {B} key f1 v1 f2 v2 f3 v3 f4 v4 (k : M B) m :
  (_ <- ConnRegistryExt.hset key f1 v1 ;;
   _ <- ConnRegistryExt.hset key f2 v2 ;;
   _ <- ConnRegistryExt.hset key f3 v3 ;;
   _ <- ConnRegistryExt.hset key f4 v4 ;;
   k) (healthy m) =
  (_ <- Registry.hmset key [f1; v1; f2; v2; f3; v3; f4; v4] ;; k) (healthy m).
Proof.
  unfold ConnRegistryExt.hset, Registry.hmset, bind.
  rewrite !Do_healthy. cbn [exec pair_up fst snd].
  destruct (m !! key) as [[h|l|v]|] eqn:K; cbn [fst snd ret];
    try reflexivity;
    do 3 (rewrite !Do_healthy; cbn [exec fst snd]; rewrite lookup_insert_eq;
          cbn [fst snd ret]);
    rewrite !insert_insert_eq; reflexivity.
Qed.

(** X18. On a store without faults the pooled [CreateToken] is the
    single-connection one behind a device lookup: when [FindDevice] fails it
    returns that error and writes nothing, and otherwise it returns the same
    token and leaves the same store, one [HMSET] standing for the four
    [HSET]s. *)
Theorem CreateToken_pooled_is_guarded_legacy (m : gmap string rval)
    (tokenID : string) (generated : result string) (deviceID tokenName : string)
    (permission : N) :
  Registry.CreateToken tokenID generated deviceID tokenName permission (healthy m) =
  match Registry.FindDevice deviceID (healthy m) with
  | (Err e, _) => (Err e, healthy m)
  | (Ok _, _) =>
      ConnRegistryExt.CreateToken tokenID generated deviceID tokenName permission
        (healthy m)
  end.
Proof.
  unfold Registry.CreateToken. rewrite bind_unfold.
  destruct (Registry.FindDevice deviceID (healthy m)) as [[d|e] s1] eqn:F;
    (apply quiet_eq in F; [|apply quiet_FindDevice]); subst s1; [|reflexivity].
  unfold ConnRegistryExt.CreateToken.
  rewrite !(bind_unfold (lift generated)). unfold lift.
  destruct generated as [rawToken|e]; [|reflexivity].
  rewrite !(bind_unfold (Do _)). rewrite Do_healthy.
  destruct (fst (exec (LPUSH (Registry.genTokenListKey deviceID) rawToken) m));
    [|reflexivity].
  symmetry. apply four_hsets_as_hmset.
Qed.

(** * The two revisions of the device listing *)

Lemma ListRegistrations_loops m ids :
  exists results,
    ConnRegistryExt.ListRegistrations_loop ids (healthy m) = (results, healthy m) /\
    (length results <= length ids)%nat /\
    (length results = length ids ->
       RegistryExt.ListRegistrations_loop ids (healthy m) = (Ok results, healthy m)) /\
    (length results <> length ids ->
       exists e, RegistryExt.ListRegistrations_loop ids (healthy m) = (Err e, healthy m)).
Proof.
  induction ids as [|k rest (results & Hl & Hle & Hall & Hsome)].
  - exists []. repeat split; try reflexivity. intros H. contradiction.
  - cbn [ConnRegistryExt.ListRegistrations_loop RegistryExt.ListRegistrations_loop].
    rewrite bind_unfold.
    destruct (Registry.loadDetails (Registry.genRegistryKey k) (healthy m))
      as [[d|e] s1] eqn:L;
      (apply quiet_eq in L; [|apply quiet_loadDetails]); subst s1.
    + rewrite Hl. exists (d :: results). split; [reflexivity|].
      split; [simpl; lia|]. rewrite bind_unfold. split.
      * intros Hlen. rewrite Hall by (simpl in Hlen; lia). reflexivity.
      * intros Hlen. destruct Hsome as [e He]; [simpl in Hlen; lia|].
        rewrite He. eauto.
    + rewrite Hl. exists results. split; [reflexivity|].
      split; [simpl; lia|]. split.
      * intros Hlen. simpl in Hlen. lia.
      * intros _. eauto.
Qed.

(** X19. On a store without faults the pooled [ListRegistrations] succeeds
    exactly when the single-connection one lists a device for every id of
    the index, and the two then return the same list; where a row does not
    load the earlier revision returns a shorter list and the pooled one
    fails. *)
Theorem ListRegistrations_pooled_vs_legacy (m : gmap string rval)
    (results : list RegistrationDetails) :
  RegistryExt.ListRegistrations (healthy m) = (Ok results, healthy m) <->
  ConnRegistryExt.ListRegistrations (healthy m) = (Ok results, healthy m) /\
  length results = length (list_at m defs.RedisDeviceIndexKey).
Proof.
  unfold RegistryExt.ListRegistrations, ConnRegistryExt.ListRegistrations,
    RegistryExt.lrangestr, list_at.
  rewrite !bind_unfold, DoL_healthy. cbn [exec_list].
  destruct (m !! defs.RedisDeviceIndexKey) as [[h|l|v]|] eqn:K; cbn [fst snd].
  - split; [discriminate | intros [H _]; discriminate H].
  - rewrite Strings_of_keys, ltrim_range_all. rewrite bind_unfold. unfold lift.
    destruct (ListRegistrations_loops m l) as (rs & Hl & Hle & Hall & Hsome).
    rewrite Hl.
    destruct (Nat.eq_dec (length rs) (length l)) as [E|E].
    + rewrite (Hall E). split.
      * intros [= <-]. split; [reflexivity | exact E].
      * intros [[= <-] _]. reflexivity.
    + destruct (Hsome E) as [e He]. rewrite He. split; [discriminate|].
      intros [[= <-] Hlen]. contradiction.
  - split; [discriminate | intros [H _]; discriminate H].
  - cbn [redis.Strings map]. rewrite bind_unfold. unfold lift.
    cbn [ConnRegistryExt.ListRegistrations_loop RegistryExt.ListRegistrations_loop ret].
    split.
    + intros [= <-]. split; reflexivity.
    + intros [[= <-] _]. reflexivity.
Qed.
